(** * Markdown-to-PDF exporter ([Client/src/utils/pdf.ts])

    A shallow embedding of the LaTeX normalizer, the page layout engine
    ([renderToPdf] and the closures it defines), the exporter
    ([downloadMarkdownAsPdf]) and its caller, the download handler of the
    main page ([Client/src/components/main/MainPage.tsx]), followed by the
    properties stated for them.

    Conventions of the embedding:
    - a JavaScript string is the list of its UTF-16 code units;
    - a JavaScript number that holds a length or a coordinate is an exact
      rational ([Q]); rounding of IEEE doubles is not modelled;
    - the mutable variables captured by the closures of [renderToPdf]
      ([y], [listDepth], [listCounters]) and the [jsPDF] object are threaded
      explicitly as a [state];
    - the external collaborators (remark, DOMPurify, DOMParser, the text
      metrics of jsPDF) are variables of a section. *)

From Stdlib Require Import List String Ascii Bool Arith NArith ZArith QArith Lia Lqa.
From Stdlib Require Import DecimalString Permutation.
Import ListNotations.

Set Implicit Arguments.

Open Scope string_scope.
Open Scope list_scope.

(* ------------------------------------------------------------------ *)
(** ** JavaScript strings *)

Module JsString.

Definition jschar := N.
Definition jsstring := list jschar.

(** Decoder used to write string literals: the UTF-8 bytes of a Rocq string
    literal are turned into UTF-16 code units. *)
Fixpoint decode (bs : list N) : jsstring :=
  match bs with
  | [] => []
  | b :: r =>
      if (b <? 128)%N then b :: decode r
      else if (b <? 224)%N then
        match r with
        | c :: r' => ((b mod 32) * 64 + c mod 64)%N :: decode r'
        | _ => []
        end
      else if (b <? 240)%N then
        match r with
        | c :: d :: r' =>
            ((b mod 16) * 4096 + (c mod 64) * 64 + d mod 64)%N :: decode r'
        | _ => []
        end
      else
        match r with
        | c :: d :: e :: r' =>
            let cp := ((b mod 8) * 262144 + (c mod 64) * 4096
                       + (d mod 64) * 64 + e mod 64 - 65536)%N in
            (55296 + cp / 1024)%N :: (56320 + cp mod 1024)%N :: decode r'
        | _ => []
        end
  end.

Definition js (s : string) : jsstring :=
  decode (map N_of_ascii (list_ascii_of_string s)).

Definition eqb (a b : jsstring) : bool :=
  if list_eq_dec N.eq_dec a b then true else false.

(** Truthiness of a string: the empty string is the only falsy one. *)
Definition truthy (s : jsstring) : bool :=
  match s with
  | [] => false
  | _ :: _ => true
  end.

Definition asciiLower (s : jsstring) : jsstring :=
  map (fun c => if ((65 <=? c) && (c <=? 90))%N then (c + 32)%N else c) s.

(** [WhiteSpace] and [LineTerminator] code units, the ones [String.prototype.trim]
    removes. *)
Definition isWhiteSpace (c : jschar) : bool :=
  ((9 <=? c) && (c <=? 13) || (c =? 32) || (c =? 160) || (c =? 5760)
   || (8192 <=? c) && (c <=? 8202) || (c =? 8232) || (c =? 8233)
   || (c =? 8239) || (c =? 8287) || (c =? 12288) || (c =? 65279))%N.

Fixpoint trimStart (s : jsstring) : jsstring :=
  match s with
  | [] => []
  | c :: r => if isWhiteSpace c then trimStart r else s
  end.

Definition trimEnd (s : jsstring) : jsstring := rev (trimStart (rev s)).

Definition trim (s : jsstring) : jsstring := trimEnd (trimStart s).

Fixpoint startsWith (pat s : jsstring) : bool :=
  match pat, s with
  | [], _ => true
  | p :: pat', c :: s' => (p =? c)%N && startsWith pat' s'
  | _ :: _, [] => false
  end.

(** [s.replace(new RegExp(pat, 'g'), rep)] for a pattern that matches the
    literal, non-empty text [pat]: matches are found left to right and do
    not overlap.  [skip] counts the code units of the current match that are
    still to be consumed. *)
Fixpoint replaceLiteral (pat rep : jsstring) (skip : nat) (s : jsstring)
  : jsstring :=
  match s with
  | [] => []
  | c :: r =>
      match skip with
      | S k => replaceLiteral pat rep k r
      | O =>
          if startsWith pat s
          then rep ++ replaceLiteral pat rep (List.length pat - 1) r
          else c :: replaceLiteral pat rep 0 r
      end
  end.

Definition replaceAll (pat rep s : jsstring) : jsstring :=
  replaceLiteral pat rep 0 s.

Definition isAsciiLetter (c : jschar) : bool :=
  ((97 <=? c) && (c <=? 122) || (65 <=? c) && (c <=? 90))%N.

Definition backslash : jschar := 92%N.
Definition dollar : jschar := 36%N.
Definition newline : jschar := 10%N.

(** [s.replace(/\\[a-zA-Z]+/g, '')]: a backslash followed by at least one
    letter is removed together with the longest run of letters after it.
    [dropping] is true while inside such a run. *)
Fixpoint stripMacros (dropping : bool) (s : jsstring) : jsstring :=
  match s with
  | [] => []
  | c :: r =>
      if dropping && isAsciiLetter c then stripMacros true r
      else if (c =? backslash)%N
              && match r with l :: _ => isAsciiLetter l | [] => false end
      then stripMacros true r
      else c :: stripMacros false r
  end.

(** [s.replace(/[{}]/g, '')] *)
Definition stripBraces (s : jsstring) : jsstring :=
  filter (fun c => negb ((c =? 123) || (c =? 125))%N) s.

(** [s.replace(/\$([^$]+)\$/g, (_, latex) => f(latex))].  [span] is [None]
    outside a candidate span and [Some run] after an opening dollar, [run]
    being the code units read since.  A dollar that directly follows the
    opening one does not close a span (the group needs one code unit): the
    first dollar is kept and the second becomes the candidate opening.  A
    span still open at the end of the string is kept as it is. *)
Fixpoint replaceSpans (f : jsstring -> jsstring) (span : option jsstring)
  (s : jsstring) : jsstring :=
  match s with
  | [] =>
      match span with
      | None => []
      | Some run => dollar :: run
      end
  | c :: r =>
      match span with
      | None =>
          if (c =? dollar)%N then replaceSpans f (Some []) r
          else c :: replaceSpans f None r
      | Some run =>
          if (c =? dollar)%N then
            match run with
            | [] => dollar :: replaceSpans f (Some []) r
            | _ :: _ => f run ++ replaceSpans f None r
            end
          else replaceSpans f (Some (run ++ [c])) r
      end
  end.

(** [s.split('\n')] *)
Fixpoint splitLines (cur : jsstring) (s : jsstring) : list jsstring :=
  match s with
  | [] => [cur]
  | c :: r =>
      if (c =? newline)%N then cur :: splitLines [] r
      else splitLines (cur ++ [c]) r
  end.

(** Template literal [`${n}`] for a non-negative integer. *)
Definition numberToString (n : nat) : jsstring :=
  js (NilZero.string_of_uint (Nat.to_uint n)).

End JsString.
Import JsString.

(* ------------------------------------------------------------------ *)
(** ** LaTeX normalizer *)

Definition LATEX_TO_UNICODE : list (string * string) :=
  [ ("\rightarrow", "→"); ("\leftarrow", "←"); ("\uparrow", "↑"); ("\downarrow", "↓");
    ("\leftrightarrow", "↔"); ("\Rightarrow", "⇒"); ("\Leftarrow", "⇐"); ("\to", "→");
    ("\leq", "≤"); ("\geq", "≥"); ("\neq", "≠"); ("\approx", "≈");
    ("\alpha", "α"); ("\beta", "β"); ("\gamma", "γ"); ("\delta", "δ");
    ("\theta", "θ"); ("\lambda", "λ"); ("\mu", "μ"); ("\pi", "π"); ("\sigma", "σ");
    ("\phi", "φ"); ("\omega", "ω"); ("\Sigma", "Σ"); ("\Omega", "Ω");
    ("\star", "★"); ("\square", "□"); ("\bullet", "•"); ("\circ", "○");
    ("\times", "×"); ("\div", "÷"); ("\pm", "±"); ("\infty", "∞");
    ("\forall", "∀"); ("\exists", "∃"); ("\in", "∈"); ("\sum", "Σ");
    ("\checkmark", "✓"); ("\ldots", "…"); ("\degree", "°") ].

(** The [for] loop over [Object.entries(LATEX_TO_UNICODE)]: every entry is
    applied as a global substitution, in table order. *)
Definition substituteTable (s : jsstring) : jsstring :=
  fold_left (fun result entry => replaceAll (js (fst entry)) (js (snd entry)) result)
            LATEX_TO_UNICODE s.

(** What is left of a span after the table and the two stripping passes. *)
Definition strippedSpan (latex : jsstring) : jsstring :=
  trim (stripBraces (stripMacros false (substituteTable (trim latex)))).

(** The replacement callback: [stripped || latex]. *)
Definition convertSpan (latex : jsstring) : jsstring :=
  match strippedSpan latex with
  | [] => latex
  | r => r
  end.

Definition convertLatexToUnicode (text : jsstring) : jsstring :=
  replaceSpans convertSpan None text.

(* ------------------------------------------------------------------ *)
(** ** Document tree

    Tag names are kept lower-cased: every use of [tagName] in the source is
    followed by [toLowerCase()]. *)

Unset Elimination Schemes.
Inductive node : Type :=
| TextNode (data : jsstring)
| ElementNode (tagName : string) (attributes : list (string * jsstring))
              (childNodes : list node)
| CommentNode (data : jsstring).
Set Elimination Schemes.

Definition isElement (n : node) : bool :=
  match n with
  | ElementNode _ _ _ => true
  | _ => false
  end.

Definition hasTag (t : string) (n : node) : bool :=
  match n with
  | ElementNode tag _ _ => String.eqb tag t
  | _ => false
  end.

(** [textContent] of the text-node descendants, in document order. *)
Fixpoint descendantText (n : node) : jsstring :=
  match n with
  | TextNode d => d
  | ElementNode _ _ cs => List.concat (map descendantText cs)
  | CommentNode _ => []
  end.

Definition textContent (n : node) : jsstring :=
  match n with
  | CommentNode d => d
  | _ => descendantText n
  end.

(** Element descendants in document order, what [querySelectorAll] ranges
    over. *)
Fixpoint descendants (n : node) : list node :=
  match n with
  | ElementNode _ _ cs =>
      flat_map (fun c => if isElement c then c :: descendants c else []) cs
  | _ => []
  end.

Definition querySelectorAll (sel : node -> bool) (n : node) : list node :=
  filter sel (descendants n).

Definition querySelector (sel : node -> bool) (n : node) : option node :=
  hd_error (querySelectorAll sel n).

Fixpoint lookupAttribute (name : string) (attrs : list (string * jsstring))
  : option jsstring :=
  match attrs with
  | [] => None
  | (k, v) :: r => if String.eqb k name then Some v else lookupAttribute name r
  end.

Definition getAttribute (name : string) (n : node) : option jsstring :=
  match n with
  | ElementNode _ attrs _ => lookupAttribute name attrs
  | _ => None
  end.

Definition hasAttribute (name : string) (n : node) : bool :=
  match getAttribute name n with
  | Some _ => true
  | None => false
  end.

(** The selector [input[type="checkbox"]]; the value of [type] is compared
    without regard to ASCII case, as selectors do in an HTML document. *)
Definition isCheckbox (n : node) : bool :=
  hasTag "input" n
  && match getAttribute "type" n with
     | Some v => JsString.eqb (asciiLower v) (js "checkbox")
     | None => false
     end.

(** The selector [th, td]. *)
Definition isCell (n : node) : bool := hasTag "th" n || hasTag "td" n.

Definition isListTag (t : string) : bool := String.eqb t "ul" || String.eqb t "ol".

Definition backtick : jschar := 96%N.

(** [parent] is the lower-cased tag of [node.parentElement], if any. *)
Fixpoint extractText (parent : option string) (depth : nat) (n : node)
  : jsstring :=
  if (50 <? depth)%nat then textContent n
  else
    match n with
    | TextNode d => d
    | ElementNode tag _ cs =>
        if String.eqb tag "code"
           && negb match parent with
                   | Some p => String.eqb p "pre"
                   | None => false
                   end
        then backtick :: textContent n ++ [backtick]
        else List.concat (map (extractText (Some tag) (S depth)) cs)
    | CommentNode _ => []
    end.

(* ------------------------------------------------------------------ *)
(** ** Drawing surface

    The part of [jsPDF] the layout engine uses.  Setters change the graphics
    state; a drawing call appends a shape to the current (last) page,
    recorded with the graphics state it is drawn with. *)

Definition rgb := (Z * Z * Z)%type.

Record gstate : Type := mkGstate {
  fontName : string;
  fontStyle : string;
  fontSize : Q;
  textColor : rgb;
  fillColor : rgb;
  drawColor : rgb;
  lineWidth : Q
}.

Inductive prim : Type :=
| text (s : jsstring) (x y : Q)
| line (x1 y1 x2 y2 : Q)
| rect (x y w h : Q) (style : option string)
| roundedRect (x y w h rx ry : Q) (style : string).

Record drawn : Type := mkDrawn {
  onPage : nat;
  pen : gstate;
  shape : prim
}.

Record jsPDF : Type := mkDoc {
  pageSize : Q * Q;
  gs : gstate;
  numPages : nat;
  out : list drawn
}.

Definition getWidth (d : jsPDF) : Q := fst (pageSize d).
Definition getHeight (d : jsPDF) : Q := snd (pageSize d).

Definition withGs (g : gstate) (d : jsPDF) : jsPDF :=
  mkDoc (pageSize d) g (numPages d) (out d).

Definition addPage (d : jsPDF) : jsPDF :=
  mkDoc (pageSize d) (gs d) (S (numPages d)) (out d).

Definition setFontSize (size : Q) (d : jsPDF) : jsPDF :=
  let g := gs d in
  withGs (mkGstate (fontName g) (fontStyle g) size (textColor g) (fillColor g)
                   (drawColor g) (lineWidth g)) d.

Definition setFont (name style : string) (d : jsPDF) : jsPDF :=
  let g := gs d in
  withGs (mkGstate name style (fontSize g) (textColor g) (fillColor g)
                   (drawColor g) (lineWidth g)) d.

Definition setTextColor (c : rgb) (d : jsPDF) : jsPDF :=
  let g := gs d in
  withGs (mkGstate (fontName g) (fontStyle g) (fontSize g) c (fillColor g)
                   (drawColor g) (lineWidth g)) d.

Definition setFillColor (c : rgb) (d : jsPDF) : jsPDF :=
  let g := gs d in
  withGs (mkGstate (fontName g) (fontStyle g) (fontSize g) (textColor g) c
                   (drawColor g) (lineWidth g)) d.

Definition setDrawColor (c : rgb) (d : jsPDF) : jsPDF :=
  let g := gs d in
  withGs (mkGstate (fontName g) (fontStyle g) (fontSize g) (textColor g)
                   (fillColor g) c (lineWidth g)) d.

Definition setLineWidth (w : Q) (d : jsPDF) : jsPDF :=
  let g := gs d in
  withGs (mkGstate (fontName g) (fontStyle g) (fontSize g) (textColor g)
                   (fillColor g) (drawColor g) w) d.

Definition draw (p : prim) (d : jsPDF) : jsPDF :=
  mkDoc (pageSize d) (gs d) (numPages d)
        (out d ++ [mkDrawn (numPages d) (gs d) p]).

(** [new jsPDF({unit: 'pt', format: 'letter', orientation: 'portrait'})] *)
Definition defaultGstate : gstate :=
  mkGstate "helvetica" "normal" 16 (0, 0, 0)%Z (0, 0, 0)%Z (0, 0, 0)%Z
           0.200025.

Definition newLetterDoc : jsPDF := mkDoc (612, 792)%Q defaultGstate 1 [].

(* ------------------------------------------------------------------ *)
(** ** Page layout engine *)

Definition MARGIN : Q := 50.

Module FONT_SIZE.
Definition H1 : Q := 24.
Definition H2 : Q := 18.
Definition H3 : Q := 14.
Definition H4 : Q := 12.
Definition BODY : Q := 11.
Definition CODE : Q := 10.
End FONT_SIZE.

(** The mutable variables of [renderToPdf] together with the document. *)
Record state : Type := mkState {
  doc : jsPDF;
  y : Q;
  listDepth : Z;
  listCounters : list nat
}.

Definition onDoc (f : jsPDF -> jsPDF) (s : state) : state :=
  mkState (f (doc s)) (y s) (listDepth s) (listCounters s).

Definition setY (v : Q) (s : state) : state :=
  mkState (doc s) v (listDepth s) (listCounters s).

Definition setList (d : Z) (cs : list nat) (s : state) : state :=
  mkState (doc s) (y s) d cs.

(** The [options] argument of [renderText], defaults filled in. *)
Record textOptions : Type := mkOptions {
  bold : bool;
  italic : bool;
  indent : Q;
  prefix : jsstring;
  color : rgb
}.

Definition ofNat (n : nat) : Q := inject_Z (Z.of_nat n).

(** The cases of the [switch] on the tag name. *)
Inductive tagKind : Type :=
| KH1 | KH2 | KH3 | KH4 | KP | KList | KLi | KBlockquote | KPre | KTable | KHr
| KOther.

Definition classify (tag : string) : tagKind :=
  if String.eqb tag "h1" then KH1
  else if String.eqb tag "h2" then KH2
  else if String.eqb tag "h3" then KH3
  else if String.eqb tag "h4" || String.eqb tag "h5" || String.eqb tag "h6"
  then KH4
  else if String.eqb tag "p" then KP
  else if isListTag tag then KList
  else if String.eqb tag "li" then KLi
  else if String.eqb tag "blockquote" then KBlockquote
  else if String.eqb tag "pre" then KPre
  else if String.eqb tag "table" then KTable
  else if String.eqb tag "hr" then KHr
  else KOther.

(** [listCounters[listCounters.length - 1]++]: on an empty array the
    assignment creates the property [-1] and leaves the elements alone. *)
Definition incrementTop (cs : list nat) : list nat :=
  match cs with
  | [] => []
  | _ :: _ => removelast cs ++ [S (last cs O)]
  end.

(** [listCounters[listCounters.length - 1]], [None] standing for [NaN]. *)
Definition topCounter (cs : list nat) : option nat :=
  match cs with
  | [] => None
  | _ :: _ => Some (last cs O)
  end.

Definition counterToString (c : option nat) : jsstring :=
  match c with
  | Some n => numberToString n
  | None => js "NaN"
  end.

Section Surface.

(** [doc.splitTextToSize(text, maxWidth)]: wrapping depends on the current
    font and font size of the document. *)
Variable splitTextToSize : string -> string -> Q -> jsstring -> Q -> list jsstring.

Definition docSplitTextToSize (d : jsPDF) (t : jsstring) (maxWidth : Q) : list jsstring :=
  splitTextToSize (fontName (gs d)) (fontStyle (gs d)) (fontSize (gs d)) t maxWidth.

Local Open Scope Q_scope.

Section Closures.

(** Constants read from the document when [renderToPdf] starts. *)
Variables pageWidth pageHeight : Q.

Definition contentWidth : Q := pageWidth - MARGIN * 2.

Definition checkPageBreak (neededHeight : Q) (s : state) : state :=
  if Qlt_le_dec (pageHeight - MARGIN) (y s + neededHeight)
  then setY MARGIN (onDoc addPage s)
  else s.

Definition getLineHeight (fontSize : Q) : Q := fontSize * 1.4.

Definition addSpace (points : Q) (s : state) : state := setY (y s + points) s.

(** Body of the [for] loop of [renderText]. *)
Definition renderLine (lineHeight textX : Q) (s : state) (l : jsstring) : state :=
  let s := checkPageBreak lineHeight s in
  let s := onDoc (draw (text l textX (y s))) s in
  setY (y s + lineHeight) s.

Definition renderText (t : jsstring) (fontSize : Q) (o : textOptions)
  (s : state) : state :=
  let s := onDoc (setFontSize fontSize) s in
  let fontStyle :=
    if bold o then (if italic o then "bolditalic" else "bold")
    else (if italic o then "italic" else "normal") in
  let s := onDoc (setFont "helvetica" fontStyle) s in
  let s := onDoc (setTextColor (color o)) s in
  let lineHeight := getLineHeight fontSize in
  let x := MARGIN + indent o in
  let availableWidth := contentWidth - indent o in
  let s :=
    if truthy (prefix o) then
      let s := checkPageBreak lineHeight s in
      onDoc (draw (text (prefix o) x (y s))) s
    else s in
  let textIndent := if truthy (prefix o) then 15 else 0 in
  let textWidth := availableWidth - textIndent in
  let textX := x + textIndent in
  let lines := docSplitTextToSize (doc s) t textWidth in
  let s := fold_left (renderLine lineHeight textX) lines s in
  onDoc (setTextColor (0, 0, 0)%Z) s.

(** The heading cases share their shape. *)
Definition heading (parent : option string) (n : node)
  (before size after : Q) (s : state) : state :=
  let s := addSpace before s in
  let t := trim (extractText parent 0 n) in
  let s :=
    if truthy t then renderText t size (mkOptions true false 0 [] (0, 0, 0)%Z) s
    else s in
  addSpace after s.

Definition paragraph (parent : option string) (n : node) (s : state) : state :=
  let t := trim (extractText parent 0 n) in
  if truthy t then
    let indent := inject_Z (listDepth s) * 20 in
    let s := renderText t FONT_SIZE.BODY (mkOptions false false indent [] (0, 0, 0)%Z) s in
    addSpace 8 s
  else s.

Definition blockquote (parent : option string) (n : node) (s : state) : state :=
  let t := trim (extractText parent 0 n) in
  if truthy t then
    let s := addSpace 8 s in
    let startY := y s in
    let s := renderText t FONT_SIZE.BODY
               (mkOptions false true 20 [] (100, 100, 100)%Z) s in
    let s := onDoc (setDrawColor (180, 180, 180)%Z) s in
    let s := onDoc (setLineWidth 3) s in
    let s := onDoc (draw (line (MARGIN + 8) (startY - 10) (MARGIN + 8) (y s - 5))) s in
    addSpace 8 s
  else s.

(** Body of the [for] loop over the lines of a code block. *)
Definition codeLine (lineHeight : Q) (s : state) (l : jsstring) : state :=
  let s := checkPageBreak lineHeight s in
  let s := onDoc (draw (text (if truthy l then l else js " ") (MARGIN + 10) (y s))) s in
  setY (y s + lineHeight) s.

Definition pre (n : node) (s : state) : state :=
  let code := trim (textContent n) in
  if truthy code then
    let s := addSpace 8 s in
    let lines := splitLines [] code in
    let lineHeight := getLineHeight FONT_SIZE.CODE in
    let blockHeight := ofNat (List.length lines) * lineHeight + 20 in
    let minHeight := if Qle_bool blockHeight 100 then blockHeight else 100 in
    let s := checkPageBreak minHeight s in
    let s := onDoc (setFillColor (245, 245, 245)%Z) s in
    let s := onDoc (draw (roundedRect MARGIN (y s - 5) contentWidth blockHeight 4 4 "F")) s in
    let s := onDoc (setFont "courier" "normal") s in
    let s := onDoc (setFontSize FONT_SIZE.CODE) s in
    let s := setY (y s + 10) s in
    let s := fold_left (codeLine lineHeight) lines s in
    let s := setY (y s + 10) s in
    addSpace 8 s
  else s.

(** Body of [cells.forEach((cell, i) => ...)]; [y0] is the cursor, which the
    callback reads and does not change.  No parent is given to
    [extractText]: the cell is a [th] or a [td], and the parent is looked at
    for a [code] element only. *)
Definition tableCell (isHeader : bool) (colWidth rowHeight y0 : Q)
  (d : jsPDF) (ic : nat * node) : jsPDF :=
  let d := setFontSize FONT_SIZE.BODY d in
  let d := setFont "helvetica" (if isHeader then "bold" else "normal") d in
  let t := trim (extractText None 0 (snd ic)) in
  let truncated := hd [] (docSplitTextToSize d t (colWidth - 10)) in
  draw (text truncated (MARGIN + ofNat (fst ic) * colWidth + 5)
             (y0 + rowHeight / 2 + 3)) d.

(** Body of the [for] loop over the rows of a table. *)
Definition tableRow (cols : nat) (colWidth rowHeight : Q) (s : state)
  (row : node) : state :=
  let s := checkPageBreak rowHeight s in
  let cells := querySelectorAll isCell row in
  let isHeader :=
    match querySelector (hasTag "th") row with
    | Some _ => true
    | None => false
    end in
  let s :=
    if isHeader then
      let s := onDoc (setFillColor (240, 240, 240)%Z) s in
      onDoc (draw (rect MARGIN (y s) contentWidth rowHeight (Some "F"))) s
    else s in
  let s :=
    onDoc (fun d => fold_left (tableCell isHeader colWidth rowHeight (y s))
                              (combine (seq 0 (List.length cells)) cells) d) s in
  let s := onDoc (setDrawColor (200, 200, 200)%Z) s in
  let s := onDoc (setLineWidth 0.5) s in
  let s := onDoc (draw (rect MARGIN (y s) contentWidth rowHeight None)) s in
  let s :=
    onDoc (fun d =>
             fold_left (fun d i =>
                          draw (line (MARGIN + ofNat i * colWidth) (y s)
                                     (MARGIN + ofNat i * colWidth) (y s + rowHeight)) d)
                       (seq 1 (cols - 1)) d) s in
  setY (y s + rowHeight) s.

(** [rows[0].querySelectorAll('th, td').length || 1] *)
Definition columnCount (row0 : node) : nat :=
  match List.length (querySelectorAll isCell row0) with
  | O => 1%nat
  | n => n
  end.

Definition table (n : node) (s : state) : state :=
  let s := addSpace 10 s in
  let rows := querySelectorAll (hasTag "tr") n in
  match rows with
  | [] => s
  | row0 :: _ =>
      let cols := columnCount row0 in
      let colWidth := contentWidth / ofNat cols in
      let rowHeight := getLineHeight FONT_SIZE.BODY + 12 in
      let s := fold_left (tableRow cols colWidth rowHeight) rows s in
      addSpace 10 s
  end.

Definition hr (s : state) : state :=
  let s := addSpace 15 s in
  let s := checkPageBreak 5 s in
  let s := onDoc (setDrawColor (200, 200, 200)%Z) s in
  let s := onDoc (setLineWidth 1) s in
  let s := onDoc (draw (line MARGIN (y s) (pageWidth - MARGIN) (y s))) s in
  addSpace 15 s.

(** Entry and exit of the [ul]/[ol] case. *)
Definition enterList (s : state) : state :=
  setList (listDepth s + 1)%Z (listCounters s ++ [O]) s.

Definition exitList (s : state) : state :=
  let s := setList (listDepth s - 1)%Z (removelast (listCounters s)) s in
  if (listDepth s =? 0)%Z then addSpace 6 s else s.

(** The prefix an [li] is given. *)
Definition itemPrefix (parent : option string) (n : node) (counter : option nat)
  : jsstring :=
  let isOrdered :=
    match parent with
    | Some p => String.eqb p "ol"
    | None => false
    end in
  match querySelector isCheckbox n with
  | Some checkbox => if hasAttribute "checked" checkbox then js "☑" else js "☐"
  | None => if isOrdered then counterToString counter ++ js "." else js "•"
  end.

(** The text of an [li] that is not inside a nested list. *)
Definition directText (n : node) : jsstring :=
  match n with
  | ElementNode tag _ cs =>
      List.concat
        (map (fun child =>
                match child with
                | TextNode d => d
                | ElementNode childTag _ _ =>
                    if isListTag childTag then [] else extractText (Some tag) 0 child
                | CommentNode _ => []
                end) cs)
  | _ => []
  end.

(** The part of the [li] case before the nested lists are walked. *)
Definition listItem (parent : option string) (n : node) (s : state) : state :=
  let s := setList (listDepth s) (incrementTop (listCounters s)) s in
  let counter := topCounter (listCounters s) in
  let prefix := itemPrefix parent n counter in
  let t := trim (directText n) in
  let indent := inject_Z (listDepth s - 1) * 20 in
  if truthy t then
    renderText t FONT_SIZE.BODY (mkOptions false false indent prefix (0, 0, 0)%Z) s
  else s.

(** [processNode] takes an element; on another node it does nothing, which
    stands for the test [child.nodeType === Node.ELEMENT_NODE] its callers
    make.  [parent] is the tag of [node.parentElement]. *)
Fixpoint processNode (parent : option string) (n : node) (s : state)
  {struct n} : state :=
  match n with
  | ElementNode tag _ cs =>
      match classify tag with
      | KH1 => heading parent n 20 FONT_SIZE.H1 10 s
      | KH2 => heading parent n 16 FONT_SIZE.H2 8 s
      | KH3 => heading parent n 12 FONT_SIZE.H3 6 s
      | KH4 => heading parent n 10 FONT_SIZE.H4 4 s
      | KP => paragraph parent n s
      | KList =>
          let s := enterList s in
          let s := fold_left (fun s child => processNode (Some tag) child s) cs s in
          exitList s
      | KLi =>
          let s := listItem parent n s in
          fold_left (fun s child =>
                       match child with
                       | ElementNode childTag _ _ =>
                           if isListTag childTag then processNode (Some tag) child s
                           else s
                       | _ => s
                       end) cs s
      | KBlockquote => blockquote parent n s
      | KPre => pre n s
      | KTable => table n s
      | KHr => hr s
      | KOther => fold_left (fun s child => processNode (Some tag) child s) cs s
      end
  | _ => s
  end.

(** The loop over the children of the root. *)
Definition processRoot (root : node) (s : state) : state :=
  match root with
  | ElementNode tag _ cs =>
      fold_left (fun s child => processNode (Some tag) child s) cs s
  | _ => s
  end.

End Closures.

Definition initialState (d : jsPDF) : state := mkState d MARGIN 0%Z [].

(** [layout] is [renderToPdf] after the HTML has been parsed. *)
Definition layout (root : node) (d : jsPDF) : jsPDF :=
  doc (processRoot (getWidth d) (getHeight d) root (initialState d)).

(** [new DOMParser().parseFromString(s, 'text/html').body.firstElementChild] *)
Variable parseFirstElement : jsstring -> option node.

Definition renderToPdf (d : jsPDF) (html : jsstring) : jsPDF :=
  match parseFirstElement (js "<div>" ++ html ++ js "</div>") with
  | None => d
  | Some root => layout root d
  end.

(* ------------------------------------------------------------------ *)
(** ** Exporter *)

(** What a collaborator may throw. *)
Variable exn : Type.

Inductive error : Type :=
| EmptyMarkdownError (message : jsstring)
| Thrown (e : exn).

(** [new EmptyMarkdownError()] *)
Definition defaultMessage : jsstring :=
  js "No content to download. Add some notes first!".

(** The remark pipeline ([remark().use(...).process(processed)] and
    [String(result)]) and [DOMPurify.sanitize] with the allow-lists of the
    source. *)
Variable remarkProcess : jsstring -> exn + jsstring.
Variable sanitize : jsstring -> exn + jsstring.

(** [new Date().toISOString()] at the time of the call. *)
Variable nowISO : jsstring.

(** What the exporter does to the outside, in order. *)
Inductive event : Type :=
| ConsoleLog (message : string)
| ConsoleLogSaving (filename : jsstring)
| ConsoleError (e : exn)
| CallRemark (processed : jsstring)
| CallSanitize (html : jsstring)
| NewJsPDF
| CallRenderToPdf (clean : jsstring)
| Save (d : jsPDF) (filename : jsstring).

Definition markdownToHtml (markdown : jsstring) : exn + jsstring :=
  remarkProcess (convertLatexToUnicode markdown).

Definition defaultFilenamePrefix : jsstring := js "vibescribe-notes".

Definition downloadMarkdownAsPdf (markdown filenamePrefix : jsstring)
  : list event * (error + unit) :=
  let log := [ConsoleLog "[PDF] Starting PDF generation..."] in
  if negb (truthy (trim markdown)) then
    (log, inl (EmptyMarkdownError defaultMessage))
  else
    let log := log ++ [ConsoleLog "[PDF] Converting markdown to HTML...";
                       CallRemark (convertLatexToUnicode markdown)] in
    match markdownToHtml markdown with
    | inl e => (log ++ [ConsoleError e], inl (Thrown e))
    | inr html =>
        let log := log ++ [ConsoleLog "[PDF] Sanitizing HTML..."; CallSanitize html] in
        match sanitize html with
        | inl e => (log ++ [ConsoleError e], inl (Thrown e))
        | inr clean =>
            let log := log ++ [ConsoleLog "[PDF] Creating PDF document..."; NewJsPDF;
                               ConsoleLog "[PDF] Rendering content...";
                               CallRenderToPdf clean] in
            let d := renderToPdf newLetterDoc clean in
            let timestamp := firstn 10 nowISO in
            let filename := filenamePrefix ++ js "-" ++ timestamp ++ js ".pdf" in
            (log ++ [ConsoleLogSaving filename; Save d filename;
                     ConsoleLog "[PDF] Done!"],
             inr tt)
        end
    end.

End Surface.

(* ------------------------------------------------------------------ *)
(** ** Sample collaborators and documents

    Concrete values at which the properties below are instantiated. *)

(** A text metric under which every text fits on one line. *)
Definition wrapNone : string -> string -> Q -> jsstring -> Q -> list jsstring :=
  fun _ _ _ t _ => [t].

Definition el (tag : string) (cs : list node) : node := ElementNode tag [] cs.

Definition nl : node := TextNode [newline].

(** The tree of [<div><blockquote>\n<p>a</p>\n</blockquote></div>], what
    [> a] compiles to. *)
Definition quoteDoc : node :=
  el "div" [el "blockquote" [nl; el "p" [TextNode (js "a")]; nl]].

(** Twenty-three rules followed by a one-line code block. *)
Definition rulesThenCode : node :=
  el "div" (repeat (el "hr" []) 23
            ++ [el "pre" [el "code" [TextNode (js "a")]]]).

(** [- a\n- b\n- c] *)
Definition bulletDoc : node :=
  el "div" [el "ul" [nl; el "li" [TextNode (js "a")]; nl;
                     el "li" [TextNode (js "b")]; nl;
                     el "li" [TextNode (js "c")]; nl]].

(** [- a\n  - b], a list nested in an item. *)
Definition nestedDoc : node :=
  el "div" [el "ul" [nl; el "li" [TextNode (js "a" ++ [newline]);
                                  el "ul" [nl; el "li" [TextNode (js "b")]; nl];
                                  nl]; nl]].

(** [1. x\n2. y] *)
Definition orderedDoc : node :=
  el "div" [el "ol" [nl; el "li" [TextNode (js "x")]; nl;
                     el "li" [TextNode (js "y")]; nl]].

(** [1. [ ] x], a task item in an ordered list. *)
Definition taskItem : node :=
  ElementNode "li" [("class", js "task-list-item")]
    [ElementNode "input" [("type", js "checkbox"); ("disabled", [])] [];
     TextNode (js " x")].

Definition orderedTaskDoc : node :=
  el "div" [ElementNode "ol" [("class", js "contains-task-list")]
              [nl; taskItem; nl]].

(** A code block of sixty lines. *)
Definition longCode : node :=
  el "pre" [el "code" [TextNode (List.concat (repeat (js "a" ++ [newline]) 60))]].

(** A table with a header row and one body row, three columns each. *)
Definition headerRow : node :=
  el "tr" [el "th" [TextNode (js "A")]; el "th" [TextNode (js "B")];
           el "th" [TextNode (js "C")]].

Definition bodyRow : node :=
  el "tr" [el "td" [TextNode (js "1")]; el "td" [TextNode (js "2")];
           el "td" [TextNode (js "3")]].

Definition sampleTable : node :=
  el "table" [el "thead" [headerRow]; el "tbody" [bodyRow]].

(** Collaborators that accept everything. *)
Definition remarkIdentity : jsstring -> unit + jsstring := fun s => inr s.
Definition sanitizeIdentity : jsstring -> unit + jsstring := fun s => inr s.
Definition parseNothing : jsstring -> option node := fun _ => None.
Definition sampleDate : jsstring := js "2026-01-01T00:00:00.000Z".

(** A fresh letter page whose graphics state is not the default one. *)
Definition redLetterDoc : jsPDF :=
  mkDoc (612, 792)%Q
        (mkGstate "times" "bold" 9 (255, 0, 0)%Z (0, 0, 255)%Z (0, 255, 0)%Z 2)
        1 [].

(** The strings of the text runs of a document, in drawing order. *)
Definition textRuns (d : jsPDF) : list jsstring :=
  flat_map (fun o => match shape o with
                     | text t _ _ => [t]
                     | _ => []
                     end) (out d).

(** A heading, the sample table and a horizontal rule. *)
Definition tableAndRule : node :=
  el "div" [el "h1" [TextNode (js "T")]; sampleTable; el "hr" []].

(* ------------------------------------------------------------------ *)
(** ** Vocabulary of the properties *)

(** The substitution loop of the normalizer run over an arbitrary table, to
    compare orders of the entries. *)
Definition substituteEntries (table : list (string * string)) (s : jsstring)
  : jsstring :=
  fold_left (fun result entry => replaceAll (js (fst entry)) (js (snd entry)) result)
            table s.

(** The span [\alpha \to \beta] with some of its three macros replaced. *)
Definition partlyReplaced (a t b : bool) : jsstring :=
  (if a then js "α" else js "\alpha") ++ js " "
  ++ (if t then js "→" else js "\to") ++ js " "
  ++ (if b then js "β" else js "\beta").

Definition isEntry (macro : string) (entry : string * string) : bool :=
  String.eqb (fst entry) macro.

(** The list state is the same in [s'] as in [s]. *)
Definition sameList (s s' : state) : Prop :=
  listDepth s' = listDepth s /\ listCounters s' = listCounters s.

(** The document [d'] is the document [d] with shapes and possibly pages
    appended. *)
Definition docGrows (d d' : jsPDF) : Prop :=
  pageSize d' = pageSize d /\ (numPages d <= numPages d')%nat
  /\ exists new, out d' = out d ++ new.

Definition grows (s s' : state) : Prop := docGrows (doc s) (doc s').

(** Both relations at once, for the steps that leave the list state alone. *)
Definition frame (s s' : state) : Prop := sameList s s' /\ grows s s'.

(** The invariant relating the two parts of the list state. *)
Definition listInvariant (s : state) : Prop :=
  listDepth s = Z.of_nat (List.length (listCounters s)).

(** Number of [li] elements the walk from [n] visits without entering a
    list first. *)
Fixpoint bareItems (n : node) : nat :=
  match n with
  | ElementNode tag _ cs =>
      match classify tag with
      | KLi => 1
      | KOther => list_sum (map bareItems cs)
      | _ => 0
      end
  | _ => 0
  end.

(** A vertical coordinate inside the printable band of a page of height
    [pageHeight]. *)
Definition inRange (pageHeight v : Q) : Prop :=
  (MARGIN <= v /\ v <= pageHeight - MARGIN)%Q.

(** A shape drawn where the page-break check put the cursor: its vertical
    coordinates are inside the printable band.  Two shapes are positioned
    relative to the cursor without a check of their own and are left out:
    the rounded background of a code block and the rule of a block quote,
    which is the stroke of width 3. *)
Definition placed (pageHeight : Q) (o : drawn) : Prop :=
  match shape o with
  | text _ _ y => inRange pageHeight y
  | rect _ y _ h _ => inRange pageHeight y /\ inRange pageHeight (y + h)%Q
  | line _ y1 _ y2 =>
      lineWidth (pen o) = 3%Q \/ (inRange pageHeight y1 /\ inRange pageHeight y2)
  | roundedRect _ _ _ _ _ _ _ => True
  end.

(** The cursor is at or below the top margin and every shape drawn so far
    is placed. *)
Definition good (pageHeight : Q) (s : state) : Prop :=
  (MARGIN <= y s)%Q /\ Forall (placed pageHeight) (out (doc s)).

(** The text run of one literal line of a code block: the line, or a space
    when the line is empty, on a line of height [lineHeight] that lies
    between the margins. *)
Definition codeLineDrawn (pageHeight lineHeight : Q) (o : drawn) (l : jsstring)
  : Prop :=
  exists baseline,
    shape o = text (if truthy l then l else js " ") (MARGIN + 10)%Q baseline
    /\ (MARGIN <= baseline /\ baseline + lineHeight <= pageHeight - MARGIN)%Q.

(** What a table row draws, as the specification words it: the filled
    background of a header row, then for the cell of index [i] the first
    wrapped line of its text in column [i], then the border of the row and
    the strokes between the columns. *)
Section RowShapes.

Variable splitTextToSize : string -> string -> Q -> jsstring -> Q -> list jsstring.
Variable pageWidth : Q.

Definition cellRun (isHeader : bool) (colWidth rowHeight top : Q)
  (ic : nat * node) : prim :=
  text (hd [] (splitTextToSize "helvetica" (if isHeader then "bold" else "normal")
                               FONT_SIZE.BODY
                               (trim (extractText None 0 (snd ic)))
                               (colWidth - 10)%Q))
       (MARGIN + ofNat (fst ic) * colWidth + 5)%Q
       (top + rowHeight / 2 + 3)%Q.

Definition columnStroke (colWidth rowHeight top : Q) (i : nat) : prim :=
  line (MARGIN + ofNat i * colWidth)%Q top
       (MARGIN + ofNat i * colWidth)%Q (top + rowHeight)%Q.

Definition rowShapes (isHeader : bool) (cols : nat) (colWidth rowHeight top : Q)
  (cells : list node) : list prim :=
  (if isHeader
   then [rect MARGIN top (contentWidth pageWidth) rowHeight (Some "F")]
   else [])
  ++ map (cellRun isHeader colWidth rowHeight top)
         (combine (seq 0 (List.length cells)) cells)
  ++ rect MARGIN top (contentWidth pageWidth) rowHeight None
  :: map (columnStroke colWidth rowHeight top) (seq 1 (cols - 1)).

End RowShapes.

(** The pen of the shapes of a row: text in Helvetica at body size, bold in
    a header row, and the light grey fill of the header background. *)
Definition rowPen (isHeader : bool) (o : drawn) : Prop :=
  match shape o with
  | text _ _ _ =>
      fontName (pen o) = "helvetica"
      /\ fontStyle (pen o) = (if isHeader then "bold" else "normal")
      /\ fontSize (pen o) = FONT_SIZE.BODY
  | rect _ _ _ _ (Some _) => fillColor (pen o) = (240, 240, 240)%Z
  | _ => True
  end.

(** The invariant of the printable band read for every shape, the rule of
    a block quote and the background of a code block included. *)
Definition withinBand (pageHeight : Q) (o : drawn) : Prop :=
  match shape o with
  | text _ _ y => inRange pageHeight y
  | line _ y1 _ y2 => inRange pageHeight y1 /\ inRange pageHeight y2
  | rect _ y _ _ _ => inRange pageHeight y
  | roundedRect _ y _ _ _ _ _ => inRange pageHeight y
  end.

(** What two runs of the engine are compared on: the page size, the number
    of pages and, for every shape in drawing order, its page and the shape
    itself.  The graphics state a shape is drawn with is left out. *)
Definition skeleton (d : jsPDF) : Q * Q * nat * list (nat * prim) :=
  (pageSize d, numPages d, map (fun o => (onPage o, shape o)) (out d)).

(** Two states that differ at most in the graphics state of the document
    and in the pens recorded with the shapes. *)
Definition alike (s1 s2 : state) : Prop :=
  skeleton (doc s1) = skeleton (doc s2) /\ y s1 = y s2
  /\ listDepth s1 = listDepth s2 /\ listCounters s1 = listCounters s2.

(** A surface nothing has been drawn on yet. *)
Definition fresh (d : jsPDF) : Prop := numPages d = 1%nat /\ out d = [].

(** Room for the height [h] below [top] inside the printable band of a
    page of height [pageHeight]. *)
Definition hasRoom (pageHeight top h : Q) : Prop :=
  (MARGIN <= top /\ top + h <= pageHeight - MARGIN)%Q.

(** A shape drawn where a page-break check made with its own height has
    left the cursor.  A text run has room below its baseline for one line
    of the font it is drawn in, or it is the text of a table cell: then it
    sits, at half the row height and three points below the top, in a row
    whose border is among the shapes [all], on the same page, and has room
    for the row.  A rectangle has room for its height.  Strokes are told
    apart by their width: the rule of a horizontal rule (width 1) is
    horizontal and has room for the five points it is checked with; a stroke
    between two columns (width 0.5) has room for its own height.  The rule
    of a block quote (width 3) and the background of a code block are drawn
    without a check of their own. *)
Definition checked (pageHeight : Q) (all : list drawn) (o : drawn) : Prop :=
  match shape o with
  | text _ _ b =>
      hasRoom pageHeight b (getLineHeight (fontSize (pen o)))
      \/ exists row x top w h,
           In row all /\ onPage row = onPage o
           /\ shape row = rect x top w h None
           /\ hasRoom pageHeight top h /\ b = (top + h / 2 + 3)%Q
  | rect _ top _ h _ => hasRoom pageHeight top h
  | line _ y1 _ y2 =>
      lineWidth (pen o) = 3%Q
      \/ (lineWidth (pen o) = 1%Q /\ y2 = y1 /\ hasRoom pageHeight y1 5)
      \/ (lineWidth (pen o) = 0.5%Q
          /\ exists h, y2 = (y1 + h)%Q /\ hasRoom pageHeight y1 h)
  | roundedRect _ _ _ _ _ _ _ => True
  end.

(** The cursor is at or below the top margin and every shape drawn so far
    has been checked. *)
Definition sound (pageHeight : Q) (s : state) : Prop :=
  (MARGIN <= y s)%Q /\ Forall (checked pageHeight (out (doc s))) (out (doc s)).

(** Inside a loop that draws lines of text at the font size [size]. *)
Definition soundAt (pageHeight size : Q) (s : state) : Prop :=
  sound pageHeight s /\ fontSize (gs (doc s)) = size.

(* ------------------------------------------------------------------ *)
(** ** The caller of the exporter ([Client/src/components/main/MainPage.tsx]) *)

Module MainPage.

(** The two pieces of component state [handleDownloadPDF] writes. *)
Record uiState : Type := mkUi {
  error : option jsstring;
  isGeneratingPdf : bool
}.

Definition setError (e : option jsstring) (u : uiState) : uiState :=
  mkUi e (isGeneratingPdf u).

Definition setIsGeneratingPdf (b : bool) (u : uiState) : uiState :=
  mkUi (error u) b.

Definition genericMessage : jsstring :=
  js "Failed to generate PDF. Please try again.".

Section Handler.

Variable splitTextToSize : string -> string -> Q -> jsstring -> Q -> list jsstring.
Variable parseFirstElement : jsstring -> option node.
Variable exn : Type.
Variables remarkProcess sanitize : jsstring -> exn + jsstring.
Variable nowISO : jsstring.

(** The state after the handler has run, with what was logged on the way;
    the last [ConsoleError] of a failed run is the handler's own
    [console.error('PDF generation failed:', err)]. *)
Definition handleDownloadPDF (editorMarkdown : jsstring) (u : uiState)
  : list (event exn) * uiState :=
  let u := setError None u in
  let u := setIsGeneratingPdf true u in
  let run := downloadMarkdownAsPdf splitTextToSize parseFirstElement remarkProcess
                                   sanitize nowISO editorMarkdown
                                   (js "vibescribe-notes") in
  let caught :=
    match snd run with
    | inr _ => (fst run, u)
    | inl (EmptyMarkdownError _ message) => (fst run, setError (Some message) u)
    | inl (Thrown e) => (fst run ++ [ConsoleError e], setError (Some genericMessage) u)
    end in
  (fst caught, setIsGeneratingPdf false (snd caught)).

End Handler.

End MainPage.

(* ------------------------------------------------------------------ *)
(** ** Vocabulary of the further properties *)

Definition notBacktick (c : jschar) : bool := negb (c =? backtick)%N.

(** No comment node in the subtree. *)
Fixpoint commentFree (n : node) : bool :=
  match n with
  | TextNode _ => true
  | ElementNode _ _ cs => forallb commentFree cs
  | CommentNode _ => false
  end.

(** No [code] element in the subtree. *)
Fixpoint codeFree (n : node) : bool :=
  match n with
  | ElementNode tag _ cs => negb (String.eqb tag "code") && forallb codeFree cs
  | _ => true
  end.

(** Only tags without a case of their own in the subtree. *)
Fixpoint inert (n : node) : bool :=
  match n with
  | ElementNode tag _ cs =>
      match classify tag with
      | KOther => forallb inert cs
      | _ => false
      end
  | _ => true
  end.

(** What the engine may do to the surface: set a part of the graphics
    state, draw a shape, add a page. *)
Inductive docSteps : jsPDF -> jsPDF -> Prop :=
| steps_done d : docSteps d d
| steps_gs d d' g : docSteps d d' -> docSteps d (withGs g d')
| steps_draw d d' p : docSteps d d' -> docSteps d (draw p d')
| steps_addPage d d' : docSteps d d' -> docSteps d (addPage d').

Fixpoint ascending (l : list nat) : Prop :=
  match l with
  | [] => True
  | a :: r => Forall (le a) r /\ ascending r
  end.

(** The shapes are on existing pages, in page order. *)
Definition pagesInOrder (d : jsPDF) : Prop :=
  (1 <= numPages d)%nat
  /\ Forall (fun o => (1 <= onPage o <= numPages d)%nat) (out d)
  /\ ascending (map onPage (out d)).

(** The engine's steps between two states. *)
Definition walks (s s' : state) : Prop := docSteps (doc s) (doc s').

(** What is appended between [d] and [d']: the page size is kept, no page
    is taken away, and the new shapes are on the pages from the current one
    of [d] to the current one of [d'], in page order. *)
Definition extends (d d' : jsPDF) : Prop :=
  pageSize d' = pageSize d /\ (numPages d <= numPages d')%nat
  /\ exists new,
       out d' = out d ++ new
       /\ Forall (fun o => (numPages d <= onPage o <= numPages d')%nat) new
       /\ ascending (map onPage new).

(** The pens text is drawn with: Helvetica at one of the heading or body
    sizes, black or, in italics, the grey of a block quote; or Courier,
    upright, at the code size, black. *)
Definition okText (g : gstate) : Prop :=
  (fontName g = "helvetica"
   /\ In (fontSize g)
         [FONT_SIZE.H1; FONT_SIZE.H2; FONT_SIZE.H3; FONT_SIZE.H4; FONT_SIZE.BODY]
   /\ (textColor g = (0, 0, 0)%Z
       \/ (textColor g = (100, 100, 100)%Z /\ fontStyle g = "italic")))
  \/ (fontName g = "courier" /\ fontStyle g = "normal"
      /\ fontSize g = FONT_SIZE.CODE /\ textColor g = (0, 0, 0)%Z).

Definition knownPen (o : drawn) : Prop :=
  match shape o with
  | text _ _ _ => okText (pen o)
  | _ => True
  end.

(** Between two blocks: the text colour is black again and every text run
    drawn so far has a known pen. *)
Definition tidyDoc (d : jsPDF) : Prop :=
  textColor (gs d) = (0, 0, 0)%Z /\ Forall knownPen (out d).

Definition tidy (s : state) : Prop := tidyDoc (doc s).

(** Inside a loop that draws text with the pen [g]. *)
Definition pennedWith (g : gstate) (s : state) : Prop :=
  gs (doc s) = g /\ Forall knownPen (out (doc s)).

(** The font style [renderText] selects. *)
Definition styleOf (o : textOptions) : string :=
  if bold o then (if italic o then "bolditalic" else "bold")
  else (if italic o then "italic" else "normal").

(** A block whose text is white space only.  The [pre] case reads
    [textContent], whatever elements hold the text: the [code] element of a
    fenced block does not matter.  The other cases read [extractText], where
    inline code brings its backticks: there the block holds no [code]
    element (and no comment, which [extractText] reads below its depth
    bound). *)
Definition blank (kind : tagKind) (n : node) : bool :=
  forallb isWhiteSpace (textContent n)
  && match kind with
     | KPre => true
     | _ => codeFree n && commentFree n
     end.

(** A remark pipeline that throws, and a sanitizer that does. *)
Definition remarkFails : jsstring -> unit + jsstring := fun _ => inl tt.
Definition sanitizeFails : jsstring -> unit + jsstring := fun _ => inl tt.

(** A text written as segments, each some text followed by a span, and a
    tail; [render] says how a span is written. *)
Definition withSpans (render : jsstring -> jsstring)
  (segments : list (jsstring * jsstring)) (tail : jsstring) : jsstring :=
  List.concat (map (fun seg => fst seg ++ render (snd seg)) segments) ++ tail.

Definition inDollars (latex : jsstring) : jsstring := dollar :: latex ++ [dollar].

Definition isBrace (c : jschar) : bool := ((c =? 123) || (c =? 125))%N.

(** The shapes appended between [d] and [d'] all satisfy [P]. *)
Definition adds (P : drawn -> Prop) (d d' : jsPDF) : Prop :=
  exists new, out d' = out d ++ new /\ Forall P new.



(** Every element of the list is related to the next one. *)
Fixpoint adjacent {A} (R : A -> A -> Prop) (l : list A) : Prop :=
  match l with
  | a :: (b :: _) as r => R a b /\ adjacent R r
  | _ => True
  end.

(** The text run [o2] comes after the text run [o1] in a column of lines of
    height [lh]: on the same page one line lower, with room for the line
    above the bottom margin; or at the top margin of the next page, when
    there was no such room. *)
Definition follows (pageHeight lh : Q) (o1 o2 : drawn) : Prop :=
  exists t1 x1 y1 t2 x2 y2,
    shape o1 = text t1 x1 y1 /\ shape o2 = text t2 x2 y2
    /\ ((onPage o2 = onPage o1 /\ y2 = y1 + lh
         /\ y2 + lh <= pageHeight - MARGIN)%Q
        \/ (onPage o2 = S (onPage o1) /\ y2 = MARGIN
            /\ pageHeight - MARGIN < y1 + lh + lh)%Q).

(** A [ul] or [ol] element. *)
Definition isListNode (n : node) : bool :=
  match n with
  | ElementNode tag _ _ => isListTag tag
  | _ => false
  end.



(* ================================================================== *)
(** * Properties *)

Unset Implicit Arguments.

(** ** Strings *)

Lemma trimStart_nil (s : jsstring) :
  trimStart s = [] <-> forallb isWhiteSpace s = true.
Proof.
  induction s as [|c r IH]; simpl.
  - tauto.
  - destruct (isWhiteSpace c); simpl.
    + exact IH.
    + split; discriminate.
Qed.

Lemma trimStart_head (s : jsstring) :
  trimStart s = [] \/ exists c r, trimStart s = c :: r /\ isWhiteSpace c = false.
Proof.
  induction s as [|c r IH]; simpl.
  - now left.
  - destruct (isWhiteSpace c) eqn:E.
    + exact IH.
    + right. now exists c, r.
Qed.

Lemma forallb_rev {A} (p : A -> bool) (l : list A) :
  forallb p (rev l) = forallb p l.
Proof.
  induction l as [|a l IH]; simpl.
  - reflexivity.
  - rewrite forallb_app, IH. simpl. rewrite andb_true_r. apply andb_comm.
Qed.

Lemma rev_nil_inv {A} (l : list A) : rev l = [] -> l = [].
Proof.
  intros H. apply (f_equal (@rev A)) in H. now rewrite rev_involutive in H.
Qed.

(** [trim] leaves nothing exactly when the string is made of white space. *)
Lemma trim_nil (s : jsstring) :
  trim s = [] <-> forallb isWhiteSpace s = true.
Proof.
  unfold trim, trimEnd. split.
  - intros H. apply rev_nil_inv in H. apply trimStart_nil in H.
    rewrite forallb_rev in H.
    destruct (trimStart_head s) as [E | (c & r & E & Hc)].
    + now apply trimStart_nil.
    + rewrite E in H. simpl in H. now rewrite Hc in H.
  - intros H. apply trimStart_nil in H. rewrite H. reflexivity.
Qed.

Lemma truthy_true (s : jsstring) : truthy s = true <-> s <> [].
Proof. destruct s; simpl; split; congruence. Qed.

(** ** LaTeX normalizer *)

Lemma replaceSpans_outside (f : jsstring -> jsstring) (before rest : jsstring) :
  ~ In dollar before ->
  replaceSpans f None (before ++ rest) = before ++ replaceSpans f None rest.
Proof.
  induction before as [|c r IH]; intros H; cbn [replaceSpans app].
  - reflexivity.
  - destruct (N.eqb_spec c dollar) as [->|_].
    + exfalso. apply H. now left.
    + f_equal. apply IH. intros Hin. apply H. now right.
Qed.

Lemma replaceSpans_inside (f : jsstring -> jsstring) (latex run rest : jsstring) :
  ~ In dollar latex -> run ++ latex <> [] ->
  replaceSpans f (Some run) (latex ++ dollar :: rest)
  = f (run ++ latex) ++ replaceSpans f None rest.
Proof.
  revert run. induction latex as [|c r IH]; intros run H Hne;
    cbn [replaceSpans app].
  - rewrite app_nil_r in *. rewrite N.eqb_refl.
    destruct run; [congruence | reflexivity].
  - destruct (N.eqb_spec c dollar) as [->|_].
    + exfalso. apply H. now left.
    + rewrite IH.
      * now rewrite <- app_assoc.
      * intros Hin. apply H. now right.
      * destruct run; discriminate.
Qed.

(** A [$...$] span is replaced by what the callback returns for its inside. *)
Lemma convertLatexToUnicode_span (before latex rest : jsstring) :
  ~ In dollar before -> ~ In dollar latex -> latex <> [] ->
  convertLatexToUnicode (before ++ dollar :: latex ++ dollar :: rest)
  = before ++ convertSpan latex ++ convertLatexToUnicode rest.
Proof.
  intros Hb Hl Hne. unfold convertLatexToUnicode.
  rewrite replaceSpans_outside by assumption. f_equal.
  cbn [replaceSpans]. rewrite N.eqb_refl.
  now rewrite replaceSpans_inside.
Qed.

(** One entry of the table applied to the span [\alpha \to \beta] at any
    stage of the loop replaces its own macro, if it is one of the three, and
    nothing else. *)
Lemma entry_on_partlyReplaced (entry : string * string) (a t b : bool) :
  In entry LATEX_TO_UNICODE ->
  replaceAll (js (fst entry)) (js (snd entry)) (partlyReplaced a t b)
  = partlyReplaced (a || isEntry "\alpha" entry) (t || isEntry "\to" entry)
                   (b || isEntry "\beta" entry).
Proof.
  intros H.
  assert (C : forallb
                (fun e =>
                   forallb
                     (fun abt : bool * bool * bool =>
                        let '(a, t, b) := abt in
                        JsString.eqb
                          (replaceAll (js (fst e)) (js (snd e)) (partlyReplaced a t b))
                          (partlyReplaced (a || isEntry "\alpha" e)
                                          (t || isEntry "\to" e)
                                          (b || isEntry "\beta" e)))
                     [(false, false, false); (false, false, true);
                      (false, true, false); (false, true, true);
                      (true, false, false); (true, false, true);
                      (true, true, false); (true, true, true)])
                LATEX_TO_UNICODE = true) by (vm_compute; reflexivity).
  rewrite forallb_forall in C. specialize (C entry H).
  rewrite forallb_forall in C. specialize (C (a, t, b)).
  cbv beta iota in C. unfold JsString.eqb in C.
  destruct (list_eq_dec N.eq_dec _ _) as [E|E].
  - exact E.
  - exfalso. assert (F : false = true); [|discriminate F].
    apply C. destruct a, t, b; simpl; tauto.
Qed.

Lemma entries_on_partlyReplaced (table : list (string * string)) :
  incl table LATEX_TO_UNICODE ->
  forall a t b,
    substituteEntries table (partlyReplaced a t b)
    = partlyReplaced (a || existsb (isEntry "\alpha") table)
                     (t || existsb (isEntry "\to") table)
                     (b || existsb (isEntry "\beta") table).
Proof.
  unfold substituteEntries.
  induction table as [|e table IH]; intros Hin a t b; cbn [fold_left existsb].
  - now rewrite !orb_false_r.
  - rewrite entry_on_partlyReplaced by (apply Hin; now left).
    rewrite IH by (intros x Hx; apply Hin; now right).
    now rewrite !orb_assoc.
Qed.

(** C3: the normalizer turns [$\alpha \to \beta$] into [α → β]; the three
    macros are in the table, and the substitution loop gives the same result
    on the span whatever the order of the entries of the table is. *)
Theorem alpha_to_beta :
  In ("\alpha", "α") LATEX_TO_UNICODE /\ In ("\to", "→") LATEX_TO_UNICODE
  /\ In ("\beta", "β") LATEX_TO_UNICODE
  /\ convertLatexToUnicode (js "$\alpha \to \beta$") = js "α → β"
  /\ (forall s, substituteTable s = substituteEntries LATEX_TO_UNICODE s)
  /\ (forall table,
         Permutation LATEX_TO_UNICODE table ->
         substituteEntries table (js "\alpha \to \beta") = js "α → β").
Proof.
  assert (A : In ("\alpha", "α") LATEX_TO_UNICODE)
    by (unfold LATEX_TO_UNICODE; simpl; tauto).
  assert (T : In ("\to", "→") LATEX_TO_UNICODE)
    by (unfold LATEX_TO_UNICODE; simpl; tauto).
  assert (B : In ("\beta", "β") LATEX_TO_UNICODE)
    by (unfold LATEX_TO_UNICODE; simpl; tauto).
  repeat (split; [assumption|]). split; [vm_compute; reflexivity|].
  split; [reflexivity|].
  intros table P.
  change (js "\alpha \to \beta") with (partlyReplaced false false false).
  rewrite entries_on_partlyReplaced.
  - assert (E : forall macro glyph,
               In (macro, glyph) LATEX_TO_UNICODE ->
               existsb (isEntry macro) table = true).
    { intros macro glyph H. apply existsb_exists. exists (macro, glyph).
      split; [apply (Permutation_in _ P H) | apply String.eqb_refl]. }
    rewrite (E _ _ A), (E _ _ T), (E _ _ B). reflexivity.
  - intros e He. apply (Permutation_in _ (Permutation_sym P) He).
Qed.

Lemma alpha_to_beta_witness :
  substituteEntries (rev LATEX_TO_UNICODE) (js "\alpha \to \beta") = js "α → β".
Proof.
  apply alpha_to_beta. apply Permutation_rev.
Defined.

(** C8: when nothing is left of a span after the table substitutions, the
    removal of the remaining macros and braces and the final trim, the span
    is replaced by its captured text (the text between the dollars), as it
    was written. *)
Theorem empty_span_falls_back (before latex rest : jsstring) :
  ~ In dollar before -> ~ In dollar latex -> latex <> [] ->
  strippedSpan latex = [] ->
  convertSpan latex = latex
  /\ convertLatexToUnicode (before ++ dollar :: latex ++ dollar :: rest)
     = before ++ latex ++ convertLatexToUnicode rest.
Proof.
  intros Hb Hl Hne He.
  assert (Hc : convertSpan latex = latex).
  { unfold convertSpan. now rewrite He. }
  split; [exact Hc|].
  rewrite convertLatexToUnicode_span by assumption. now rewrite Hc.
Qed.

Lemma empty_span_falls_back_witness :
  convertSpan (js "\foo{}") = js "\foo{}"
  /\ convertLatexToUnicode (js "see $\foo{}$ here") = js "see \foo{} here".
Proof.
  apply (empty_span_falls_back (js "see ") (js "\foo{}") (js " here")).
  - vm_compute. intuition discriminate.
  - vm_compute. intuition discriminate.
  - discriminate.
  - vm_compute. reflexivity.
Defined.

(** ** Exporter *)

Section ExporterFacts.

Variable splitTextToSize : string -> string -> Q -> jsstring -> Q -> list jsstring.
Variable parseFirstElement : jsstring -> option node.
Variable exn : Type.
Variables remarkProcess sanitize : jsstring -> exn + jsstring.
Variable nowISO : jsstring.

Local Abbreviation downloadMarkdownAsPdf :=
  (downloadMarkdownAsPdf splitTextToSize parseFirstElement remarkProcess
                         sanitize nowISO).

(** C1: when the trimmed input is empty, that is when the input is empty or
    made of white space only, the exporter throws [EmptyMarkdownError] with
    the default message after its first log line and before the normalizer,
    remark, the sanitizer or the layout engine are called; when the trimmed
    input is not empty the exporter throws no [EmptyMarkdownError]. *)
Theorem empty_markdown_rejected_first (markdown filenamePrefix : jsstring) :
  (trim markdown = [] <-> forallb isWhiteSpace markdown = true)
  /\ (trim markdown = [] ->
      downloadMarkdownAsPdf markdown filenamePrefix
      = ([ConsoleLog exn "[PDF] Starting PDF generation..."],
         inl (EmptyMarkdownError exn defaultMessage)))
  /\ (trim markdown <> [] ->
      forall message,
        snd (downloadMarkdownAsPdf markdown filenamePrefix)
        <> inl (EmptyMarkdownError exn message)).
Proof.
  split; [apply trim_nil|]. split.
  - intros H. unfold downloadMarkdownAsPdf. now rewrite H.
  - intros H message. apply truthy_true in H.
    unfold downloadMarkdownAsPdf. rewrite H. simpl.
    unfold markdownToHtml.
    destruct (remarkProcess _); [simpl; discriminate|].
    destruct (sanitize _); simpl; discriminate.
Qed.

End ExporterFacts.

(** ** Layout engine: frame properties *)

(** The parent matters to [extractText] for a [code] element only. *)
Lemma extractText_parent (p q : option string) (depth : nat) (n : node) :
  hasTag "code" n = false -> extractText p depth n = extractText q depth n.
Proof.
  intros H. destruct n as [d|tag attrs cs|d]; try reflexivity.
  cbn [hasTag] in H. cbn [extractText]. now rewrite H.
Qed.

Lemma node_ind (P : node -> Prop) :
  (forall d, P (TextNode d)) ->
  (forall tag attrs cs, Forall P cs -> P (ElementNode tag attrs cs)) ->
  (forall d, P (CommentNode d)) ->
  forall n, P n.
Proof.
  intros HT HE HC. fix IH 1. intros [d|tag attrs cs|d].
  - apply HT.
  - apply HE. induction cs as [|c cs IHcs]; constructor.
    + apply IH.
    + exact IHcs.
  - apply HC.
Qed.

Lemma sameList_refl s : sameList s s.
Proof. now split. Qed.

Lemma sameList_trans s1 s2 s3 : sameList s1 s2 -> sameList s2 s3 -> sameList s1 s3.
Proof. intros [A B] [C D]. split; congruence. Qed.

Lemma docGrows_refl d : docGrows d d.
Proof. split; [|split]; auto. exists []. now rewrite app_nil_r. Qed.

Lemma docGrows_trans d1 d2 d3 : docGrows d1 d2 -> docGrows d2 d3 -> docGrows d1 d3.
Proof.
  intros (A & B & n1 & C) (D & E & n2 & F). split; [congruence|]. split; [lia|].
  exists (n1 ++ n2). now rewrite F, C, app_assoc.
Qed.

Lemma frame_refl s : frame s s.
Proof. split; [apply sameList_refl | apply docGrows_refl]. Qed.

Lemma frame_trans s1 s2 s3 : frame s1 s2 -> frame s2 s3 -> frame s1 s3.
Proof.
  intros [A B] [C D]. split.
  - eapply sameList_trans; eassumption.
  - eapply docGrows_trans; eassumption.
Qed.

Lemma frame_setY v s : frame s (setY v s).
Proof. split; [now split | apply docGrows_refl]. Qed.

Lemma frame_onDoc f s : (forall d, docGrows d (f d)) -> frame s (onDoc f s).
Proof. intros H. split; [now split | apply H]. Qed.

Lemma docGrows_withGs g d : docGrows d (withGs g d).
Proof. split; [|split]; simpl; auto. exists []. now rewrite app_nil_r. Qed.

Lemma docGrows_draw p d : docGrows d (draw p d).
Proof. split; [|split]; simpl; auto. eexists; reflexivity. Qed.

Lemma docGrows_addPage d : docGrows d (addPage d).
Proof. split; [|split]; simpl; auto. exists []. now rewrite app_nil_r. Qed.

Lemma docGrows_fold {A} (step : jsPDF -> A -> jsPDF) (l : list A) :
  (forall d a, docGrows d (step d a)) -> forall d, docGrows d (fold_left step l d).
Proof.
  intros H. induction l as [|a l IH]; intros d; simpl.
  - apply docGrows_refl.
  - eapply docGrows_trans; [apply H | apply IH].
Qed.

Lemma frame_fold {A} (step : state -> A -> state) (l : list A) :
  (forall s a, frame s (step s a)) -> forall s, frame s (fold_left step l s).
Proof.
  intros H. induction l as [|a l IH]; intros s; simpl.
  - apply frame_refl.
  - eapply frame_trans; [apply H | apply IH].
Qed.

Lemma frame_checkPageBreak H h s : frame s (checkPageBreak H h s).
Proof.
  unfold checkPageBreak. destruct (Qlt_le_dec _ _).
  - eapply frame_trans; [|apply frame_setY].
    apply frame_onDoc. apply docGrows_addPage.
  - apply frame_refl.
Qed.

Lemma frame_addSpace p s : frame s (addSpace p s).
Proof. apply frame_setY. Qed.

Lemma docGrows_setFontSize v d : docGrows d (setFontSize v d).
Proof. apply docGrows_withGs. Qed.

Lemma docGrows_setFont a b d : docGrows d (setFont a b d).
Proof. apply docGrows_withGs. Qed.

Lemma docGrows_setTextColor c d : docGrows d (setTextColor c d).
Proof. apply docGrows_withGs. Qed.

Lemma docGrows_setFillColor c d : docGrows d (setFillColor c d).
Proof. apply docGrows_withGs. Qed.

Lemma docGrows_setDrawColor c d : docGrows d (setDrawColor c d).
Proof. apply docGrows_withGs. Qed.

Lemma docGrows_setLineWidth w d : docGrows d (setLineWidth w d).
Proof. apply docGrows_withGs. Qed.

Create HintDb layout.

#[local] Hint Resolve frame_refl frame_setY frame_addSpace frame_checkPageBreak
  frame_onDoc docGrows_withGs docGrows_draw docGrows_addPage docGrows_refl
  docGrows_fold docGrows_setFontSize docGrows_setFont docGrows_setTextColor
  docGrows_setFillColor docGrows_setDrawColor docGrows_setLineWidth : layout.

(** Chains the frame steps of a handler written as a sequence of [let]s:
    the last step is split off and closed with the lemmas of the hint
    database; the body of a loop is left as a goal when they do not close
    it. *)
Ltac frame_steps :=
  repeat first
    [ apply frame_refl
    | match goal with
      | |- frame ?s (fold_left _ _ ?t) =>
          apply (@frame_trans s t); [|apply frame_fold; intros; auto with layout]
      | |- frame ?s (if ?b then _ else _) => destruct b
      | |- frame ?s (match ?b with _ => _ end) => destruct b
      | |- frame ?s (?f ?t) =>
          apply (@frame_trans s t); [|solve [auto with layout]]
      end ].

(** One unfolding of the walk. *)
Ltac step_processNode := cbn [processNode].
Ltac step_processRoot := cbn [processRoot].

Section LayoutFacts.

Variable splitTextToSize : string -> string -> Q -> jsstring -> Q -> list jsstring.
Variables pageWidth pageHeight : Q.

Local Abbreviation checkPageBreak := (checkPageBreak pageHeight).
Local Abbreviation renderLine := (renderLine pageHeight).
Local Abbreviation renderText := (renderText splitTextToSize pageWidth pageHeight).
Local Abbreviation heading := (heading splitTextToSize pageWidth pageHeight).
Local Abbreviation paragraph := (paragraph splitTextToSize pageWidth pageHeight).
Local Abbreviation blockquote := (blockquote splitTextToSize pageWidth pageHeight).
Local Abbreviation codeLine := (codeLine pageHeight).
Local Abbreviation pre := (pre pageWidth pageHeight).
Local Abbreviation tableCell := (tableCell splitTextToSize).
Local Abbreviation tableRow := (tableRow splitTextToSize pageWidth pageHeight).
Local Abbreviation table := (table splitTextToSize pageWidth pageHeight).
Local Abbreviation hr := (hr pageWidth pageHeight).
Local Abbreviation listItem := (listItem splitTextToSize pageWidth pageHeight).
Local Abbreviation processNode := (processNode splitTextToSize pageWidth pageHeight).
Local Abbreviation processRoot := (processRoot splitTextToSize pageWidth pageHeight).
Local Abbreviation contentWidth := (contentWidth pageWidth).

Lemma frame_renderLine lh x s l : frame s (renderLine lh x s l).
Proof. unfold renderLine. frame_steps. Qed.

#[local] Hint Resolve frame_renderLine : layout.

Lemma frame_renderText t size o s : frame s (renderText t size o s).
Proof. unfold renderText. frame_steps. Qed.

#[local] Hint Resolve frame_renderText : layout.

Lemma frame_heading parent n before size after s :
  frame s (heading parent n before size after s).
Proof. unfold heading. frame_steps. Qed.

Lemma frame_paragraph parent n s : frame s (paragraph parent n s).
Proof. unfold paragraph. frame_steps. Qed.

Lemma frame_blockquote parent n s : frame s (blockquote parent n s).
Proof. unfold blockquote. frame_steps. Qed.

Lemma frame_codeLine lh s l : frame s (codeLine lh s l).
Proof. unfold codeLine. frame_steps. Qed.

#[local] Hint Resolve frame_codeLine : layout.

Lemma frame_pre n s : frame s (pre n s).
Proof. unfold pre. frame_steps. Qed.

Lemma docGrows_tableCell b cw rh y0 d ic : docGrows d (tableCell b cw rh y0 d ic).
Proof.
  unfold tableCell.
  eapply docGrows_trans; [|apply docGrows_draw].
  eapply docGrows_trans; [|apply docGrows_setFont].
  apply docGrows_setFontSize.
Qed.

#[local] Hint Resolve docGrows_tableCell : layout.

Lemma frame_tableRow cols cw rh s row : frame s (tableRow cols cw rh s row).
Proof. unfold tableRow. frame_steps. Qed.

#[local] Hint Resolve frame_tableRow : layout.

Lemma frame_table n s : frame s (table n s).
Proof. unfold table. frame_steps. Qed.

Lemma frame_hr s : frame s (hr s).
Proof. unfold hr. frame_steps. Qed.

#[local] Hint Resolve frame_heading frame_paragraph frame_blockquote frame_pre
  frame_table frame_hr : layout.

(** ** Layout engine: list state *)

Lemma isListTag_classify t : isListTag t = true -> classify t = KList.
Proof.
  unfold isListTag. intros H. apply orb_true_iff in H.
  destruct H as [H|H]; apply String.eqb_eq in H; subst; reflexivity.
Qed.

Lemma incrementTop_snoc cs c : incrementTop (cs ++ [c]) = cs ++ [S c].
Proof.
  unfold incrementTop. destruct (cs ++ [c]) eqn:E.
  - destruct cs; discriminate.
  - rewrite <- E. now rewrite removelast_last, last_last.
Qed.

Lemma iter_incrementTop_snoc k cs c :
  Nat.iter k incrementTop (cs ++ [c]) = cs ++ [(c + k)%nat].
Proof.
  induction k as [|k IH]; simpl.
  - now rewrite Nat.add_0_r.
  - rewrite IH, incrementTop_snoc. do 2 f_equal. lia.
Qed.

Lemma iter_incrementTop_nil k : Nat.iter k incrementTop [] = [].
Proof. induction k as [|k IH]; simpl; [|rewrite IH]; reflexivity. Qed.

(** Either the stack is empty and stays so, or only its top grows. *)
Lemma iter_incrementTop_cases k cs :
  (cs = [] /\ Nat.iter k incrementTop cs = [])
  \/ exists base c, cs = base ++ [c]
                    /\ Nat.iter k incrementTop cs = base ++ [(c + k)%nat].
Proof.
  destruct cs as [|x cs'].
  - left. split; [reflexivity | apply iter_incrementTop_nil].
  - destruct (exists_last (l := x :: cs')) as (base & c & E); [discriminate|].
    right. exists base, c. split; [exact E|].
    rewrite E. apply iter_incrementTop_snoc.
Qed.

Lemma frame_listDepth s s' : frame s s' -> listDepth s' = listDepth s.
Proof. now intros [[A _] _]. Qed.

Lemma frame_listCounters s s' : frame s s' -> listCounters s' = listCounters s.
Proof. now intros [[_ A] _]. Qed.

Lemma listItem_list parent n s :
  listDepth (listItem parent n s) = listDepth s
  /\ listCounters (listItem parent n s) = incrementTop (listCounters s).
Proof.
  unfold listItem. destruct (truthy _).
  - split.
    + now rewrite (frame_listDepth _ _ (frame_renderText _ _ _ _)).
    + now rewrite (frame_listCounters _ _ (frame_renderText _ _ _ _)).
  - now split.
Qed.

Lemma exitList_list s :
  listDepth (exitList s) = (listDepth s - 1)%Z
  /\ listCounters (exitList s) = removelast (listCounters s).
Proof.
  unfold exitList. cbn [listDepth setList].
  destruct (_ =? 0)%Z; now split.
Qed.

(** The list state after a node, in terms of the list state before it. *)
Lemma processNode_list parent n : forall s,
  listDepth (processNode parent n s) = listDepth s
  /\ listCounters (processNode parent n s)
     = Nat.iter (bareItems n) incrementTop (listCounters s).
Proof.
  revert parent.
  induction n as [d|tag attrs cs IH|d] using node_ind; intros parent s;
    try (now split).
  step_processNode. cbn [bareItems].
  assert (Hwalk : forall p s0,
             listDepth (fold_left (fun s child => processNode p child s) cs s0)
             = listDepth s0
             /\ listCounters (fold_left (fun s child => processNode p child s) cs s0)
                = Nat.iter (list_sum (map bareItems cs)) incrementTop (listCounters s0)).
  { intros p. induction IH as [|c cs Hc _ IHcs]; intros s0; simpl.
    - now split.
    - destruct (IHcs (processNode p c s0)) as [A B].
      destruct (Hc p s0) as [C D].
      split; [congruence|].
      rewrite B, D, Nat.add_comm. now rewrite Nat.iter_add. }
  destruct (classify tag) eqn:K;
    try solve [split; [apply frame_listDepth | apply frame_listCounters];
               auto with layout].
  - (* ul, ol *)
    destruct (exitList_list
                (fold_left (fun s child => processNode (Some tag) child s) cs
                           (enterList s))) as [A B].
    destruct (Hwalk (Some tag) (enterList s)) as [C D].
    split.
    + rewrite A, C. cbn. lia.
    + rewrite B, D. cbn [enterList listCounters setList].
      now rewrite iter_incrementTop_snoc, removelast_last.
  - (* li *)
    destruct (listItem_list parent (ElementNode tag attrs cs) s) as [A B].
    change (Nat.iter 1 incrementTop (listCounters s))
      with (incrementTop (listCounters s)).
    rewrite <- A, <- B. generalize (listItem parent (ElementNode tag attrs cs) s).
    clear A B Hwalk. induction IH as [|c cs Hc _ IHcs]; intros s0; simpl.
    + now split.
    + destruct c as [d|ctag cattrs ccs|d]; try apply IHcs.
      destruct (isListTag ctag) eqn:L; [|apply IHcs].
      destruct (IHcs (processNode (Some tag) (ElementNode ctag cattrs ccs) s0))
        as [A B].
      destruct (Hc (Some tag) s0) as [C D].
      cbn [bareItems] in D. rewrite (isListTag_classify _ L) in D.
      cbn [Nat.iter nat_rect] in D. split; congruence.
  - (* other tags *)
    apply Hwalk.
Qed.

(** C10, as amended: after [processNode] returns, [listDepth] is what it was
    on entry and [listCounters] has the same length and the same entries
    below its top; the top entry has grown by the number of [li] elements
    visited outside a nested list (one for an [li], none for a [ul] or [ol],
    whose push and pop cancel, so that on a list the stack is exactly what
    it was on entry).  The length of [listCounters] equals [listDepth], which
    is therefore never negative, before and after every node, and after the
    whole walk both are what they were at the start: zero and empty. *)
Theorem list_state_balanced :
  (forall parent n s,
      let s' := processNode parent n s in
      listDepth s' = listDepth s
      /\ listCounters s' = Nat.iter (bareItems n) incrementTop (listCounters s)
      /\ List.length (listCounters s') = List.length (listCounters s)
      /\ removelast (listCounters s') = removelast (listCounters s)
      /\ (last (listCounters s) O <= last (listCounters s') O)%nat
      /\ (hasTag "ul" n || hasTag "ol" n = true ->
          listCounters s' = listCounters s)
      /\ (listInvariant s -> listInvariant s' /\ (0 <= listDepth s')%Z))
  /\ (forall root d,
         let final := processRoot root (initialState d) in
         listDepth final = 0%Z /\ listCounters final = []).
Proof.
  split.
  - intros parent n s s'. subst s'.
    destruct (processNode_list parent n s) as [A B].
    split; [exact A|]. split; [exact B|].
    assert (L : List.length (listCounters (processNode parent n s))
                = List.length (listCounters s)
                /\ removelast (listCounters (processNode parent n s))
                   = removelast (listCounters s)
                /\ (last (listCounters s) O
                    <= last (listCounters (processNode parent n s)) O)%nat).
    { rewrite B.
      destruct (iter_incrementTop_cases (bareItems n) (listCounters s))
        as [[E1 E2] | (base & c & E1 & E2)]; rewrite E2, E1.
      - repeat split; auto.
      - rewrite !length_app, !removelast_last, !last_last. repeat split; lia. }
    destruct L as (L1 & L2 & L3).
    repeat split; auto.
    + intros Hl. rewrite B.
      destruct n as [d|tag attrs cs|d]; try discriminate.
      cbn [bareItems]. rewrite isListTag_classify; [reflexivity|exact Hl].
    + unfold listInvariant in *. congruence.
    + unfold listInvariant in *. rewrite A. lia.
  - intros root d final. subst final.
    destruct root as [t|tag attrs cs|t]; try (now split).
    step_processRoot.
    generalize (initialState d) (eq_refl : listDepth (initialState d) = 0%Z)
               (eq_refl : listCounters (initialState d) = []).
    induction cs as [|c cs IH]; intros s0 H0 H1; simpl.
    + now split.
    + apply IH.
      * now rewrite (proj1 (processNode_list (Some tag) c s0)).
      * rewrite (proj2 (processNode_list (Some tag) c s0)), H1.
        apply iter_incrementTop_nil.
Qed.

(** ** Layout engine: the cursor and the printable band *)

(** There is room for one line of the largest font between the margins. *)
Hypothesis page_tall : MARGIN * 2 + getLineHeight FONT_SIZE.H1 <= pageHeight.

Lemma page_room : MARGIN * 2 + 33.6 <= pageHeight.
Proof.
  generalize page_tall. unfold getLineHeight, FONT_SIZE.H1, MARGIN. lra.
Qed.

Lemma checkPageBreak_spec h s :
  let s' := checkPageBreak h s in
  (pageHeight - MARGIN < y s + h ->
   s' = setY MARGIN (onDoc addPage s))
  /\ (y s + h <= pageHeight - MARGIN -> s' = s).
Proof.
  unfold checkPageBreak. destruct (Qlt_le_dec _ _) as [L|L]; split; intros H;
    try reflexivity; exfalso; lra.
Qed.

Lemma checkPageBreak_margin h s :
  MARGIN <= y s -> MARGIN <= y (checkPageBreak h s).
Proof.
  intros Hy. unfold checkPageBreak.
  destruct (Qlt_le_dec _ _) as [L|L]; cbn [y setY onDoc]; lra.
Qed.

Lemma checkPageBreak_fits h s :
  h <= pageHeight - MARGIN * 2 -> MARGIN <= y s ->
  MARGIN <= y (checkPageBreak h s)
  /\ y (checkPageBreak h s) + h <= pageHeight - MARGIN.
Proof.
  intros Hh Hy. unfold checkPageBreak.
  destruct (Qlt_le_dec _ _) as [L|L]; cbn [y setY onDoc]; split;
    unfold MARGIN in *; lra.
Qed.

Lemma good_checkPageBreak h s : good pageHeight s -> good pageHeight (checkPageBreak h s).
Proof.
  intros [Hy Ho]. unfold checkPageBreak.
  destruct (Qlt_le_dec _ _); split; cbn; auto. lra.
Qed.

Lemma good_setY v s : MARGIN <= v -> good pageHeight s -> good pageHeight (setY v s).
Proof. intros Hv [_ Ho]. now split. Qed.

Lemma good_addSpace p s : 0 <= p -> good pageHeight s -> good pageHeight (addSpace p s).
Proof.
  intros Hp [Hy Ho]. apply good_setY; [lra | now split].
Qed.

Lemma good_onDoc f s :
  out (f (doc s)) = out (doc s) -> good pageHeight s -> good pageHeight (onDoc f s).
Proof. intros E [Hy Ho]. split; cbn; [exact Hy | now rewrite E]. Qed.

Lemma good_draw p s :
  placed pageHeight (mkDrawn (numPages (doc s)) (gs (doc s)) p) ->
  good pageHeight s -> good pageHeight (onDoc (draw p) s).
Proof.
  intros Hp [Hy Ho]. split; cbn; [exact Hy|].
  apply Forall_app. split; [exact Ho | now constructor].
Qed.

Lemma good_fold {A} (step : state -> A -> state) (l : list A) :
  (forall s a, In a l -> good pageHeight s -> good pageHeight (step s a)) ->
  forall s, good pageHeight s -> good pageHeight (fold_left step l s).
Proof.
  induction l as [|a l IH]; intros H s Hs; simpl.
  - exact Hs.
  - apply IH.
    + intros s0 b Hb. apply H. now right.
    + apply H; [now left | exact Hs].
Qed.

(** A line of height [lh] drawn after its own page-break check. *)
Lemma good_checked_text lh t x s :
  0 <= lh -> lh <= pageHeight - MARGIN * 2 -> good pageHeight s ->
  good pageHeight
       (onDoc (draw (text t x (y (checkPageBreak lh s)))) (checkPageBreak lh s)).
Proof.
  intros H0 H1 Hs.
  destruct (checkPageBreak_fits lh s H1 (proj1 Hs)) as [A B].
  apply good_draw; [|now apply good_checkPageBreak].
  unfold placed, inRange. cbn [shape]. split; lra.
Qed.

Lemma good_renderLine lh x s l :
  0 <= lh -> lh <= pageHeight - MARGIN * 2 ->
  good pageHeight s -> good pageHeight (renderLine lh x s l).
Proof.
  intros H0 H1 Hs. unfold renderLine.
  destruct (checkPageBreak_fits lh s H1 (proj1 Hs)) as [A B].
  apply good_setY; [cbn [y onDoc]; lra|].
  now apply good_checked_text.
Qed.

Lemma good_renderText t size o s :
  0 <= size -> size <= 24 ->
  good pageHeight s -> good pageHeight (renderText t size o s).
Proof.
  intros H0 H1 Hs. unfold renderText.
  assert (L0 : 0 <= getLineHeight size) by (unfold getLineHeight; lra).
  assert (L1 : getLineHeight size <= pageHeight - MARGIN * 2)
    by (generalize page_room; unfold getLineHeight; lra).
  apply good_onDoc; [reflexivity|].
  apply good_fold; [intros; now apply good_renderLine|].
  destruct (truthy (prefix o)).
  - apply good_checked_text; auto.
  - exact Hs.
Qed.

Lemma good_heading parent n before size after s :
  0 <= before -> 0 <= after -> 0 <= size -> size <= 24 ->
  good pageHeight s -> good pageHeight (heading parent n before size after s).
Proof.
  intros. unfold heading. apply good_addSpace; [assumption|].
  destruct (truthy _).
  - apply good_renderText; auto. now apply good_addSpace.
  - now apply good_addSpace.
Qed.

Lemma good_paragraph parent n s :
  good pageHeight s -> good pageHeight (paragraph parent n s).
Proof.
  intros. unfold paragraph. destruct (truthy _); [|assumption].
  apply good_addSpace; [lra|].
  apply good_renderText; auto; unfold FONT_SIZE.BODY; lra.
Qed.

Lemma good_blockquote parent n s :
  good pageHeight s -> good pageHeight (blockquote parent n s).
Proof.
  intros. unfold blockquote. destruct (truthy _); [|assumption].
  apply good_addSpace; [lra|].
  apply good_draw; [now left|].
  repeat (apply good_onDoc; [reflexivity|]).
  apply good_renderText; try (unfold FONT_SIZE.BODY; lra).
  apply good_addSpace; [lra | assumption].
Qed.

Lemma good_codeLine s l :
  good pageHeight s ->
  good pageHeight (codeLine (getLineHeight FONT_SIZE.CODE) s l).
Proof.
  intros Hs. unfold codeLine.
  assert (L0 : 0 <= getLineHeight FONT_SIZE.CODE)
    by (unfold getLineHeight, FONT_SIZE.CODE; lra).
  assert (L1 : getLineHeight FONT_SIZE.CODE <= pageHeight - MARGIN * 2)
    by (generalize page_room; unfold getLineHeight, FONT_SIZE.CODE; lra).
  destruct (checkPageBreak_fits _ s L1 (proj1 Hs)) as [A B].
  apply good_setY; [cbn [y onDoc]; lra|].
  now apply good_checked_text.
Qed.

Lemma good_pre n s : good pageHeight s -> good pageHeight (pre n s).
Proof.
  intros Hs. unfold pre. destruct (truthy _); [|assumption].
  apply good_addSpace; [lra|].
  match goal with |- good _ (setY _ ?x) => assert (G : good pageHeight x) end.
  { apply good_fold; [intros; now apply good_codeLine|].
    match goal with |- good _ (setY _ ?x) => assert (G : good pageHeight x) end.
    { repeat (apply good_onDoc; [reflexivity|]).
      apply good_draw; [exact I|]. apply good_onDoc; [reflexivity|].
      apply good_checkPageBreak. apply good_addSpace; [lra | assumption]. }
    apply good_setY; [destruct G; lra | exact G]. }
  apply good_setY; [destruct G; lra | exact G].
Qed.

Lemma good_onDoc_shapes f s :
  (Forall (placed pageHeight) (out (doc s)) ->
   Forall (placed pageHeight) (out (f (doc s)))) ->
  good pageHeight s -> good pageHeight (onDoc f s).
Proof. intros H [Hy Ho]. split; cbn; auto. Qed.

Lemma placed_fold {A} (step : jsPDF -> A -> jsPDF) (l : list A) :
  (forall d a, Forall (placed pageHeight) (out d) ->
               Forall (placed pageHeight) (out (step d a))) ->
  forall d, Forall (placed pageHeight) (out d) ->
            Forall (placed pageHeight) (out (fold_left step l d)).
Proof.
  intros H. induction l as [|a l IH]; intros d Hd; simpl; auto.
Qed.

Lemma placed_draw p d :
  placed pageHeight (mkDrawn (numPages d) (gs d) p) ->
  Forall (placed pageHeight) (out d) ->
  Forall (placed pageHeight) (out (draw p d)).
Proof.
  intros Hp Hd. cbn. apply Forall_app. split; [exact Hd | now constructor].
Qed.

Lemma good_tableRow cols cw rh s row :
  6 <= rh -> rh <= pageHeight - MARGIN * 2 ->
  good pageHeight s -> good pageHeight (tableRow cols cw rh s row).
Proof.
  intros R0 R1 Hs. unfold tableRow.
  destruct (checkPageBreak_fits rh s R1 (proj1 Hs)) as [A B].
  pose proof (good_checkPageBreak rh s Hs) as G1.
  set (s1 := checkPageBreak rh s) in *.
  set (isHeader := match querySelector (hasTag "th") row with
                   | Some _ => true
                   | None => false
                   end).
  set (s2 := if isHeader then _ else s1).
  assert (Y2 : y s2 = y s1) by (subst s2; now destruct isHeader).
  assert (G2 : good pageHeight s2).
  { subst s2. destruct isHeader; [|exact G1].
    apply good_draw; [|now apply good_onDoc].
    unfold placed, inRange. cbn [shape y onDoc]. lra. }
  apply good_setY; [cbn [y onDoc]; rewrite Y2; lra|].
  apply good_onDoc_shapes.
  { apply placed_fold. intros d i Hd. apply placed_draw; [|exact Hd].
    right. unfold inRange. cbn [y onDoc]. rewrite Y2. lra. }
  apply good_draw.
  { unfold placed, inRange. cbn [shape y onDoc]. rewrite Y2. lra. }
  repeat (apply good_onDoc; [reflexivity|]).
  apply good_onDoc_shapes; [|exact G2].
  apply placed_fold. intros d ic Hd. unfold tableCell.
  apply placed_draw; [|exact Hd].
  unfold placed, inRange. cbn [shape]. rewrite Y2.
  change (rh / 2) with (rh * (1 # 2)). lra.
Qed.

Lemma good_table n s : good pageHeight s -> good pageHeight (table n s).
Proof.
  intros Hs. unfold table.
  destruct (querySelectorAll (hasTag "tr") n) as [|row0 rows] eqn:E.
  - apply good_addSpace; [lra | exact Hs].
  - apply good_addSpace; [lra|].
    apply good_fold.
    + intros. apply good_tableRow; auto;
        generalize page_room; unfold getLineHeight, FONT_SIZE.BODY; lra.
    + apply good_addSpace; [lra | exact Hs].
Qed.

Lemma good_hr s : good pageHeight s -> good pageHeight (hr s).
Proof.
  intros Hs. unfold hr.
  assert (G0 : good pageHeight (addSpace 15 s)) by (apply good_addSpace; [lra | exact Hs]).
  assert (H5 : 5 <= pageHeight - MARGIN * 2) by (generalize page_room; lra).
  destruct (checkPageBreak_fits 5 _ H5 (proj1 G0)) as [A B].
  apply good_addSpace; [lra|].
  apply good_draw; [|now apply good_checkPageBreak].
  right. unfold inRange. cbn [y onDoc]. lra.
Qed.

Lemma good_enterList s : good pageHeight s -> good pageHeight (enterList s).
Proof. intros [A B]. now split. Qed.

Lemma good_exitList s : good pageHeight s -> good pageHeight (exitList s).
Proof.
  intros [A B]. unfold exitList. destruct (_ =? 0)%Z.
  - apply good_addSpace; [lra | now split].
  - now split.
Qed.

Lemma good_listItem parent n s :
  good pageHeight s -> good pageHeight (listItem parent n s).
Proof.
  intros [A B]. unfold listItem. destruct (truthy _).
  - apply good_renderText; try (unfold FONT_SIZE.BODY; lra). now split.
  - now split.
Qed.

Lemma good_processNode parent n : forall s,
  good pageHeight s -> good pageHeight (processNode parent n s).
Proof.
  revert parent.
  induction n as [d|tag attrs cs IH|d] using node_ind; intros parent s Hs;
    try exact Hs.
  step_processNode. rewrite Forall_forall in IH.
  destruct (classify tag).
  - apply good_heading; auto; unfold FONT_SIZE.H1; lra.
  - apply good_heading; auto; unfold FONT_SIZE.H2; lra.
  - apply good_heading; auto; unfold FONT_SIZE.H3; lra.
  - apply good_heading; auto; unfold FONT_SIZE.H4; lra.
  - now apply good_paragraph.
  - apply good_exitList. apply good_fold; [|now apply good_enterList].
    intros s0 c Hc. now apply IH.
  - apply good_fold; [|now apply good_listItem].
    intros s0 c Hc G. destruct c as [t|ctag cattrs ccs|t]; auto.
    destruct (isListTag ctag); auto.
  - now apply good_blockquote.
  - now apply good_pre.
  - now apply good_table.
  - now apply good_hr.
  - apply good_fold; [|exact Hs]. intros s0 c Hc. now apply IH.
Qed.

Lemma good_processRoot root s :
  good pageHeight s -> good pageHeight (processRoot root s).
Proof.
  intros Hs. destruct root as [t|tag attrs cs|t]; try exact Hs.
  step_processRoot. apply good_fold; [|exact Hs].
  intros. now apply good_processNode.
Qed.

(** ** Code blocks *)

Lemma ofNat_S n : ofNat (S n) == ofNat n + 1.
Proof.
  unfold ofNat. rewrite Nat2Z.inj_succ, <- Z.add_1_r, inject_Z_plus. reflexivity.
Qed.

Lemma frame_pages s s' : frame s s' -> (numPages (doc s) <= numPages (doc s'))%nat.
Proof. now intros [_ (_ & A & _)]. Qed.

Lemma out_checkPageBreak h s : out (doc (checkPageBreak h s)) = out (doc s).
Proof. unfold checkPageBreak. now destruct (Qlt_le_dec _ _). Qed.

Lemma gs_checkPageBreak h s : gs (doc (checkPageBreak h s)) = gs (doc s).
Proof. unfold checkPageBreak. now destruct (Qlt_le_dec _ _). Qed.

Lemma codeLines_drawn lh :
  0 <= lh -> lh <= pageHeight - MARGIN * 2 -> forall lines s,
  MARGIN <= y s ->
  exists new,
    out (doc (fold_left (codeLine lh) lines s)) = out (doc s) ++ new
    /\ Forall2 (codeLineDrawn pageHeight lh) new lines.
Proof.
  intros L0 L1. induction lines as [|l lines IH]; intros s Hy; simpl.
  - exists []. split; [now rewrite app_nil_r | constructor].
  - destruct (checkPageBreak_fits lh s L1 Hy) as [A B].
    destruct (IH (codeLine lh s l)) as (new & E & F).
    { unfold codeLine. cbn [y setY onDoc]. lra. }
    eexists (_ :: new). split.
    + rewrite E. unfold codeLine at 1. cbn [out doc setY onDoc draw].
      rewrite out_checkPageBreak, <- app_assoc. reflexivity.
    + constructor; [|exact F].
      eexists. split; [reflexivity|]. split; assumption.
Qed.

(** Either a page was added while the lines were drawn, or the cursor went
    down by one line height per line and the last line fitted. *)
Lemma codeLines_pages lh : forall lines s,
  let s' := fold_left (codeLine lh) lines s in
  (numPages (doc s) < numPages (doc s'))%nat
  \/ (y s' == y s + ofNat (List.length lines) * lh
      /\ (lines <> [] -> y s' <= pageHeight - MARGIN)).
Proof.
  induction lines as [|l lines IH]; intros s; simpl.
  - right. split; [|congruence].
    change (ofNat 0) with 0. lra.
  - assert (M : (numPages (doc (codeLine lh s l))
                 <= numPages (doc (fold_left (codeLine lh) lines (codeLine lh s l))))%nat).
    { apply frame_pages. apply frame_fold. intros. apply frame_codeLine. }
    destruct (checkPageBreak_spec lh s) as [Brk Stay].
    destruct (Qlt_le_dec (pageHeight - MARGIN) (y s + lh)) as [C|C].
    + left. specialize (Brk C).
      assert (N : numPages (doc (codeLine lh s l)) = S (numPages (doc s))).
      { unfold codeLine. rewrite Brk. reflexivity. }
      lia.
    + specialize (Stay C).
      assert (N : numPages (doc (codeLine lh s l)) = numPages (doc s)
                  /\ y (codeLine lh s l) = y s + lh).
      { unfold codeLine. rewrite Stay. now split. }
      destruct N as [N1 N2].
      destruct (IH (codeLine lh s l)) as [P|[P1 P2]].
      * left. lia.
      * right. split.
        -- rewrite P1, N2. change (List.length (l :: lines)) with (S (List.length lines)).
           rewrite ofNat_S. lra.
        -- intros _. destruct lines as [|l' lines'].
           ++ change (y (codeLine lh s l) <= pageHeight - MARGIN).
              rewrite N2. exact C.
           ++ apply P2. discriminate.
Qed.

Lemma splitLines_nonempty cur t : splitLines cur t <> [].
Proof.
  revert cur. induction t as [|c r IH]; intros cur; simpl.
  - discriminate.
  - destruct (c =? newline)%N; [discriminate | apply IH].
Qed.

(** C5: on a page with room for one line of code between its margins, a
    code block draws its background and then one text run per literal line,
    in order; each line is drawn after its own page-break check, on a line
    that lies between the margins of the page it is drawn on, so no line of
    code is cut by a page boundary; and when the lines do not fit between
    the cursor and the bottom margin, at least one page is added while the
    block is drawn. *)
Theorem code_lines_checked_one_by_one (n : node) (s : state) :
  MARGIN * 2 + getLineHeight FONT_SIZE.CODE <= pageHeight ->
  MARGIN <= y s ->
  trim (textContent n) <> [] ->
  let lines := splitLines [] (trim (textContent n)) in
  let lineHeight := getLineHeight FONT_SIZE.CODE in
  exists background new,
    out (doc (pre n s)) = out (doc s) ++ background :: new
    /\ (exists top,
           shape background
           = roundedRect MARGIN top contentWidth
                         (ofNat (List.length lines) * lineHeight + 20) 4 4 "F")
    /\ Forall2 (codeLineDrawn pageHeight lineHeight) new lines
    /\ (pageHeight - MARGIN < y s + 8 + 10 + ofNat (List.length lines) * lineHeight ->
        (numPages (doc s) < numPages (doc (pre n s)))%nat).
Proof.
  intros Hroom Hy Hcode lines lineHeight.
  assert (L0 : 0 <= lineHeight) by (unfold lineHeight, getLineHeight, FONT_SIZE.CODE; lra).
  assert (L1 : lineHeight <= pageHeight - MARGIN * 2) by (unfold lineHeight; lra).
  unfold pre. apply truthy_true in Hcode. rewrite Hcode.
  fold lines. fold lineHeight.
  set (blockHeight := ofNat (List.length lines) * lineHeight + 20).
  set (needed := if Qle_bool blockHeight 100 then blockHeight else 100).
  set (s1 := checkPageBreak needed (addSpace 8 s)).
  assert (Hy0 : MARGIN <= y (addSpace 8 s)) by (cbn; lra).
  pose proof (checkPageBreak_margin needed _ Hy0) as A. fold s1 in A.
  set (s3 := setY _ (onDoc (setFontSize _) _)).
  assert (Y31 : y s3 = y s1 + 10) by reflexivity.
  assert (Hy3 : MARGIN <= y s3) by (rewrite Y31; lra).
  destruct (codeLines_drawn lineHeight L0 L1 lines s3 Hy3) as (new & E & F).
  eexists _, new. repeat split.
  - cbn [out doc setY addSpace]. rewrite E. subst s3.
    cbn [out doc setY onDoc draw setFontSize setFont setFillColor withGs].
    rewrite <- app_assoc. cbn [app]. f_equal.
    subst s1. rewrite out_checkPageBreak. reflexivity.
  - eexists. reflexivity.
  - exact F.
  - intros Hfit. cbn [numPages doc setY addSpace].
    assert (P3 : numPages (doc s3) = numPages (doc s1)) by reflexivity.
    assert (M1 : (numPages (doc s) <= numPages (doc s1))%nat).
    { apply (frame_pages s s1). subst s1.
      eapply frame_trans; [apply frame_addSpace | apply frame_checkPageBreak]. }
    destruct (codeLines_pages lineHeight lines s3) as [P|[P1 P2]]; [lia|].
    destruct (checkPageBreak_spec needed (addSpace 8 s)) as [Brk Stay].
    fold s1 in Brk, Stay.
    destruct (Qlt_le_dec (pageHeight - MARGIN) (y (addSpace 8 s) + needed)) as [C|C].
    + specialize (Brk C).
      assert (N : numPages (doc s1) = S (numPages (doc s))) by (rewrite Brk; reflexivity).
      assert (M3 : (numPages (doc s3)
                    <= numPages (doc (fold_left (codeLine lineHeight) lines s3)))%nat).
      { apply frame_pages. apply frame_fold. intros. apply frame_codeLine. }
      lia.
    + exfalso. specialize (Stay C).
      specialize (P2 (splitLines_nonempty _ _)).
      assert (Y3 : y s3 = y s + 8 + 10) by (rewrite Y31, Stay; reflexivity).
      rewrite P1, Y3 in P2. lra.
Qed.

(** ** Tables *)

Lemma hd_error_filter_existsb {A} (p : A -> bool) (l : list A) :
  match hd_error (filter p l) with
  | Some _ => true
  | None => false
  end = existsb p l.
Proof.
  induction l as [|a l IH]; simpl; [reflexivity|].
  destruct (p a); simpl; [reflexivity | exact IH].
Qed.

Lemma tableCells_out b cw rh top : forall l d,
  exists new,
    out (fold_left (tableCell b cw rh top) l d) = out d ++ new
    /\ map shape new = map (cellRun splitTextToSize b cw rh top) l
    /\ Forall (rowPen b) new
    /\ fillColor (gs (fold_left (tableCell b cw rh top) l d)) = fillColor (gs d).
Proof.
  induction l as [|ic l IH]; intros d; cbn [fold_left].
  - exists []. repeat split; [now rewrite app_nil_r | constructor].
  - destruct (IH (tableCell b cw rh top d ic)) as (new & E & F & G & C).
    eexists (_ :: new). repeat split.
    + rewrite E. unfold tableCell at 1. cbn [out draw]. rewrite <- app_assoc.
      reflexivity.
    + cbn [map]. rewrite F. f_equal.
    + constructor; [|exact G]. repeat split.
    + rewrite C. reflexivity.
Qed.

Lemma strokes_out (f : nat -> prim) : forall l d,
  out (fold_left (fun d i => draw (f i) d) l d)
  = out d ++ map (fun i => mkDrawn (numPages d) (gs d) (f i)) l.
Proof.
  induction l as [|i l IH]; intros d; cbn [fold_left map].
  - now rewrite app_nil_r.
  - rewrite IH. cbn [out draw numPages gs]. now rewrite <- app_assoc.
Qed.

(** C6: the table case lays the rows out one after the other with a column
    width of the content width divided by the number of cells of the first
    row (by one when the first row has no cell).  A row draws the shapes of
    [rowShapes]: when it contains a [th], a filled background, in light
    grey, and its text in bold; for each cell the first line only of its
    wrapped text, in the column of the cell's index; then the border and
    the strokes between the columns. *)
Theorem table_rows_rendering :
  (forall n s row0 rows,
      querySelectorAll (hasTag "tr") n = row0 :: rows ->
      let count := List.length (querySelectorAll isCell row0) in
      let cols := if (count =? 0)%nat then 1%nat else count in
      table n s
      = addSpace 10
          (fold_left (tableRow cols (contentWidth / ofNat cols)
                               (getLineHeight FONT_SIZE.BODY + 12))
                     (row0 :: rows) (addSpace 10 s)))
  /\ (forall cols colWidth rowHeight s row,
         let top := y (checkPageBreak rowHeight s) in
         let isHeader := existsb (hasTag "th") (descendants row) in
         exists new,
           out (doc (tableRow cols colWidth rowHeight s row)) = out (doc s) ++ new
           /\ map shape new
              = rowShapes splitTextToSize pageWidth isHeader cols colWidth rowHeight
                          top (querySelectorAll isCell row)
           /\ Forall (rowPen isHeader) new
           /\ y (tableRow cols colWidth rowHeight s row) = top + rowHeight).
Proof.
  split.
  - intros n s row0 rows E count cols. unfold table. rewrite E.
    assert (C : columnCount row0 = cols).
    { unfold columnCount, cols, count.
      now destruct (List.length (querySelectorAll isCell row0)). }
    rewrite C. reflexivity.
  - intros cols colWidth rowHeight s row top isHeader.
    unfold tableRow, querySelector, querySelectorAll.
    rewrite hd_error_filter_existsb. fold isHeader.
    set (s1 := checkPageBreak rowHeight s).
    set (cells := filter isCell (descendants row)).
    set (s2 := if isHeader then _ else s1).
    assert (Y2 : y s2 = top) by (subst s2 top; now destruct isHeader).
    assert (O2 : exists hdr,
               out (doc s2) = out (doc s) ++ hdr
               /\ map shape hdr
                  = (if isHeader
                     then [rect MARGIN top contentWidth rowHeight (Some "F")]
                     else [])
               /\ Forall (rowPen isHeader) hdr).
    { subst s2. destruct isHeader.
      - eexists [_]. repeat split.
        + cbn [out doc onDoc draw setFillColor withGs]. subst s1.
          now rewrite out_checkPageBreak.
        + reflexivity.
        + constructor; [reflexivity | constructor].
      - exists []. subst s1. rewrite out_checkPageBreak, app_nil_r.
        repeat split. constructor. }
    destruct O2 as (hdr & O2 & S2 & P2).
    destruct (tableCells_out isHeader colWidth rowHeight (y s2)
                (combine (seq 0 (List.length cells)) cells) (doc s2))
      as (cellsNew & O3 & S3 & P3 & _).
    eexists (hdr ++ cellsNew ++ _ :: _). repeat split.
    + cbn [out doc setY onDoc]. rewrite strokes_out.
      cbn [out draw setLineWidth setDrawColor withGs numPages gs].
      rewrite O3, O2. rewrite <- !app_assoc. reflexivity.
    + rewrite !map_app. cbn [map shape]. rewrite map_map. cbn [shape].
      unfold rowShapes. rewrite S2, S3. cbn [y onDoc]. rewrite Y2.
      reflexivity.
    + apply Forall_app. split; [exact P2|].
      apply Forall_app. split; [exact P3|].
      constructor; [exact I|].
      apply Forall_forall. intros o Ho. apply in_map_iff in Ho.
      destruct Ho as (i & <- & _). exact I.
    + cbn [y setY onDoc]. now rewrite Y2.
Qed.

(** ** Lists *)

Lemma grows_fold {A} (step : state -> A -> state) (l : list A) :
  (forall s a, In a l -> grows s (step s a)) ->
  forall s, grows s (fold_left step l s).
Proof.
  induction l as [|a l IH]; intros H s; simpl.
  - apply docGrows_refl.
  - eapply docGrows_trans.
    + apply (H s a). now left.
    + apply IH. intros s0 b Hb. apply H. now right.
Qed.

Lemma frame_grows s s' : frame s s' -> grows s s'.
Proof. now intros [_ A]. Qed.

Lemma grows_exitList s : grows s (exitList s).
Proof.
  unfold exitList, grows.
  match goal with |- context [if ?b then _ else _] => destruct b end;
    apply docGrows_refl.
Qed.

Lemma grows_listItem parent n s : grows s (listItem parent n s).
Proof.
  unfold listItem.
  match goal with |- context [if ?b then _ else _] => destruct b end.
  - apply (frame_grows _ _ (frame_renderText _ _ _
                              (setList (listDepth s) (incrementTop (listCounters s)) s))).
  - apply docGrows_refl.
Qed.

Lemma grows_processNode parent n : forall s, grows s (processNode parent n s).
Proof.
  revert parent.
  induction n as [d|tag attrs cs IH|d] using node_ind; intros parent s;
    try apply docGrows_refl.
  step_processNode. rewrite Forall_forall in IH.
  destruct (classify tag);
    try solve [apply frame_grows; auto with layout].
  - (* ul, ol *)
    unfold grows.
    eapply docGrows_trans; [|apply grows_exitList].
    apply (grows_fold (fun s child => processNode (Some tag) child s) cs
             (fun s0 c Hc => IH c Hc (Some tag) s0) (enterList s)).
  - (* li *)
    eapply docGrows_trans.
    + apply grows_listItem.
    + apply grows_fold. intros s0 c Hc.
      destruct c as [t|ctag cattrs ccs|t]; try apply docGrows_refl.
      destruct (isListTag ctag); [now apply IH | apply docGrows_refl].
  - apply grows_fold. intros s0 c Hc. now apply IH.
Qed.

Lemma renderLines_out lh x : forall lines s,
  exists new,
    out (doc (fold_left (renderLine lh x) lines s)) = out (doc s) ++ new
    /\ Forall2 (fun o l => exists baseline, shape o = text l x baseline) new lines.
Proof.
  induction lines as [|l lines IH]; intros s; cbn [fold_left].
  - exists []. split; [now rewrite app_nil_r | constructor].
  - destruct (IH (renderLine lh x s l)) as (new & E & F).
    eexists (_ :: new). split.
    + rewrite E. unfold renderLine at 1. cbn [out doc setY onDoc draw].
      rewrite out_checkPageBreak, <- app_assoc. reflexivity.
    + constructor; [|exact F]. eexists. reflexivity.
Qed.

(** What [renderText] draws when it is given a prefix: the prefix at the
    indent, then the wrapped lines fifteen points further right. *)
Lemma renderText_prefixed_out t size o s :
  prefix o <> [] ->
  exists pfx new,
    out (doc (renderText t size o s)) = out (doc s) ++ pfx :: new
    /\ (exists baseline, shape pfx = text (prefix o) (MARGIN + indent o) baseline)
    /\ Forall2 (fun d l => exists baseline,
                    shape d = text l (MARGIN + indent o + 15) baseline)
               new
               (splitTextToSize "helvetica"
                  (if bold o then (if italic o then "bolditalic" else "bold")
                   else (if italic o then "italic" else "normal"))
                  size t (contentWidth - indent o - 15)).
Proof.
  intros Hp. apply truthy_true in Hp. unfold renderText. rewrite Hp.
  set (s1 := onDoc (draw _) _).
  destruct (renderLines_out (getLineHeight size) (MARGIN + indent o + 15)
              (docSplitTextToSize splitTextToSize (doc s1) t (contentWidth - indent o - 15)) s1)
    as (new & E & F).
  eexists _, new. split; [|split].
  - cbn [out doc onDoc setTextColor withGs]. rewrite E.
    subst s1. cbn [out doc onDoc draw]. rewrite out_checkPageBreak.
    cbn [out doc onDoc setTextColor setFont setFontSize withGs].
    rewrite <- app_assoc. reflexivity.
  - eexists. reflexivity.
  - assert (W : docSplitTextToSize splitTextToSize (doc s1) t (contentWidth - indent o - 15)
                = splitTextToSize "helvetica"
                    (if bold o then (if italic o then "bolditalic" else "bold")
                     else (if italic o then "italic" else "normal"))
                    size t (contentWidth - indent o - 15)).
    { unfold docSplitTextToSize. subst s1. cbn [doc onDoc draw gs].
      rewrite gs_checkPageBreak. reflexivity. }
    rewrite <- W. exact F.
Qed.

Lemma itemPrefix_nonempty parent n c : itemPrefix parent n c <> [].
Proof.
  unfold itemPrefix. destruct (querySelector isCheckbox n) as [b|].
  - destruct (hasAttribute "checked" b); discriminate.
  - destruct (match parent with Some p => (p =? "ol")%string | None => false end).
    + destruct (counterToString c); discriminate.
    + discriminate.
Qed.

(** What an [li] with text draws first: its prefix, at the indent of its
    depth, and then its lines. *)
Lemma listItem_out parent n s :
  trim (directText n) <> [] ->
  exists pfx new,
    out (doc (listItem parent n s)) = out (doc s) ++ pfx :: new
    /\ (exists baseline,
           shape pfx
           = text (itemPrefix parent n (topCounter (incrementTop (listCounters s))))
                  (MARGIN + inject_Z (listDepth s - 1) * 20) baseline)
    /\ Forall2 (fun d l => exists baseline,
                    shape d
                    = text l (MARGIN + inject_Z (listDepth s - 1) * 20 + 15) baseline)
               new
               (splitTextToSize "helvetica" "normal" FONT_SIZE.BODY
                                (trim (directText n))
                                (contentWidth - inject_Z (listDepth s - 1) * 20 - 15)).
Proof.
  intros Ht. apply truthy_true in Ht. unfold listItem. rewrite Ht.
  cbn [listDepth listCounters setList].
  exact (renderText_prefixed_out (trim (directText n)) FONT_SIZE.BODY
           (mkOptions false false (inject_Z (listDepth s - 1) * 20)
                      (itemPrefix parent n (topCounter (incrementTop (listCounters s))))
                      (0, 0, 0)%Z)
           (setList (listDepth s) (incrementTop (listCounters s)) s)
           (itemPrefix_nonempty _ _ _)).
Qed.

(** What the [li] case draws: the prefix, the wrapped lines of the item's
    own text, then whatever its nested lists draw. *)
Lemma item_out parent itemAttrs itemChildren s :
  let item := ElementNode "li" itemAttrs itemChildren in
  trim (directText item) <> [] ->
  exists pfx lines rest,
    out (doc (processNode parent item s)) = out (doc s) ++ pfx :: lines ++ rest
    /\ (exists baseline,
           shape pfx
           = text (itemPrefix parent item (topCounter (incrementTop (listCounters s))))
                  (MARGIN + inject_Z (listDepth s - 1) * 20) baseline)
    /\ Forall2 (fun d l => exists baseline,
                    shape d
                    = text l (MARGIN + inject_Z (listDepth s - 1) * 20 + 15) baseline)
               lines
               (splitTextToSize "helvetica" "normal" FONT_SIZE.BODY
                                (trim (directText item))
                                (contentWidth - inject_Z (listDepth s - 1) * 20 - 15)).
Proof.
  intros item Ht. unfold item at 1. step_processNode.
  change (classify "li") with KLi. cbv iota. fold item.
  destruct (listItem_out parent item s Ht) as (pfx & lines & E & P & L).
  set (s3 := listItem parent item s) in *.
  assert (F : grows s3 (fold_left
                    (fun s child =>
                       match child with
                       | ElementNode childTag _ _ =>
                           if isListTag childTag then processNode (Some "li") child s
                           else s
                       | _ => s
                       end) itemChildren s3)).
  { apply grows_fold. intros s0 c _.
    destruct c as [t|ctag cattrs ccs|t]; try apply docGrows_refl.
    destruct (isListTag ctag); [apply grows_processNode | apply docGrows_refl]. }
  destruct F as (_ & _ & nested & N).
  exists pfx, lines, nested. split; [|split; assumption].
  rewrite N, E, <- app_assoc. reflexivity.
Qed.

Lemma listDepth_children p l : forall s,
  listDepth (fold_left (fun s c => processNode p c s) l s) = listDepth s.
Proof.
  induction l as [|c l IH]; intros s; cbn [fold_left].
  - reflexivity.
  - rewrite IH. apply processNode_list.
Qed.

(** An item of a list, whatever comes before it in the list: its prefix is
    the first shape drawn after the children before it, at twenty points
    per list around the item's own list. *)
Lemma item_in_list_out parent tag attrs before itemAttrs itemChildren after s :
  isListTag tag = true ->
  let item := ElementNode "li" itemAttrs itemChildren in
  trim (directText item) <> [] ->
  let s1 := fold_left (fun s c => processNode (Some tag) c s) before (enterList s) in
  exists pfx rest,
    out (doc (processNode parent (ElementNode tag attrs (before ++ item :: after)) s))
    = out (doc s1) ++ pfx :: rest
    /\ exists baseline,
        shape pfx
        = text (itemPrefix (Some tag) item (topCounter (incrementTop (listCounters s1))))
               (MARGIN + inject_Z (listDepth s) * 20) baseline.
Proof.
  intros Htag item Ht s1.
  step_processNode. rewrite (isListTag_classify _ Htag).
  rewrite fold_left_app. fold s1. cbn [fold_left].
  set (s2 := processNode (Some tag) item s1).
  assert (G : exists more, out (doc (exitList
                 (fold_left (fun s c => processNode (Some tag) c s) after s2)))
                           = out (doc s2) ++ more).
  { assert (F : grows s2 (exitList
                 (fold_left (fun s c => processNode (Some tag) c s) after s2))).
    { unfold grows. eapply docGrows_trans.
      - apply (grows_fold (fun s c => processNode (Some tag) c s) after
                 (fun s0 c _ => grows_processNode (Some tag) c s0) s2).
      - apply grows_exitList. }
    now destruct F as (_ & _ & F). }
  destruct G as (more & G). rewrite G.
  subst s2. unfold item at 1. step_processNode.
  change (classify "li") with KLi. cbv iota.
  fold item.
  destruct (listItem_out (Some tag) item s1 Ht) as (pfx & new & E & (b & P) & _).
  set (s3 := listItem (Some tag) item s1) in *.
  assert (N : exists nested,
             out (doc (fold_left
                    (fun s child =>
                       match child with
                       | ElementNode childTag _ _ =>
                           if isListTag childTag then processNode (Some "li") child s
                           else s
                       | _ => s
                       end) itemChildren s3)) = out (doc s3) ++ nested).
  { assert (F : grows s3 (fold_left
                    (fun s child =>
                       match child with
                       | ElementNode childTag _ _ =>
                           if isListTag childTag then processNode (Some "li") child s
                           else s
                       | _ => s
                       end) itemChildren s3)).
    { apply grows_fold. intros s0 c _.
      destruct c as [t|ctag cattrs ccs|t]; try apply docGrows_refl.
      destruct (isListTag ctag); [apply grows_processNode | apply docGrows_refl]. }
    now destruct F as (_ & _ & F). }
  destruct N as (nested & N). rewrite N, E.
  exists pfx, (new ++ nested ++ more). split.
  - rewrite <- !app_assoc. reflexivity.
  - exists b. rewrite P.
    assert (D : listDepth s1 = (listDepth s + 1)%Z).
    { subst s1. now rewrite listDepth_children. }
    rewrite D. replace (listDepth s + 1 - 1)%Z with (listDepth s) by lia.
    reflexivity.
Qed.

Lemma listCounters_children p l : forall s,
  listCounters (fold_left (fun s c => processNode p c s) l s)
  = Nat.iter (list_sum (map bareItems l)) incrementTop (listCounters s).
Proof.
  induction l as [|c l IH]; intros s; cbn [fold_left].
  - reflexivity.
  - change (list_sum (map bareItems (c :: l)))
      with (bareItems c + list_sum (map bareItems l))%nat.
    rewrite IH, (proj2 (processNode_list p c s)), Nat.add_comm.
    now rewrite Nat.iter_add.
Qed.

Lemma bareItems_items l :
  Forall (fun c => isElement c = true -> hasTag "li" c = true) l ->
  list_sum (map bareItems l) = List.length (filter (hasTag "li") l).
Proof.
  induction 1 as [|c l Hc _ IH]; [reflexivity|].
  change (list_sum (map bareItems (c :: l)))
    with (bareItems c + list_sum (map bareItems l))%nat.
  cbn [filter]. rewrite IH. destruct c as [t|tag attrs cs|t]; try reflexivity.
  specialize (Hc eq_refl). cbn [hasTag] in *. rewrite Hc.
  apply String.eqb_eq in Hc. subst tag. reflexivity.
Qed.

(** The prefix of an item of an ordered list without a checkbox. *)
Lemma ordered_item_prefix parent attrs before itemAttrs itemChildren after s :
  let item := ElementNode "li" itemAttrs itemChildren in
  Forall (fun c => isElement c = true -> hasTag "li" c = true) before ->
  querySelector isCheckbox item = None ->
  trim (directText item) <> [] ->
  let s1 := fold_left (fun s c => processNode (Some "ol") c s) before (enterList s) in
  let position := S (List.length (filter (hasTag "li") before)) in
  exists pfx rest baseline,
    out (doc (processNode parent (ElementNode "ol" attrs (before ++ item :: after)) s))
    = out (doc s1) ++ pfx :: rest
    /\ shape pfx = text (numberToString position ++ js ".")
                        (MARGIN + inject_Z (listDepth s) * 20) baseline.
Proof.
  intros item Hb Hc Ht s1 position.
  destruct (item_in_list_out parent "ol" attrs before itemAttrs itemChildren after s
              eq_refl Ht) as (pfx & rest & E & baseline & P).
  exists pfx, rest, baseline. split; [exact E|].
  rewrite P. f_equal. fold item. fold s1.
  unfold itemPrefix. rewrite Hc. cbn [String.eqb Ascii.eqb Bool.eqb].
  assert (C : listCounters s1 = listCounters s ++ [List.length (filter (hasTag "li") before)]).
  { subst s1. rewrite listCounters_children, (bareItems_items _ Hb).
    cbn [enterList listCounters setList]. now rewrite iter_incrementTop_snoc. }
  rewrite C, incrementTop_snoc.
  unfold topCounter.
  destruct (listCounters s ++ [S (List.length (filter (hasTag "li") before))]) eqn:E2.
  - destruct (listCounters s); discriminate.
  - rewrite <- E2, last_last. reflexivity.
Qed.

End LayoutFacts.

(** ** Whole documents *)

Lemma renderText_agree
  (sp sp' : string -> string -> Q -> jsstring -> Q -> list jsstring)
  (W H : Q) (t : jsstring) (size : Q) (o : textOptions) (s : state) :
  (forall f st sz w, sp f st sz t w = sp' f st sz t w) ->
  renderText sp W H t size o s = renderText sp' W H t size o s.
Proof.
  intros E. unfold renderText, docSplitTextToSize. rewrite E. reflexivity.
Qed.

(** ** Layout engine: every shape is drawn after its own check *)

Lemma checked_more (H : Q) (l l' : list drawn) (o : drawn) :
  checked H l o -> checked H (l ++ l') o.
Proof.
  unfold checked. destruct (shape o); auto.
  intros [A | (row & x0 & top & w & h & I & B)]; [now left | right].
  exists row, x0, top, w, h. split; [apply in_or_app; now left | exact B].
Qed.

Lemma checked_appended (H : Q) (l new : list drawn) :
  Forall (checked H l) l -> Forall (checked H (l ++ new)) new ->
  Forall (checked H (l ++ new)) (l ++ new).
Proof.
  intros A B. apply Forall_app. split; [|exact B].
  eapply Forall_impl; [|exact A]. intros o. apply checked_more.
Qed.

Lemma sound_setY (H v : Q) (s : state) :
  MARGIN <= v -> sound H s -> sound H (setY v s).
Proof. intros Hv [_ Ho]. now split. Qed.

Lemma sound_addSpace (H p : Q) (s : state) :
  0 <= p -> sound H s -> sound H (addSpace p s).
Proof. intros Hp [Hy Ho]. apply sound_setY; [lra | now split]. Qed.

Lemma sound_onDoc (H : Q) (f : jsPDF -> jsPDF) (s : state) :
  out (f (doc s)) = out (doc s) -> sound H s -> sound H (onDoc f s).
Proof. intros E [Hy Ho]. split; cbn [y doc onDoc]; [exact Hy | now rewrite E]. Qed.

Lemma sound_draw (H : Q) (p : prim) (s : state) :
  checked H (out (doc s) ++ [mkDrawn (numPages (doc s)) (gs (doc s)) p])
          (mkDrawn (numPages (doc s)) (gs (doc s)) p) ->
  sound H s -> sound H (onDoc (draw p) s).
Proof.
  intros Hp [Hy Ho]. split; [exact Hy|]. cbn [doc onDoc draw out].
  apply checked_appended; [exact Ho | now constructor].
Qed.

Lemma sound_checkPageBreak (H h : Q) (s : state) :
  sound H s -> sound H (checkPageBreak H h s).
Proof.
  intros [Hy Ho]. unfold checkPageBreak.
  destruct (Qlt_le_dec _ _); split; cbn; auto. lra.
Qed.

Lemma invariant_fold {A} (I : state -> Prop) (step : state -> A -> state)
  (l : list A) :
  (forall s a, In a l -> I s -> I (step s a)) ->
  forall s, I s -> I (fold_left step l s).
Proof.
  induction l as [|a l IH]; intros H s Hs; cbn [fold_left].
  - exact Hs.
  - apply IH.
    + intros s0 b Hb. apply H. now right.
    + apply H; [now left | exact Hs].
Qed.

Section CheckedFacts.

Variable splitTextToSize : string -> string -> Q -> jsstring -> Q -> list jsstring.
Variables pageWidth pageHeight : Q.

Local Abbreviation checkPageBreak := (checkPageBreak pageHeight).
Local Abbreviation renderLine := (renderLine pageHeight).
Local Abbreviation renderText := (renderText splitTextToSize pageWidth pageHeight).
Local Abbreviation heading := (heading splitTextToSize pageWidth pageHeight).
Local Abbreviation paragraph := (paragraph splitTextToSize pageWidth pageHeight).
Local Abbreviation blockquote := (blockquote splitTextToSize pageWidth pageHeight).
Local Abbreviation codeLine := (codeLine pageHeight).
Local Abbreviation pre := (pre pageWidth pageHeight).
Local Abbreviation tableCell := (tableCell splitTextToSize).
Local Abbreviation tableRow := (tableRow splitTextToSize pageWidth pageHeight).
Local Abbreviation table := (table splitTextToSize pageWidth pageHeight).
Local Abbreviation hr := (hr pageWidth pageHeight).
Local Abbreviation listItem := (listItem splitTextToSize pageWidth pageHeight).
Local Abbreviation processNode := (processNode splitTextToSize pageWidth pageHeight).
Local Abbreviation processRoot := (processRoot splitTextToSize pageWidth pageHeight).
Local Abbreviation contentWidth := (contentWidth pageWidth).

Hypothesis page_tall : MARGIN * 2 + getLineHeight FONT_SIZE.H1 <= pageHeight.

(** A line of text drawn at the cursor the check for its height has left,
    in a font of the size the height was computed from. *)
Lemma sound_checked_text (size : Q) (t : jsstring) (x : Q) (s : state) :
  getLineHeight size <= pageHeight - MARGIN * 2 ->
  soundAt pageHeight size s ->
  soundAt pageHeight size
          (onDoc (draw (text t x (y (checkPageBreak (getLineHeight size) s))))
                 (checkPageBreak (getLineHeight size) s)).
Proof.
  intros H1 [Hs Hf].
  destruct (checkPageBreak_fits pageHeight (getLineHeight size) s H1 (proj1 Hs))
    as [A B].
  split.
  - apply sound_draw; [|now apply sound_checkPageBreak].
    unfold checked. cbn [shape pen]. left.
    rewrite gs_checkPageBreak, Hf. now split.
  - cbn [doc onDoc draw gs]. now rewrite gs_checkPageBreak.
Qed.

Lemma sound_renderLine (size x : Q) (s : state) (l : jsstring) :
  0 <= size -> getLineHeight size <= pageHeight - MARGIN * 2 ->
  soundAt pageHeight size s ->
  soundAt pageHeight size (renderLine (getLineHeight size) x s l).
Proof.
  intros H0 H1 Hs. unfold renderLine.
  destruct (checkPageBreak_fits pageHeight (getLineHeight size) s H1
              (proj1 (proj1 Hs))) as [A B].
  destruct (sound_checked_text size l x s H1 Hs) as [C D].
  split; [|exact D].
  apply sound_setY; [|exact C].
  cbn [y onDoc]. unfold getLineHeight in *. lra.
Qed.

Lemma sound_renderText (t : jsstring) (size : Q) (o : textOptions) (s : state) :
  0 <= size -> size <= 24 ->
  sound pageHeight s -> sound pageHeight (renderText t size o s).
Proof.
  intros H0 H1 Hs. unfold renderText.
  assert (L1 : getLineHeight size <= pageHeight - MARGIN * 2)
    by (generalize page_tall; unfold getLineHeight, FONT_SIZE.H1; lra).
  apply sound_onDoc; [reflexivity|].
  match goal with
  | |- sound _ (fold_left ?step ?l ?s0) =>
      refine (proj1 (invariant_fold (soundAt pageHeight size) step l _ s0 _))
  end.
  - intros s0 l _. now apply sound_renderLine.
  - assert (S0 : soundAt pageHeight size
                   (onDoc (setTextColor (color o))
                      (onDoc (setFont "helvetica"
                                (if bold o then (if italic o then "bolditalic" else "bold")
                                 else (if italic o then "italic" else "normal")))
                         (onDoc (setFontSize size) s)))).
    { split; [|reflexivity]. repeat (apply sound_onDoc; [reflexivity|]). exact Hs. }
    destruct (truthy (prefix o)); [|exact S0].
    now apply sound_checked_text.
Qed.

Lemma sound_heading parent n before size after s :
  0 <= before -> 0 <= after -> 0 <= size -> size <= 24 ->
  sound pageHeight s -> sound pageHeight (heading parent n before size after s).
Proof.
  intros. unfold heading. apply sound_addSpace; [assumption|].
  destruct (truthy _).
  - apply sound_renderText; auto. now apply sound_addSpace.
  - now apply sound_addSpace.
Qed.

Lemma sound_paragraph parent n s :
  sound pageHeight s -> sound pageHeight (paragraph parent n s).
Proof.
  intros. unfold paragraph. destruct (truthy _); [|assumption].
  apply sound_addSpace; [lra|].
  apply sound_renderText; auto; unfold FONT_SIZE.BODY; lra.
Qed.

Lemma sound_blockquote parent n s :
  sound pageHeight s -> sound pageHeight (blockquote parent n s).
Proof.
  intros. unfold blockquote. destruct (truthy _); [|assumption].
  apply sound_addSpace; [lra|].
  apply sound_draw; [now left|].
  repeat (apply sound_onDoc; [reflexivity|]).
  apply sound_renderText; try (unfold FONT_SIZE.BODY; lra).
  apply sound_addSpace; [lra | assumption].
Qed.

Lemma sound_codeLine s l :
  soundAt pageHeight FONT_SIZE.CODE s ->
  soundAt pageHeight FONT_SIZE.CODE (codeLine (getLineHeight FONT_SIZE.CODE) s l).
Proof.
  intros Hs. unfold codeLine.
  assert (L1 : getLineHeight FONT_SIZE.CODE <= pageHeight - MARGIN * 2)
    by (generalize page_tall; unfold getLineHeight, FONT_SIZE.CODE, FONT_SIZE.H1; lra).
  destruct (checkPageBreak_fits pageHeight _ s L1 (proj1 (proj1 Hs))) as [A B].
  destruct (sound_checked_text FONT_SIZE.CODE (if truthy l then l else js " ")
              (MARGIN + 10) s L1 Hs) as [C D].
  split; [|exact D].
  apply sound_setY; [|exact C].
  cbn [y onDoc]. unfold getLineHeight, FONT_SIZE.CODE in *. lra.
Qed.

Lemma sound_pre n s : sound pageHeight s -> sound pageHeight (pre n s).
Proof.
  intros Hs. unfold pre. destruct (truthy _); [|assumption].
  apply sound_addSpace; [lra|].
  match goal with |- sound _ (setY _ ?x) => assert (G : sound pageHeight x) end.
  { match goal with
    | |- sound _ (fold_left ?step ?l ?s0) =>
        refine (proj1 (invariant_fold (soundAt pageHeight FONT_SIZE.CODE)
                         step l _ s0 _))
    end.
    - intros s0 l _. apply sound_codeLine.
    - split; [|reflexivity].
      match goal with |- sound _ (setY _ ?x) => assert (G : sound pageHeight x) end.
      { repeat (apply sound_onDoc; [reflexivity|]).
        apply sound_draw; [exact I|]. apply sound_onDoc; [reflexivity|].
        apply sound_checkPageBreak. apply sound_addSpace; [lra | assumption]. }
      apply sound_setY; [destruct G; lra | exact G]. }
  apply sound_setY; [destruct G; lra | exact G].
Qed.

(** The text runs of the cells of a row: all on the current page, at half
    the row height and three points below the cursor. *)
Lemma tableCells_placed b cw rh top : forall l d,
  exists new,
    out (fold_left (tableCell b cw rh top) l d) = out d ++ new
    /\ numPages (fold_left (tableCell b cw rh top) l d) = numPages d
    /\ Forall (fun o => onPage o = numPages d
                        /\ exists t x, shape o = text t x (top + rh / 2 + 3)) new.
Proof.
  induction l as [|ic l IH]; intros d; cbn [fold_left].
  - exists []. split; [now rewrite app_nil_r|]. split; [reflexivity | constructor].
  - destruct (IH (tableCell b cw rh top d ic)) as (new & E & N & F).
    eexists (_ :: new). split; [|split].
    + rewrite E. unfold tableCell at 1. cbn [out draw]. rewrite <- app_assoc.
      reflexivity.
    + rewrite N. reflexivity.
    + constructor.
      * split; [reflexivity | eexists _, _; reflexivity].
      * exact F.
Qed.

Lemma sound_tableRow cols cw rh s row :
  0 <= rh -> rh <= pageHeight - MARGIN * 2 ->
  sound pageHeight s -> sound pageHeight (tableRow cols cw rh s row).
Proof.
  intros R0 R1 Hs. unfold tableRow.
  destruct (checkPageBreak_fits pageHeight rh s R1 (proj1 Hs)) as [A B].
  pose proof (sound_checkPageBreak pageHeight rh s Hs) as G1.
  set (s1 := checkPageBreak rh s) in *.
  set (isHeader := match querySelector (hasTag "th") row with
                   | Some _ => true
                   | None => false
                   end).
  set (s2 := if isHeader then _ else s1).
  assert (Y2 : y s2 = y s1) by (subst s2; now destruct isHeader).
  assert (R : hasRoom pageHeight (y s2) rh) by (rewrite Y2; now split).
  assert (G2 : sound pageHeight s2).
  { subst s2. destruct isHeader; [|exact G1].
    apply sound_draw; [|now apply sound_onDoc].
    unfold checked. cbn [shape y onDoc]. now split. }
  destruct G2 as [G2y G2].
  destruct (tableCells_placed isHeader cw rh (y s2)
              (combine (seq 0 (List.length (querySelectorAll isCell row)))
                       (querySelectorAll isCell row)) (doc s2))
    as (cells & E & N & F).
  cbv zeta. split.
  - cbn [y setY onDoc]. lra.
  - cbn [doc setY onDoc y]. rewrite strokes_out.
    cbn [out draw setLineWidth setDrawColor withGs numPages gs lineWidth].
    rewrite E, N.
    set (border := mkDrawn (numPages (doc s2)) _
                           (rect MARGIN (y s2) contentWidth rh None)).
    rewrite <- !app_assoc.
    match goal with
    | |- Forall (checked _ (_ ++ ?new)) _ => apply (checked_appended pageHeight _ new G2)
    end.
    apply Forall_app. split; [|constructor].
    + eapply Forall_impl; [|exact F]. intros o [P (t & x & S)].
      unfold checked. rewrite S. right.
      exists border, MARGIN, (y s2), contentWidth, rh.
      split; [|split; [now rewrite P | split; [reflexivity | now split]]].
      apply in_or_app. right. apply in_or_app. right. now left.
    + unfold checked. cbn [shape border]. exact R.
    + apply Forall_forall. intros o Ho. apply in_map_iff in Ho.
      destruct Ho as (i & <- & _). unfold checked. cbn [shape pen lineWidth].
      right. right. split; [reflexivity|]. exists rh. now split.
Qed.

Lemma sound_table n s : sound pageHeight s -> sound pageHeight (table n s).
Proof.
  intros Hs. unfold table.
  destruct (querySelectorAll (hasTag "tr") n) as [|row0 rows] eqn:E.
  - apply sound_addSpace; [lra | exact Hs].
  - apply sound_addSpace; [lra|].
    apply invariant_fold.
    + intros. apply sound_tableRow; auto;
        generalize page_tall; unfold getLineHeight, FONT_SIZE.BODY, FONT_SIZE.H1; lra.
    + apply sound_addSpace; [lra | exact Hs].
Qed.

Lemma sound_hr s : sound pageHeight s -> sound pageHeight (hr s).
Proof.
  intros Hs. unfold hr.
  assert (G0 : sound pageHeight (addSpace 15 s))
    by (apply sound_addSpace; [lra | exact Hs]).
  assert (H5 : 5 <= pageHeight - MARGIN * 2)
    by (generalize page_tall; unfold getLineHeight, FONT_SIZE.H1; lra).
  destruct (checkPageBreak_fits pageHeight 5 _ H5 (proj1 G0)) as [A B].
  apply sound_addSpace; [lra|].
  apply sound_draw; [|now apply sound_checkPageBreak].
  unfold checked. cbn [shape pen y onDoc gs doc setLineWidth withGs lineWidth].
  right. left. split; [reflexivity|]. split; [reflexivity | now split].
Qed.

Lemma sound_enterList s : sound pageHeight s -> sound pageHeight (enterList s).
Proof. intros [A B]. now split. Qed.

Lemma sound_exitList s : sound pageHeight s -> sound pageHeight (exitList s).
Proof.
  intros [A B]. unfold exitList. destruct (_ =? 0)%Z.
  - apply sound_addSpace; [lra | now split].
  - now split.
Qed.

Lemma sound_listItem parent n s :
  sound pageHeight s -> sound pageHeight (listItem parent n s).
Proof.
  intros [A B]. unfold listItem. destruct (truthy _).
  - apply sound_renderText; try (unfold FONT_SIZE.BODY; lra). now split.
  - now split.
Qed.

Lemma sound_processNode parent n : forall s,
  sound pageHeight s -> sound pageHeight (processNode parent n s).
Proof.
  revert parent.
  induction n as [d|tag attrs cs IH|d] using node_ind; intros parent s Hs;
    try exact Hs.
  step_processNode. rewrite Forall_forall in IH.
  destruct (classify tag).
  - apply sound_heading; auto; unfold FONT_SIZE.H1; lra.
  - apply sound_heading; auto; unfold FONT_SIZE.H2; lra.
  - apply sound_heading; auto; unfold FONT_SIZE.H3; lra.
  - apply sound_heading; auto; unfold FONT_SIZE.H4; lra.
  - now apply sound_paragraph.
  - apply sound_exitList. apply invariant_fold; [|now apply sound_enterList].
    intros s0 c Hc. now apply IH.
  - apply invariant_fold; [|now apply sound_listItem].
    intros s0 c Hc G. destruct c as [t|ctag cattrs ccs|t]; auto.
    destruct (isListTag ctag); auto.
  - now apply sound_blockquote.
  - now apply sound_pre.
  - now apply sound_table.
  - now apply sound_hr.
  - apply invariant_fold; [|exact Hs]. intros s0 c Hc. now apply IH.
Qed.

Lemma sound_processRoot root s :
  sound pageHeight s -> sound pageHeight (processRoot root s).
Proof.
  intros Hs. destruct root as [t|tag attrs cs|t]; try exact Hs.
  step_processRoot. apply invariant_fold; [|exact Hs].
  intros. now apply sound_processNode.
Qed.

End CheckedFacts.

Section DocumentFacts.

Variable splitTextToSize : string -> string -> Q -> jsstring -> Q -> list jsstring.
Variable parseFirstElement : jsstring -> option node.

(** C2, as amended: on a page with room for one line of the largest font
    between its margins, every text run, every table rectangle, every stroke
    between table columns and every horizontal rule is drawn with its
    vertical coordinates between the margin and the page height less the
    margin, because [checkPageBreak] is called with the height of the line,
    row or rule just before it is drawn.  What the check with that height
    leaves is visible in the shapes: below the baseline of every line of
    text there is room, above the bottom margin, for one line of the font
    the run is drawn in; every table rectangle and every stroke between two
    columns has room for the height of its row, and the text of a cell sits
    inside such a row; a horizontal rule has room for the five points it is
    checked with.  The check itself: when the cursor plus the height passes
    the bottom margin a page is added and the cursor is set to the margin,
    otherwise nothing changes, and in both cases the cursor plus that
    height is within the page after the call.  The rule of a block quote
    and the background of a code block are drawn relative to the cursor and
    are not covered. *)
Theorem checked_shapes_within_page (d : jsPDF) (html : jsstring) :
  (MARGIN * 2 + getLineHeight FONT_SIZE.H1 <= getHeight d)%Q ->
  Forall (placed (getHeight d)) (out d) ->
  Forall (checked (getHeight d) (out d)) (out d) ->
  Forall (placed (getHeight d)) (out (renderToPdf splitTextToSize parseFirstElement d html))
  /\ Forall (checked (getHeight d)
                     (out (renderToPdf splitTextToSize parseFirstElement d html)))
            (out (renderToPdf splitTextToSize parseFirstElement d html))
  /\ forall neededHeight s,
      let s' := checkPageBreak (getHeight d) neededHeight s in
      ((getHeight d - MARGIN < y s + neededHeight)%Q ->
       s' = setY MARGIN (onDoc addPage s))
      /\ ((y s + neededHeight <= getHeight d - MARGIN)%Q -> s' = s)
      /\ ((neededHeight <= getHeight d - MARGIN * 2)%Q -> (MARGIN <= y s)%Q ->
          (MARGIN <= y s' /\ y s' + neededHeight <= getHeight d - MARGIN)%Q).
Proof.
  intros Htall Hd Hc. split; [|split].
  - unfold renderToPdf. destruct (parseFirstElement _) as [root|]; [|exact Hd].
    unfold layout.
    apply (good_processRoot splitTextToSize (getWidth d) (getHeight d) Htall root
             (initialState d)).
    split; [apply Qle_refl | exact Hd].
  - unfold renderToPdf. destruct (parseFirstElement _) as [root|]; [|exact Hc].
    unfold layout.
    apply (sound_processRoot splitTextToSize (getWidth d) (getHeight d) Htall root
             (initialState d)).
    split; [apply Qle_refl | exact Hc].
  - intros h s s'. subst s'.
    destruct (checkPageBreak_spec (getHeight d) h s) as [A B].
    split; [exact A|]. split; [exact B|].
    intros Hh Hy. now apply checkPageBreak_fits.
Qed.

(** C4, as amended: an item of an ordered list that has text of its own and
    no checkbox inside it is given the prefix [N.], where [N] is one more
    than the number of [li] elements before it in its list, whatever the
    attributes of the list say; an item with a checkbox inside it is given
    the ticked or the empty box instead.  The list [1. x\n2. y], on a fresh
    letter page and when [x] and [y] fit on a line, draws [1.], [x], [2.],
    [y]. *)
Theorem ordered_items_numbered_by_position :
  (forall pageWidth pageHeight parent attrs before itemAttrs itemChildren after s,
      let item := ElementNode "li" itemAttrs itemChildren in
      Forall (fun c => isElement c = true -> hasTag "li" c = true) before ->
      querySelector isCheckbox item = None ->
      trim (directText item) <> [] ->
      let s1 := fold_left (fun s c => processNode splitTextToSize pageWidth pageHeight
                                                  (Some "ol") c s)
                          before (enterList s) in
      let position := S (List.length (filter (hasTag "li") before)) in
      exists pfx rest baseline,
        out (doc (processNode splitTextToSize pageWidth pageHeight parent
                              (ElementNode "ol" attrs (before ++ item :: after)) s))
        = out (doc s1) ++ pfx :: rest
        /\ shape pfx = text (numberToString position ++ js ".")
                            (MARGIN + inject_Z (listDepth s) * 20)%Q baseline)
  /\ (forall pageWidth pageHeight parent attrs before itemAttrs itemChildren after s box,
         let item := ElementNode "li" itemAttrs itemChildren in
         querySelector isCheckbox item = Some box ->
         trim (directText item) <> [] ->
         let s1 := fold_left (fun s c => processNode splitTextToSize pageWidth pageHeight
                                                     (Some "ol") c s)
                             before (enterList s) in
         exists pfx rest baseline,
           out (doc (processNode splitTextToSize pageWidth pageHeight parent
                                 (ElementNode "ol" attrs (before ++ item :: after)) s))
           = out (doc s1) ++ pfx :: rest
           /\ shape pfx = text (if hasAttribute "checked" box then js "☑" else js "☐")
                               (MARGIN + inject_Z (listDepth s) * 20)%Q baseline)
  /\ ((forall f st sz w, splitTextToSize f st sz (js "x") w = [js "x"]) ->
      (forall f st sz w, splitTextToSize f st sz (js "y") w = [js "y"]) ->
      map shape (out (layout splitTextToSize orderedDoc newLetterDoc))
      = [text (js "1.") 50 50; text (js "x") 65 50;
         text (js "2.") 50 65.4; text (js "y") 65 65.4]%Q).
Proof.
  split; [|split].
  - intros. now apply ordered_item_prefix.
  - intros pageWidth pageHeight parent attrs before itemAttrs itemChildren after s
           box item Hbox Ht s1.
    destruct (item_in_list_out splitTextToSize pageWidth pageHeight parent "ol" attrs
                before itemAttrs itemChildren after s eq_refl Ht)
      as (pfx & rest & E & baseline & P).
    exists pfx, rest, baseline. split; [exact E|].
    rewrite P. unfold itemPrefix. fold item. now rewrite Hbox.
  - intros Hx Hy. unfold layout.
    Opaque renderText. cbn. Transparent renderText.
    rewrite !(renderText_agree splitTextToSize wrapNone _ _ (js "x"))
      by (intros; apply Hx).
    rewrite !(renderText_agree splitTextToSize wrapNone _ _ (js "y"))
      by (intros; apply Hy).
    vm_compute. reflexivity.
Qed.

(** C7: an [li] with text of its own draws its prefix at the left margin
    plus an indent of (depth - 1) x 20 points, depth being [listDepth] while
    the item is processed, and its lines fifteen points further right; the
    children of a [ul] or [ol] are processed at one more than the depth at
    which the list is entered, so the indent grows by twenty points with
    each level of nesting; the prefix of an item of a [ul] that has no
    checkbox inside it is the bullet.  The list [- a\n- b\n- c], on a fresh
    letter page and when the three texts fit on a line, draws three lines,
    each a bullet followed by the text, and the item of a list nested in an
    item is drawn twenty points further right. *)
Theorem bullets_and_indent :
  (forall pageWidth pageHeight parent itemAttrs itemChildren s,
      let item := ElementNode "li" itemAttrs itemChildren in
      let indent := (inject_Z (listDepth s - 1) * 20)%Q in
      trim (directText item) <> [] ->
      exists pfx lines rest,
        out (doc (processNode splitTextToSize pageWidth pageHeight parent item s))
        = out (doc s) ++ pfx :: lines ++ rest
        /\ (exists baseline,
               shape pfx
               = text (itemPrefix parent item
                                  (topCounter (incrementTop (listCounters s))))
                      (MARGIN + indent)%Q baseline)
        /\ Forall2 (fun d l => exists baseline,
                        shape d = text l (MARGIN + indent + 15)%Q baseline)
                   lines
                   (splitTextToSize "helvetica" "normal" FONT_SIZE.BODY
                                    (trim (directText item))
                                    (contentWidth pageWidth - indent - 15)%Q))
  /\ (forall pageWidth pageHeight tag before s,
         isListTag tag = true ->
         listDepth (fold_left (fun s c => processNode splitTextToSize pageWidth
                                                      pageHeight (Some tag) c s)
                              before (enterList s))
         = (listDepth s + 1)%Z)
  /\ (forall item counter,
         querySelector isCheckbox item = None ->
         itemPrefix (Some "ul") item counter = js "•")
  /\ ((forall f st sz w, splitTextToSize f st sz (js "a") w = [js "a"]) ->
      (forall f st sz w, splitTextToSize f st sz (js "b") w = [js "b"]) ->
      (forall f st sz w, splitTextToSize f st sz (js "c") w = [js "c"]) ->
      map shape (out (layout splitTextToSize bulletDoc newLetterDoc))
      = [text (js "•") 50 50; text (js "a") 65 50;
         text (js "•") 50 65.4; text (js "b") 65 65.4;
         text (js "•") 50 80.80; text (js "c") 65 80.80]%Q
      /\ map shape (out (layout splitTextToSize nestedDoc newLetterDoc))
         = [text (js "•") 50 50; text (js "a") 65 50;
            text (js "•") 70 65.4; text (js "b") 85 65.4]%Q).
Proof.
  split; [|split; [|split]].
  - intros pageWidth pageHeight parent itemAttrs itemChildren s item indent Ht.
    apply (item_out splitTextToSize pageWidth pageHeight parent itemAttrs
                    itemChildren s Ht).
  - intros pageWidth pageHeight tag before s _.
    now rewrite listDepth_children.
  - intros item counter Hc. unfold itemPrefix. now rewrite Hc.
  - intros Ha Hb Hc. unfold layout. split.
    + Opaque renderText. cbn. Transparent renderText.
      rewrite !(renderText_agree splitTextToSize wrapNone _ _ (js "a"))
        by (intros; apply Ha).
      rewrite !(renderText_agree splitTextToSize wrapNone _ _ (js "b"))
        by (intros; apply Hb).
      rewrite !(renderText_agree splitTextToSize wrapNone _ _ (js "c"))
        by (intros; apply Hc).
      vm_compute. reflexivity.
    + Opaque renderText. cbn. Transparent renderText.
      rewrite !(renderText_agree splitTextToSize wrapNone _ _ (js "a"))
        by (intros; apply Ha).
      rewrite !(renderText_agree splitTextToSize wrapNone _ _ (js "b"))
        by (intros; apply Hb).
      vm_compute. reflexivity.
Qed.

End DocumentFacts.

(* ------------------------------------------------------------------ *)
(** ** Two runs of the engine *)

Lemma alike_y a b : alike a b -> y a = y b.
Proof. now intros (_ & A & _). Qed.

Lemma alike_listDepth a b : alike a b -> listDepth a = listDepth b.
Proof. now intros (_ & _ & A & _). Qed.

Lemma alike_listCounters a b : alike a b -> listCounters a = listCounters b.
Proof. now intros (_ & _ & _ & A). Qed.

Lemma alike_setY v1 v2 a b : v1 = v2 -> alike a b -> alike (setY v1 a) (setY v2 b).
Proof. intros -> (A & B & C & D). repeat split; assumption. Qed.

Lemma alike_addSpace p a b : alike a b -> alike (addSpace p a) (addSpace p b).
Proof.
  intros H. apply alike_setY; [|exact H]. now rewrite (alike_y _ _ H).
Qed.

Lemma alike_setList d1 d2 c1 c2 a b :
  d1 = d2 -> c1 = c2 -> alike a b -> alike (setList d1 c1 a) (setList d2 c2 b).
Proof. intros -> -> (A & B & C & D). repeat split; assumption. Qed.

Lemma alike_onDoc f g a b :
  (skeleton (doc a) = skeleton (doc b) ->
   skeleton (f (doc a)) = skeleton (g (doc b))) ->
  alike a b -> alike (onDoc f a) (onDoc g b).
Proof. intros H (A & B & C & D). repeat split; auto. Qed.

Lemma skeleton_draw p d1 d2 :
  skeleton d1 = skeleton d2 -> skeleton (draw p d1) = skeleton (draw p d2).
Proof.
  unfold skeleton. intros H. injection H as A B C.
  cbn [pageSize numPages out draw]. rewrite !map_app, A, B, C. reflexivity.
Qed.

Lemma skeleton_addPage d1 d2 :
  skeleton d1 = skeleton d2 -> skeleton (addPage d1) = skeleton (addPage d2).
Proof.
  unfold skeleton. intros H. injection H as A B C.
  cbn [pageSize numPages out addPage]. now rewrite A, B, C.
Qed.

Lemma alike_setter f a b :
  (forall d, skeleton (f d) = skeleton d) -> alike a b -> alike (onDoc f a) (onDoc f b).
Proof.
  intros H A. apply alike_onDoc; [|exact A]. intros E. now rewrite !H.
Qed.

Lemma alike_draw p q a b :
  p = q -> alike a b -> alike (onDoc (draw p) a) (onDoc (draw q) b).
Proof.
  intros -> A. apply alike_onDoc; [|exact A]. apply skeleton_draw.
Qed.

Lemma alike_checkPageBreak H h a b :
  alike a b -> alike (checkPageBreak H h a) (checkPageBreak H h b).
Proof.
  intros A. unfold checkPageBreak. rewrite (alike_y _ _ A).
  destruct (Qlt_le_dec _ _); [|exact A].
  apply alike_setY; [reflexivity|].
  apply alike_onDoc; [|exact A]. apply skeleton_addPage.
Qed.

Lemma alike_fold {A} (step1 step2 : state -> A -> state) (l : list A) :
  (forall a b x, In x l -> alike a b -> alike (step1 a x) (step2 b x)) ->
  forall a b, alike a b -> alike (fold_left step1 l a) (fold_left step2 l b).
Proof.
  induction l as [|x l IH]; intros H a b Hab; cbn [fold_left].
  - exact Hab.
  - apply IH.
    + intros a0 b0 x0 Hx. apply H. now right.
    + apply H; [now left | exact Hab].
Qed.

Section TwoRuns.

Variable splitTextToSize : string -> string -> Q -> jsstring -> Q -> list jsstring.
Variables pageWidth pageHeight : Q.

Local Abbreviation checkPageBreak := (checkPageBreak pageHeight).
Local Abbreviation renderLine := (renderLine pageHeight).
Local Abbreviation renderText := (renderText splitTextToSize pageWidth pageHeight).
Local Abbreviation heading := (heading splitTextToSize pageWidth pageHeight).
Local Abbreviation paragraph := (paragraph splitTextToSize pageWidth pageHeight).
Local Abbreviation blockquote := (blockquote splitTextToSize pageWidth pageHeight).
Local Abbreviation codeLine := (codeLine pageHeight).
Local Abbreviation pre := (pre pageWidth pageHeight).
Local Abbreviation tableCell := (tableCell splitTextToSize).
Local Abbreviation tableRow := (tableRow splitTextToSize pageWidth pageHeight).
Local Abbreviation table := (table splitTextToSize pageWidth pageHeight).
Local Abbreviation hr := (hr pageWidth pageHeight).
Local Abbreviation listItem := (listItem splitTextToSize pageWidth pageHeight).
Local Abbreviation processNode := (processNode splitTextToSize pageWidth pageHeight).
Local Abbreviation processRoot := (processRoot splitTextToSize pageWidth pageHeight).
Local Abbreviation contentWidth := (contentWidth pageWidth).

Lemma alike_renderLine lh x a b l :
  alike a b -> alike (renderLine lh x a l) (renderLine lh x b l).
Proof.
  intros A. unfold renderLine.
  pose proof (alike_checkPageBreak pageHeight lh a b A) as C.
  apply alike_setY; [cbn [y onDoc]; now rewrite (alike_y _ _ C)|].
  apply alike_draw; [now rewrite (alike_y _ _ C) | exact C].
Qed.

(** The wrapping [renderText] asks for does not depend on the state it is
    called in: the font is set first. *)
Lemma renderText_wraps t size o s :
  renderText t size o s
  = let style := if bold o then (if italic o then "bolditalic" else "bold")
                 else (if italic o then "italic" else "normal") in
    let lineHeight := getLineHeight size in
    let s0 := onDoc (setTextColor (color o))
                    (onDoc (setFont "helvetica" style) (onDoc (setFontSize size) s)) in
    let s1 := if truthy (prefix o)
              then onDoc (draw (text (prefix o) (MARGIN + indent o)
                                     (y (checkPageBreak lineHeight s0))))
                         (checkPageBreak lineHeight s0)
              else s0 in
    let textIndent := if truthy (prefix o) then 15 else 0 in
    onDoc (setTextColor (0, 0, 0)%Z)
          (fold_left (renderLine lineHeight (MARGIN + indent o + textIndent))
                     (splitTextToSize "helvetica" style size t
                                      (contentWidth - indent o - textIndent))
                     s1).
Proof.
  unfold renderText, docSplitTextToSize. cbv zeta.
  destruct (truthy (prefix o)).
  - cbn [doc onDoc draw gs]. rewrite gs_checkPageBreak. reflexivity.
  - reflexivity.
Qed.

Lemma alike_renderText t size o a b :
  alike a b -> alike (renderText t size o a) (renderText t size o b).
Proof.
  intros A. rewrite !renderText_wraps. cbv zeta.
  apply alike_setter; [reflexivity|].
  apply alike_fold; [intros; now apply alike_renderLine|].
  assert (A0 : alike
                 (onDoc (setTextColor (color o))
                    (onDoc (setFont "helvetica"
                              (if bold o then if italic o then "bolditalic" else "bold"
                               else if italic o then "italic" else "normal"))
                           (onDoc (setFontSize size) a)))
                 (onDoc (setTextColor (color o))
                    (onDoc (setFont "helvetica"
                              (if bold o then if italic o then "bolditalic" else "bold"
                               else if italic o then "italic" else "normal"))
                           (onDoc (setFontSize size) b)))).
  { repeat (apply alike_setter; [reflexivity|]). exact A. }
  destruct (truthy (prefix o)); [|exact A0].
  pose proof (alike_checkPageBreak pageHeight (getLineHeight size) _ _ A0) as C.
  apply alike_draw; [now rewrite (alike_y _ _ C) | exact C].
Qed.

Lemma alike_heading parent n before size after a b :
  alike a b ->
  alike (heading parent n before size after a) (heading parent n before size after b).
Proof.
  intros A. unfold heading. apply alike_addSpace.
  destruct (truthy _).
  - apply alike_renderText. now apply alike_addSpace.
  - now apply alike_addSpace.
Qed.

Lemma alike_paragraph parent n a b :
  alike a b -> alike (paragraph parent n a) (paragraph parent n b).
Proof.
  intros A. unfold paragraph. destruct (truthy _); [|exact A].
  apply alike_addSpace. rewrite (alike_listDepth _ _ A).
  now apply alike_renderText.
Qed.

Lemma alike_blockquote parent n a b :
  alike a b -> alike (blockquote parent n a) (blockquote parent n b).
Proof.
  intros A. unfold blockquote. destruct (truthy _); [|exact A].
  apply alike_addSpace.
  pose proof (alike_renderText (trim (extractText parent 0 n)) FONT_SIZE.BODY
                (mkOptions false true 20 [] (100, 100, 100)%Z) _ _
                (alike_addSpace 8 _ _ A)) as R.
  apply alike_draw.
  - cbn [y onDoc]. rewrite (alike_y _ _ R).
    unfold addSpace. cbn [y setY]. now rewrite (alike_y _ _ A).
  - repeat (apply alike_setter; [reflexivity|]). exact R.
Qed.

Lemma alike_codeLine lh a b l :
  alike a b -> alike (codeLine lh a l) (codeLine lh b l).
Proof.
  intros A. unfold codeLine.
  pose proof (alike_checkPageBreak pageHeight lh a b A) as C.
  apply alike_setY; [cbn [y onDoc]; now rewrite (alike_y _ _ C)|].
  apply alike_draw; [now rewrite (alike_y _ _ C) | exact C].
Qed.

Lemma alike_pre n a b : alike a b -> alike (pre n a) (pre n b).
Proof.
  intros A. unfold pre. destruct (truthy _); [|exact A].
  apply alike_addSpace.
  set (needed := if Qle_bool _ 100 then _ else _).
  pose proof (alike_checkPageBreak pageHeight needed _ _ (alike_addSpace 8 _ _ A)) as C.
  set (a1 := checkPageBreak needed (addSpace 8 a)) in *.
  set (b1 := checkPageBreak needed (addSpace 8 b)) in *.
  match goal with
  | |- alike (setY _ ?x) (setY _ ?z) => assert (F : alike x z)
  end.
  { apply alike_fold; [intros; now apply alike_codeLine|].
    apply alike_setY; [cbn [y onDoc]; now rewrite (alike_y _ _ C)|].
    repeat (apply alike_setter; [reflexivity|]).
    apply alike_draw; [cbn [y onDoc]; now rewrite (alike_y _ _ C)|].
    apply alike_setter; [reflexivity | exact C]. }
  apply alike_setY; [now rewrite (alike_y _ _ F) | exact F].
Qed.

Lemma skeleton_tableCells b cw rh top : forall l d1 d2,
  skeleton d1 = skeleton d2 ->
  skeleton (fold_left (tableCell b cw rh top) l d1)
  = skeleton (fold_left (tableCell b cw rh top) l d2).
Proof.
  induction l as [|ic l IH]; intros d1 d2 E; cbn [fold_left].
  - exact E.
  - apply IH. unfold tableCell, docSplitTextToSize.
    cbn [gs setFont setFontSize withGs fontName fontStyle fontSize].
    apply skeleton_draw. exact E.
Qed.

Lemma skeleton_strokes (f : nat -> prim) : forall l d1 d2,
  skeleton d1 = skeleton d2 ->
  skeleton (fold_left (fun d i => draw (f i) d) l d1)
  = skeleton (fold_left (fun d i => draw (f i) d) l d2).
Proof.
  induction l as [|i l IH]; intros d1 d2 E; cbn [fold_left].
  - exact E.
  - apply IH. now apply skeleton_draw.
Qed.

Lemma alike_tableRow cols cw rh a b row :
  alike a b -> alike (tableRow cols cw rh a row) (tableRow cols cw rh b row).
Proof.
  intros A. unfold tableRow.
  pose proof (alike_checkPageBreak pageHeight rh a b A) as C.
  set (a1 := checkPageBreak rh a) in *. set (b1 := checkPageBreak rh b) in *.
  set (isHeader := match querySelector (hasTag "th") row with
                   | Some _ => true
                   | None => false
                   end).
  set (a2 := if isHeader then _ else a1). set (b2 := if isHeader then _ else b1).
  assert (A2 : alike a2 b2).
  { subst a2 b2. destruct isHeader; [|exact C].
    apply alike_draw; [cbn [y onDoc]; now rewrite (alike_y _ _ C)|].
    apply alike_setter; [reflexivity | exact C]. }
  assert (Y : y a2 = y b2) by apply (alike_y _ _ A2).
  apply alike_setY; [cbn [y onDoc]; now rewrite Y|].
  apply alike_onDoc.
  { intros E. cbn [y onDoc] in E |- *. rewrite Y in E |- *.
    now apply skeleton_strokes. }
  apply alike_draw; [cbn [y onDoc]; now rewrite Y|].
  repeat (apply alike_setter; [reflexivity|]).
  apply alike_onDoc; [|exact A2].
  intros E. rewrite Y. now apply skeleton_tableCells.
Qed.

Lemma alike_table n a b : alike a b -> alike (table n a) (table n b).
Proof.
  intros A. unfold table.
  destruct (querySelectorAll (hasTag "tr") n) as [|row0 rows].
  - now apply alike_addSpace.
  - apply alike_addSpace.
    apply alike_fold; [intros; now apply alike_tableRow|].
    now apply alike_addSpace.
Qed.

Lemma alike_hr a b : alike a b -> alike (hr a) (hr b).
Proof.
  intros A. unfold hr. apply alike_addSpace.
  pose proof (alike_checkPageBreak pageHeight 5 _ _ (alike_addSpace 15 _ _ A)) as C.
  apply alike_draw; [cbn [y onDoc]; now rewrite (alike_y _ _ C)|].
  repeat (apply alike_setter; [reflexivity|]). exact C.
Qed.

Lemma alike_enterList a b : alike a b -> alike (enterList a) (enterList b).
Proof.
  intros A. unfold enterList.
  apply alike_setList; [| |exact A].
  - now rewrite (alike_listDepth _ _ A).
  - now rewrite (alike_listCounters _ _ A).
Qed.

Lemma alike_exitList a b : alike a b -> alike (exitList a) (exitList b).
Proof.
  intros A. unfold exitList. cbn [listDepth setList].
  rewrite (alike_listDepth _ _ A), (alike_listCounters _ _ A).
  assert (A' : alike (setList (listDepth b - 1) (removelast (listCounters b)) a)
                     (setList (listDepth b - 1) (removelast (listCounters b)) b))
    by (now apply alike_setList).
  destruct (_ =? 0)%Z; [now apply alike_addSpace | exact A'].
Qed.

Lemma alike_listItem parent n a b :
  alike a b -> alike (listItem parent n a) (listItem parent n b).
Proof.
  intros A. unfold listItem. cbn [listDepth listCounters setList].
  rewrite (alike_listDepth _ _ A), (alike_listCounters _ _ A).
  assert (A' : alike (setList (listDepth b) (incrementTop (listCounters b)) a)
                     (setList (listDepth b) (incrementTop (listCounters b)) b))
    by (now apply alike_setList).
  destruct (truthy _); [now apply alike_renderText | exact A'].
Qed.

Lemma alike_processNode parent n : forall a b,
  alike a b -> alike (processNode parent n a) (processNode parent n b).
Proof.
  revert parent.
  induction n as [d|tag attrs cs IH|d] using node_ind; intros parent a b A;
    try exact A.
  step_processNode. rewrite Forall_forall in IH.
  destruct (classify tag).
  - now apply alike_heading.
  - now apply alike_heading.
  - now apply alike_heading.
  - now apply alike_heading.
  - now apply alike_paragraph.
  - apply alike_exitList. apply alike_fold; [|now apply alike_enterList].
    intros a0 b0 c Hc. now apply IH.
  - apply alike_fold; [|now apply alike_listItem].
    intros a0 b0 c Hc A0. destruct c as [t|ctag cattrs ccs|t]; auto.
    destruct (isListTag ctag); auto.
  - now apply alike_blockquote.
  - now apply alike_pre.
  - now apply alike_table.
  - now apply alike_hr.
  - apply alike_fold; [|exact A]. intros a0 b0 c Hc. now apply IH.
Qed.

Lemma alike_processRoot root a b :
  alike a b -> alike (processRoot root a) (processRoot root b).
Proof.
  intros A. destruct root as [t|tag attrs cs|t]; try exact A.
  step_processRoot. apply alike_fold; [|exact A].
  intros. now apply alike_processNode.
Qed.

End TwoRuns.

Section Determinism.

Variable splitTextToSize : string -> string -> Q -> jsstring -> Q -> list jsstring.
Variable parseFirstElement : jsstring -> option node.

Lemma textRuns_skeleton d1 d2 : skeleton d1 = skeleton d2 -> textRuns d1 = textRuns d2.
Proof.
  unfold skeleton. intros H. injection H as _ _ H.
  assert (E : forall d, textRuns d
                        = flat_map (fun p => match snd p with
                                             | text t _ _ => [t]
                                             | _ => []
                                             end)
                                   (map (fun o => (onPage o, shape o)) (out d))).
  { intros d. unfold textRuns. induction (out d) as [|o l IH]; cbn; [reflexivity|].
    now rewrite IH. }
  now rewrite !E, H.
Qed.

(** C9: two runs of [renderToPdf] on the same HTML, on two fresh surfaces of
    the same page size, give the same number of pages, the same shapes on
    the same pages in the same order, and so the same number of text runs,
    whatever the graphics states of the two surfaces are; when these are
    equal too, the two results are equal. *)
Theorem layout_deterministic (d1 d2 : jsPDF) (html : jsstring) :
  fresh d1 -> fresh d2 -> pageSize d1 = pageSize d2 ->
  let r1 := renderToPdf splitTextToSize parseFirstElement d1 html in
  let r2 := renderToPdf splitTextToSize parseFirstElement d2 html in
  numPages r1 = numPages r2
  /\ map (fun o => (onPage o, shape o)) (out r1)
     = map (fun o => (onPage o, shape o)) (out r2)
  /\ List.length (textRuns r1) = List.length (textRuns r2)
  /\ (gs d1 = gs d2 -> r1 = r2).
Proof.
  intros [N1 O1] [N2 O2] P r1 r2.
  assert (S0 : skeleton d1 = skeleton d2).
  { unfold skeleton. now rewrite N1, N2, O1, O2, P. }
  assert (S : skeleton r1 = skeleton r2).
  { subst r1 r2. unfold renderToPdf.
    destruct (parseFirstElement _) as [root|]; [|exact S0].
    unfold layout, getWidth, getHeight. rewrite P.
    apply (alike_processRoot splitTextToSize (fst (pageSize d2)) (snd (pageSize d2))
             root (initialState d1) (initialState d2)).
    repeat split; assumption. }
  split; [|split; [|split]].
  - unfold skeleton in S. now injection S.
  - unfold skeleton in S. now injection S.
  - now rewrite (textRuns_skeleton _ _ S).
  - intros G. subst r1 r2. f_equal.
    destruct d1, d2. cbn in *. congruence.
Qed.

End Determinism.

(* ------------------------------------------------------------------ *)
(** ** Instances *)

Lemma empty_markdown_rejected_first_witness :
  downloadMarkdownAsPdf wrapNone parseNothing remarkIdentity sanitizeIdentity
                        sampleDate (js "  " ++ [newline]) defaultFilenamePrefix
  = ([ConsoleLog unit "[PDF] Starting PDF generation..."],
     inl (EmptyMarkdownError unit defaultMessage))
  /\ snd (downloadMarkdownAsPdf wrapNone parseNothing remarkIdentity sanitizeIdentity
                                sampleDate (js "# a") defaultFilenamePrefix)
     <> inl (EmptyMarkdownError unit defaultMessage).
Proof.
  split.
  - apply (empty_markdown_rejected_first wrapNone parseNothing unit remarkIdentity
             sanitizeIdentity sampleDate (js "  " ++ [newline])
             defaultFilenamePrefix).
    reflexivity.
  - apply (empty_markdown_rejected_first wrapNone parseNothing unit remarkIdentity
             sanitizeIdentity sampleDate (js "# a") defaultFilenamePrefix).
    vm_compute. discriminate.
Defined.

Lemma checked_shapes_within_page_witness :
  Forall (placed (getHeight newLetterDoc))
         (out (renderToPdf wrapNone (fun _ => Some quoteDoc) newLetterDoc []))
  /\ Forall (checked (getHeight newLetterDoc)
                     (out (renderToPdf wrapNone (fun _ => Some tableAndRule)
                                       newLetterDoc [])))
            (out (renderToPdf wrapNone (fun _ => Some tableAndRule) newLetterDoc [])).
Proof.
  split.
  - apply (checked_shapes_within_page wrapNone (fun _ => Some quoteDoc) newLetterDoc []).
    + vm_compute. discriminate.
    + constructor.
    + constructor.
  - apply (checked_shapes_within_page wrapNone (fun _ => Some tableAndRule)
             newLetterDoc []).
    + vm_compute. discriminate.
    + constructor.
    + constructor.
Defined.

(** The rule of a block quote that opens a document starts two points above
    the top margin, and the background of a code block that starts a page
    five points above it. *)
Lemma shapes_outside_the_band :
  ~ Forall (withinBand (getHeight newLetterDoc))
           (out (layout wrapNone quoteDoc newLetterDoc))
  /\ ~ Forall (withinBand (getHeight newLetterDoc))
              (out (layout wrapNone rulesThenCode newLetterDoc)).
Proof.
  split; intros H; rewrite Forall_forall in H.
  - assert (B : withinBand (getHeight newLetterDoc)
                  (mkDrawn 1
                     (mkGstate "helvetica" "italic" 11 (0, 0, 0)%Z (0, 0, 0)%Z
                               (180, 180, 180)%Z 3)
                     (line 58 48 58 68.4))).
    { apply H. vm_compute. right. left. reflexivity. }
    destruct B as [[B _] _]. vm_compute in B. apply B. reflexivity.
  - assert (B : withinBand (getHeight newLetterDoc)
                  (mkDrawn 2
                     (mkGstate "helvetica" "normal" 16 (0, 0, 0)%Z (245, 245, 245)%Z
                               (200, 200, 200)%Z 1)
                     (roundedRect 50 45 512 34.0 4 4 "F"))).
    { apply H. vm_compute. do 23 right. left. reflexivity. }
    destruct B as [B _]. vm_compute in B. apply B. reflexivity.
Qed.

Lemma ordered_items_numbered_by_position_witness :
  (exists pfx rest baseline,
      out (doc (processNode wrapNone 612 792 (Some "div")
                  (ElementNode "ol" [("start", js "7")]
                     ([nl; el "li" [TextNode (js "x")]; nl]
                      ++ ElementNode "li" [] [TextNode (js "y")] :: [nl]))
                  (initialState newLetterDoc)))
      = out (doc (fold_left (fun s c => processNode wrapNone 612 792 (Some "ol") c s)
                            [nl; el "li" [TextNode (js "x")]; nl]
                            (enterList (initialState newLetterDoc))))
        ++ pfx :: rest
      /\ shape pfx = text (js "2.") (MARGIN + inject_Z 0 * 20)%Q baseline)
  /\ (exists pfx rest baseline,
         out (doc (processNode wrapNone 612 792 (Some "div")
                     (ElementNode "ol" []
                        ([nl] ++ ElementNode "li" [("class", js "task-list-item")]
                                   [ElementNode "input"
                                      [("type", js "checkbox"); ("disabled", [])] [];
                                    TextNode (js " x")] :: [nl]))
                     (initialState newLetterDoc)))
         = out (doc (fold_left (fun s c => processNode wrapNone 612 792 (Some "ol") c s)
                               [nl] (enterList (initialState newLetterDoc))))
           ++ pfx :: rest
         /\ shape pfx = text (js "☐") (MARGIN + inject_Z 0 * 20)%Q baseline)
  /\ map shape (out (layout wrapNone orderedDoc newLetterDoc))
     = [text (js "1.") 50 50; text (js "x") 65 50;
        text (js "2.") 50 65.4; text (js "y") 65 65.4]%Q.
Proof.
  split; [|split].
  - apply (proj1 (ordered_items_numbered_by_position wrapNone) 612 792 (Some "div")
             [("start", js "7")] [nl; el "li" [TextNode (js "x")]; nl] []
             [TextNode (js "y")] [nl] (initialState newLetterDoc)).
    + repeat constructor; discriminate.
    + reflexivity.
    + vm_compute. discriminate.
  - apply (proj1 (proj2 (ordered_items_numbered_by_position wrapNone)) 612 792
             (Some "div") [] [nl] [("class", js "task-list-item")]
             [ElementNode "input" [("type", js "checkbox"); ("disabled", [])] [];
              TextNode (js " x")]
             [nl] (initialState newLetterDoc)
             (ElementNode "input" [("type", js "checkbox"); ("disabled", [])] [])).
    + reflexivity.
    + vm_compute. discriminate.
  - apply (proj2 (proj2 (ordered_items_numbered_by_position wrapNone)));
      reflexivity.
Defined.

(** The only item of [1. [ ] x] is drawn with the empty box, not with [1.]. *)
Lemma task_item_in_ordered_list_has_no_number :
  textRuns (layout wrapNone orderedTaskDoc newLetterDoc) = [js "☐"; js "x"]
  /\ ~ In (js "1.") (textRuns (layout wrapNone orderedTaskDoc newLetterDoc)).
Proof.
  split.
  - vm_compute. reflexivity.
  - vm_compute. intuition discriminate.
Qed.

Lemma code_lines_checked_one_by_one_witness :
  (numPages (doc (initialState newLetterDoc))
   < numPages (doc (pre 612 792 longCode (initialState newLetterDoc))))%nat.
Proof.
  destruct (code_lines_checked_one_by_one 612 792 longCode
              (initialState newLetterDoc))
    as (background & new & _ & _ & _ & H).
  - vm_compute. discriminate.
  - vm_compute. discriminate.
  - vm_compute. discriminate.
  - apply H. vm_compute. reflexivity.
Defined.

Lemma table_rows_rendering_witness :
  table wrapNone 612 792 sampleTable (initialState newLetterDoc)
  = addSpace 10
      (fold_left (tableRow wrapNone 612 792 3 (contentWidth 612 / ofNat 3)
                           (getLineHeight FONT_SIZE.BODY + 12))
                 [headerRow; bodyRow] (addSpace 10 (initialState newLetterDoc))).
Proof.
  apply (proj1 (table_rows_rendering wrapNone 612 792) sampleTable
           (initialState newLetterDoc) headerRow [bodyRow]).
  reflexivity.
Defined.

Lemma bullets_and_indent_witness :
  itemPrefix (Some "ul") (el "li" [TextNode (js "a")]) (Some 1%nat) = js "•"
  /\ listDepth (fold_left (fun s c => processNode wrapNone 612 792 (Some "ul") c s)
                          [nl] (enterList (initialState newLetterDoc)))
     = (listDepth (initialState newLetterDoc) + 1)%Z
  /\ map shape (out (layout wrapNone bulletDoc newLetterDoc))
  = [text (js "•") 50 50; text (js "a") 65 50;
     text (js "•") 50 65.4; text (js "b") 65 65.4;
     text (js "•") 50 80.80; text (js "c") 65 80.80]%Q
  /\ map shape (out (layout wrapNone nestedDoc newLetterDoc))
     = [text (js "•") 50 50; text (js "a") 65 50;
        text (js "•") 70 65.4; text (js "b") 85 65.4]%Q.
Proof.
  split; [|split].
  - apply (proj1 (proj2 (proj2 (bullets_and_indent wrapNone)))). reflexivity.
  - apply (proj1 (proj2 (bullets_and_indent wrapNone))). reflexivity.
  - apply (proj2 (proj2 (proj2 (bullets_and_indent wrapNone)))); reflexivity.
Defined.

Lemma layout_deterministic_witness :
  numPages (renderToPdf wrapNone (fun _ => Some bulletDoc) newLetterDoc [])
  = numPages (renderToPdf wrapNone (fun _ => Some bulletDoc) redLetterDoc [])
  /\ List.length (textRuns (renderToPdf wrapNone (fun _ => Some bulletDoc) newLetterDoc []))
     = List.length (textRuns (renderToPdf wrapNone (fun _ => Some bulletDoc) redLetterDoc [])).
Proof.
  destruct (layout_deterministic wrapNone (fun _ => Some bulletDoc)
              newLetterDoc redLetterDoc []) as (A & _ & B & _).
  - split; reflexivity.
  - split; reflexivity.
  - reflexivity.
  - split; [exact A | exact B].
Defined.

Lemma list_state_balanced_witness :
  listCounters (processNode wrapNone 612 792 (Some "div")
                  (el "ul" [el "li" [TextNode (js "a")]])
                  (initialState newLetterDoc))
  = listCounters (initialState newLetterDoc)
  /\ listInvariant (processNode wrapNone 612 792 (Some "div")
                      (el "ul" [el "li" [TextNode (js "a")]])
                      (initialState newLetterDoc)).
Proof.
  destruct (proj1 (list_state_balanced wrapNone 612 792) (Some "div")
              (el "ul" [el "li" [TextNode (js "a")]]) (initialState newLetterDoc))
    as (_ & _ & _ & _ & _ & A & B).
  split.
  - apply A. reflexivity.
  - apply B. reflexivity.
Defined.

(** An [li] leaves the counter of its list incremented: the stack is not
    what it was on entry. *)
Lemma item_changes_the_counter :
  listCounters (enterList (initialState newLetterDoc)) = [O]
  /\ listCounters (processNode wrapNone 612 792 (Some "ol")
                     (el "li" [TextNode (js "x")])
                     (enterList (initialState newLetterDoc))) = [1%nat]
  /\ listCounters (processNode wrapNone 612 792 (Some "ol")
                     (el "li" [TextNode (js "x")])
                     (enterList (initialState newLetterDoc)))
     <> listCounters (enterList (initialState newLetterDoc)).
Proof.
  split; [reflexivity|]. split; [vm_compute; reflexivity|].
  vm_compute. discriminate.
Qed.

(* ================================================================== *)
(** * Further properties *)

(** ** LaTeX normalizer *)

Lemma replaceSpans_unclosed (f : jsstring -> jsstring) (rest run : jsstring) :
  ~ In dollar rest ->
  replaceSpans f (Some run) rest = dollar :: run ++ rest.
Proof.
  revert run. induction rest as [|c r IH]; intros run H; cbn [replaceSpans].
  - now rewrite app_nil_r.
  - destruct (N.eqb_spec c dollar) as [->|_].
    + exfalso. apply H. now left.
    + rewrite IH by (intros Hin; apply H; now right).
      now rewrite <- app_assoc.
Qed.

(** X1: a text with no dollar sign, or with a single one, is returned as it is:
    a span needs an opening and a closing dollar. *)
Theorem text_without_span_unchanged (before after : jsstring) :
  ~ In dollar before -> ~ In dollar after ->
  convertLatexToUnicode before = before
  /\ convertLatexToUnicode (before ++ dollar :: after) = before ++ dollar :: after.
Proof.
  intros Hb Ha. unfold convertLatexToUnicode. split.
  - rewrite <- (app_nil_r before) at 1.
    rewrite replaceSpans_outside by assumption. cbn. apply app_nil_r.
  - rewrite replaceSpans_outside by assumption. f_equal.
    cbn [replaceSpans]. rewrite N.eqb_refl.
    now rewrite replaceSpans_unclosed.
Qed.

Lemma text_without_span_unchanged_witness :
  convertLatexToUnicode (js "price: ") = js "price: "
  /\ convertLatexToUnicode (js "price: $5 \alpha") = js "price: $5 \alpha".
Proof.
  exact (text_without_span_unchanged (js "price: ") (js "5 \alpha")
           ltac:(vm_compute; intuition discriminate)
           ltac:(vm_compute; intuition discriminate)).
Defined.

(** X2: display math is not set apart: in [$$...$$] the inner [$...$] is taken
    as a span and converted, the first dollar is kept, and the last one is
    left to open a span with what follows. *)
Theorem display_math_converted_inside (before latex rest : jsstring) :
  ~ In dollar before -> ~ In dollar latex -> latex <> [] ->
  convertLatexToUnicode
    (before ++ dollar :: dollar :: latex ++ dollar :: dollar :: rest)
  = before ++ dollar :: convertSpan latex
    ++ convertLatexToUnicode (dollar :: rest).
Proof.
  intros Hb Hl Hne. unfold convertLatexToUnicode.
  rewrite replaceSpans_outside by assumption. f_equal.
  cbn [replaceSpans]. rewrite N.eqb_refl. cbn [replaceSpans]. f_equal.
  etransitivity;
    [exact (replaceSpans_inside convertSpan latex [] (dollar :: rest) Hl Hne)|].
  cbn [replaceSpans app]. now rewrite N.eqb_refl.
Qed.

Lemma display_math_converted_inside_witness :
  convertLatexToUnicode (js "$$\alpha$$") = js "$α$".
Proof.
  exact (display_math_converted_inside [] (js "\alpha") []
           (fun H => H)
           ltac:(vm_compute; intuition discriminate)
           ltac:(discriminate)).
Defined.

(** X3: every macro of the table, alone in a span, is replaced by its own glyph:
    in the order the table is declared in, no entry is spoilt by an earlier
    one that matches a part of it. *)
Theorem every_macro_gives_its_glyph (entry : string * string) :
  In entry LATEX_TO_UNICODE ->
  convertLatexToUnicode (dollar :: js (fst entry) ++ [dollar]) = js (snd entry).
Proof.
  intros H.
  assert (C : forallb
                (fun e => JsString.eqb
                            (convertLatexToUnicode (dollar :: js (fst e) ++ [dollar]))
                            (js (snd e)))
                LATEX_TO_UNICODE = true) by (vm_compute; reflexivity).
  rewrite forallb_forall in C. specialize (C entry H).
  unfold JsString.eqb in C.
  destruct (list_eq_dec N.eq_dec _ _) as [E|E]; [exact E | discriminate C].
Qed.

Lemma every_macro_gives_its_glyph_witness :
  convertLatexToUnicode (js "$\leftrightarrow$") = js "↔".
Proof.
  exact (every_macro_gives_its_glyph ("\leftrightarrow", "↔")
           ltac:(unfold LATEX_TO_UNICODE; simpl; tauto)).
Defined.

Lemma trimStart_incl (s : jsstring) (c : jschar) : In c (trimStart s) -> In c s.
Proof.
  induction s as [|a r IH]; cbn [trimStart]; [tauto|].
  destruct (isWhiteSpace a); [intros H; right; now apply IH | tauto].
Qed.

Lemma trim_incl (s : jsstring) (c : jschar) : In c (trim s) -> In c s.
Proof.
  unfold trim, trimEnd. intros H. apply in_rev, trimStart_incl in H.
  apply in_rev in H. now apply trimStart_incl.
Qed.

(** X4: a brace is left in the replacement of a span only when the whole span
    falls back to its captured text. *)
Theorem braces_only_in_fallback (latex : jsstring) (c : jschar) :
  In c (convertSpan latex) -> c = 123%N \/ c = 125%N ->
  convertSpan latex = latex.
Proof.
  unfold convertSpan. intros Hin Hc.
  destruct (strippedSpan latex) as [|a r] eqn:E; [reflexivity|].
  exfalso. rewrite <- E in Hin. unfold strippedSpan in Hin.
  apply trim_incl in Hin. unfold stripBraces in Hin.
  apply filter_In in Hin. destruct Hin as [_ Hin].
  destruct Hc as [-> | ->]; discriminate Hin.
Qed.

Lemma braces_only_in_fallback_witness : convertSpan (js "{}") = js "{}".
Proof.
  exact (braces_only_in_fallback (js "{}") 123%N
           ltac:(vm_compute; tauto) (or_introl eq_refl)).
Defined.

(** ** Text extraction *)

Lemma filter_concat {A} (f : A -> bool) (l : list (list A)) :
  filter f (List.concat l) = List.concat (map (filter f) l).
Proof.
  induction l as [|a l IH]; cbn [List.concat map]; [reflexivity|].
  now rewrite filter_app, IH.
Qed.

Lemma map_ext_Forall {A B} (f g : A -> B) (l : list A) :
  Forall (fun a => f a = g a) l -> map f l = map g l.
Proof.
  induction 1 as [|a l H _ IH]; cbn [map]; [reflexivity | now rewrite H, IH].
Qed.

Lemma textContent_commentFree (n : node) :
  commentFree n = true -> textContent n = descendantText n.
Proof. destruct n; [reflexivity | reflexivity | discriminate]. Qed.

(** X5: in a subtree without comment nodes [extractText] gives the text of the
    text nodes, in document order, with nothing lost and nothing added but
    the backticks around inline code, at whatever depth it is called; in a
    subtree without [code] elements it gives [textContent]. *)
Theorem extractText_keeps_text (n : node) :
  commentFree n = true ->
  forall parent depth,
    filter notBacktick (extractText parent depth n)
    = filter notBacktick (textContent n)
    /\ (codeFree n = true -> extractText parent depth n = textContent n).
Proof.
  induction n as [d|tag attrs cs IH|d] using node_ind; intros Hc parent depth.
  - cbn [extractText]. destruct (50 <? depth)%nat; split; reflexivity.
  - cbn [extractText]. destruct (50 <? depth)%nat; [split; reflexivity|].
    cbn [commentFree] in Hc. rewrite forallb_forall in Hc.
    rewrite Forall_forall in IH.
    destruct (String.eqb tag "code"
              && negb match parent with
                      | Some p => String.eqb p "pre"
                      | None => false
                      end) eqn:Ecode.
    + split.
      * cbn [filter]. rewrite filter_app. cbn. apply app_nil_r.
      * cbn [codeFree]. apply andb_true_iff in Ecode. destruct Ecode as [-> _].
        discriminate.
    + cbn [textContent descendantText]. split.
      * rewrite !filter_concat, !map_map. f_equal.
        apply map_ext_Forall, Forall_forall. intros c Hin.
        rewrite (proj1 (IH c Hin (Hc c Hin) (Some tag) (S depth))).
        now rewrite textContent_commentFree by (apply Hc, Hin).
      * cbn [codeFree]. intros Hk. apply andb_true_iff in Hk.
        destruct Hk as [_ Hk]. rewrite forallb_forall in Hk. f_equal.
        apply map_ext_Forall, Forall_forall. intros c Hin.
        rewrite (proj2 (IH c Hin (Hc c Hin) (Some tag) (S depth)) (Hk c Hin)).
        now apply textContent_commentFree, Hc.
  - discriminate.
Qed.

Lemma extractText_keeps_text_witness :
  extractText None 0
    (el "p" [TextNode (js "a "); el "strong" [TextNode (js "b")]; TextNode (js " c")])
  = js "a b c".
Proof.
  exact (proj2 (extractText_keeps_text
                  (el "p" [TextNode (js "a "); el "strong" [TextNode (js "b")];
                           TextNode (js " c")])
                  eq_refl None 0%nat) eq_refl).
Defined.

(** ** The walk: tags without a case *)

Lemma fold_left_id {A B} (step : A -> B -> A) (l : list B) (a : A) :
  (forall x b, In b l -> step x b = x) -> fold_left step l a = a.
Proof.
  induction l as [|b l IH]; intros H; cbn [fold_left]; [reflexivity|].
  rewrite (H a b) by now left.
  apply IH. intros x c Hc. apply H. now right.
Qed.

(** ** The surface is only extended *)

Lemma docSteps_trans d1 d2 d3 : docSteps d1 d2 -> docSteps d2 d3 -> docSteps d1 d3.
Proof.
  intros A B. induction B; [exact A | | |]; constructor; auto.
Qed.

Lemma docSteps_withGs g d : docSteps d (withGs g d).
Proof. repeat constructor. Qed.

Lemma docSteps_draw p d : docSteps d (draw p d).
Proof. repeat constructor. Qed.

Lemma docSteps_addPage d : docSteps d (addPage d).
Proof. repeat constructor. Qed.

Lemma docSteps_setFontSize v d : docSteps d (setFontSize v d).
Proof. apply docSteps_withGs. Qed.

Lemma docSteps_setFont a b d : docSteps d (setFont a b d).
Proof. apply docSteps_withGs. Qed.

Lemma docSteps_setTextColor c d : docSteps d (setTextColor c d).
Proof. apply docSteps_withGs. Qed.

Lemma docSteps_setFillColor c d : docSteps d (setFillColor c d).
Proof. apply docSteps_withGs. Qed.

Lemma docSteps_setDrawColor c d : docSteps d (setDrawColor c d).
Proof. apply docSteps_withGs. Qed.

Lemma docSteps_setLineWidth w d : docSteps d (setLineWidth w d).
Proof. apply docSteps_withGs. Qed.

Lemma docSteps_fold {A} (step : jsPDF -> A -> jsPDF) (l : list A) :
  (forall d a, docSteps d (step d a)) -> forall d, docSteps d (fold_left step l d).
Proof.
  intros H. induction l as [|a l IH]; intros d; cbn [fold_left].
  - constructor.
  - eapply docSteps_trans; [apply H | apply IH].
Qed.

Lemma walks_refl s : walks s s.
Proof. constructor. Qed.

Lemma walks_trans s1 s2 s3 : walks s1 s2 -> walks s2 s3 -> walks s1 s3.
Proof. apply docSteps_trans. Qed.

Lemma walks_setY v s : walks s (setY v s).
Proof. constructor. Qed.

Lemma walks_setList d cs s : walks s (setList d cs s).
Proof. constructor. Qed.

Lemma walks_addSpace p s : walks s (addSpace p s).
Proof. constructor. Qed.

Lemma walks_onDoc f s : (forall d, docSteps d (f d)) -> walks s (onDoc f s).
Proof. intros H. apply H. Qed.

Lemma walks_checkPageBreak H h s : walks s (checkPageBreak H h s).
Proof.
  unfold checkPageBreak. destruct (Qlt_le_dec _ _); [|constructor].
  apply docSteps_addPage.
Qed.

Lemma walks_fold {A} (step : state -> A -> state) (l : list A) :
  (forall s a, In a l -> walks s (step s a)) ->
  forall s, walks s (fold_left step l s).
Proof.
  induction l as [|a l IH]; intros H s; cbn [fold_left].
  - constructor.
  - eapply walks_trans.
    + apply (H s a). now left.
    + apply IH. intros s0 b Hb. apply H. now right.
Qed.

Create HintDb walk.

#[local] Hint Resolve walks_refl walks_setY walks_setList walks_addSpace
  walks_checkPageBreak walks_onDoc docSteps_withGs docSteps_draw docSteps_addPage
  docSteps_fold docSteps_setFontSize docSteps_setFont docSteps_setTextColor
  docSteps_setFillColor docSteps_setDrawColor docSteps_setLineWidth : walk.

(** Splits a handler written as a sequence of [let]s into its steps. *)
Ltac walk_steps :=
  repeat first
    [ apply walks_refl
    | match goal with
      | |- walks ?s (fold_left _ _ ?t) =>
          apply (@walks_trans s t); [|apply walks_fold; intros; auto with walk]
      | |- walks ?s (if ?b then _ else _) => destruct b
      | |- walks ?s (match ?b with _ => _ end) => destruct b
      | |- walks ?s (?f ?t) =>
          apply (@walks_trans s t); [|solve [auto with walk]]
      end ].

Lemma ascending_app (l1 l2 : list nat) (m : nat) :
  ascending l1 -> ascending l2 ->
  Forall (fun a => a <= m)%nat l1 -> Forall (le m) l2 ->
  ascending (l1 ++ l2).
Proof.
  intros A1 A2 B1 B2. induction l1 as [|a l1 IH]; cbn [app ascending]; [exact A2|].
  destruct A1 as [A A1]. inversion B1 as [|? ? Ha B1']; subst. split.
  - apply Forall_app. split; [exact A|].
    eapply Forall_impl; [|exact B2]. cbn. intros; lia.
  - now apply IH.
Qed.

Lemma extends_refl d : extends d d.
Proof.
  split; [reflexivity|]. split; [lia|]. exists [].
  rewrite app_nil_r. repeat split; constructor.
Qed.

(** Whatever the engine's steps are, they only extend the surface. *)
Lemma docSteps_extends d d' : docSteps d d' -> extends d d'.
Proof.
  induction 1 as [d|d d' g _ IH|d d' p _ IH|d d' _ IH].
  - apply extends_refl.
  - exact IH.
  - destruct IH as (A & B & new & C & D & E). split; [exact A|].
    split; [exact B|]. exists (new ++ [mkDrawn (numPages d') (gs d') p]).
    cbn [out draw numPages]. split; [now rewrite C, app_assoc|]. split.
    + apply Forall_app. split; [exact D|]. constructor; [cbn; lia | constructor].
    + rewrite map_app. apply (ascending_app _ _ (numPages d')); auto.
      * cbn. split; constructor.
      * rewrite Forall_map. eapply Forall_impl; [|exact D]. cbn. intros; lia.
      * cbn. constructor; [lia | constructor].
  - destruct IH as (A & B & new & C & D & E). split; [exact A|].
    split; [cbn; lia|]. exists new. cbn [out addPage numPages].
    split; [exact C|]. split; [|exact E].
    eapply Forall_impl; [|exact D]. cbn. intros; lia.
Qed.

Lemma extends_pagesInOrder d d' : extends d d' -> pagesInOrder d -> pagesInOrder d'.
Proof.
  intros (A & B & new & C & D & E) (P1 & P2 & P3). split; [lia|].
  rewrite C. split.
  - apply Forall_app. split.
    + eapply Forall_impl; [|exact P2]. cbn. intros; lia.
    + eapply Forall_impl; [|exact D]. cbn. intros; lia.
  - rewrite map_app. apply (ascending_app _ _ (numPages d)); auto.
    + rewrite Forall_map. eapply Forall_impl; [|exact P2]. cbn. intros; lia.
    + rewrite Forall_map. eapply Forall_impl; [|exact D]. cbn. intros; lia.
Qed.

Section SurfaceSteps.

Variable splitTextToSize : string -> string -> Q -> jsstring -> Q -> list jsstring.
Variables pageWidth pageHeight : Q.

Local Abbreviation checkPageBreak := (checkPageBreak pageHeight).
Local Abbreviation renderLine := (renderLine pageHeight).
Local Abbreviation renderText := (renderText splitTextToSize pageWidth pageHeight).
Local Abbreviation heading := (heading splitTextToSize pageWidth pageHeight).
Local Abbreviation paragraph := (paragraph splitTextToSize pageWidth pageHeight).
Local Abbreviation blockquote := (blockquote splitTextToSize pageWidth pageHeight).
Local Abbreviation codeLine := (codeLine pageHeight).
Local Abbreviation pre := (pre pageWidth pageHeight).
Local Abbreviation tableCell := (tableCell splitTextToSize).
Local Abbreviation tableRow := (tableRow splitTextToSize pageWidth pageHeight).
Local Abbreviation table := (table splitTextToSize pageWidth pageHeight).
Local Abbreviation hr := (hr pageWidth pageHeight).
Local Abbreviation listItem := (listItem splitTextToSize pageWidth pageHeight).
Local Abbreviation processNode := (processNode splitTextToSize pageWidth pageHeight).
Local Abbreviation processRoot := (processRoot splitTextToSize pageWidth pageHeight).
Local Abbreviation contentWidth := (contentWidth pageWidth).

(** X6: text directly inside a tag without a case of its own ([div], [span],
    [strong], ...) is not drawn: a subtree made of such tags leaves the
    document, the cursor and the list state as they are. *)
Theorem unknown_tags_draw_nothing (n : node) :
  inert n = true -> forall parent s, processNode parent n s = s.
Proof.
  induction n as [d|tag attrs cs IH|d] using node_ind; intros Hi parent s;
    try reflexivity.
  step_processNode. cbn [inert] in Hi.
  destruct (classify tag); try discriminate Hi.
  rewrite forallb_forall in Hi. rewrite Forall_forall in IH.
  apply fold_left_id. intros x c Hc. apply IH; auto.
Qed.

Lemma walks_renderLine lh x s l : walks s (renderLine lh x s l).
Proof. unfold renderLine. walk_steps. Qed.

#[local] Hint Resolve walks_renderLine : walk.

Lemma walks_renderText t size o s : walks s (renderText t size o s).
Proof. unfold renderText. walk_steps. Qed.

#[local] Hint Resolve walks_renderText : walk.

Lemma walks_heading parent n before size after s :
  walks s (heading parent n before size after s).
Proof. unfold heading. walk_steps. Qed.

Lemma walks_paragraph parent n s : walks s (paragraph parent n s).
Proof. unfold paragraph. walk_steps. Qed.

Lemma walks_blockquote parent n s : walks s (blockquote parent n s).
Proof. unfold blockquote. walk_steps. Qed.

Lemma walks_codeLine lh s l : walks s (codeLine lh s l).
Proof. unfold codeLine. walk_steps. Qed.

#[local] Hint Resolve walks_codeLine : walk.

Lemma walks_pre n s : walks s (pre n s).
Proof. unfold pre. walk_steps. Qed.

Lemma docSteps_tableCell b cw rh y0 d ic : docSteps d (tableCell b cw rh y0 d ic).
Proof. unfold tableCell. repeat constructor. Qed.

#[local] Hint Resolve docSteps_tableCell : walk.

Lemma walks_tableRow cols cw rh s row : walks s (tableRow cols cw rh s row).
Proof. unfold tableRow. walk_steps. Qed.

#[local] Hint Resolve walks_tableRow : walk.

Lemma walks_table n s : walks s (table n s).
Proof. unfold table. walk_steps. Qed.

Lemma walks_hr s : walks s (hr s).
Proof. unfold hr. walk_steps. Qed.

Lemma walks_exitList s : walks s (exitList s).
Proof.
  unfold exitList.
  match goal with |- context [if ?b then _ else _] => destruct b end; constructor.
Qed.

Lemma walks_listItem parent n s : walks s (listItem parent n s).
Proof.
  unfold listItem.
  match goal with |- context [if ?b then _ else _] => destruct b end.
  - apply (walks_renderText _ _ _
             (setList (listDepth s) (incrementTop (listCounters s)) s)).
  - constructor.
Qed.

#[local] Hint Resolve walks_heading walks_paragraph walks_blockquote walks_pre
  walks_table walks_hr : walk.

Lemma walks_processNode parent n : forall s, walks s (processNode parent n s).
Proof.
  revert parent.
  induction n as [d|tag attrs cs IH|d] using node_ind; intros parent s;
    try apply walks_refl.
  step_processNode. rewrite Forall_forall in IH.
  destruct (classify tag); try solve [auto with walk].
  - eapply walks_trans; [|apply walks_exitList].
    apply (walks_fold (fun s child => processNode (Some tag) child s) cs
             (fun s0 c Hc => IH c Hc (Some tag) s0) (enterList s)).
  - eapply walks_trans; [apply walks_listItem|].
    apply walks_fold. intros s0 c Hc.
    destruct c as [t|ctag cattrs ccs|t]; try apply walks_refl.
    destruct (isListTag ctag); [now apply IH | apply walks_refl].
  - apply walks_fold. intros s0 c Hc. now apply IH.
Qed.

Lemma walks_processRoot root s : walks s (processRoot root s).
Proof.
  destruct root as [t|tag attrs cs|t]; try apply walks_refl.
  step_processRoot. apply walks_fold. intros. apply walks_processNode.
Qed.

End SurfaceSteps.

Section SurfaceFacts.

Variable splitTextToSize : string -> string -> Q -> jsstring -> Q -> list jsstring.
Variable parseFirstElement : jsstring -> option node.

Lemma docSteps_renderToPdf (d : jsPDF) (html : jsstring) :
  docSteps d (renderToPdf splitTextToSize parseFirstElement d html).
Proof.
  unfold renderToPdf, layout.
  destruct (parseFirstElement _) as [root|]; [|constructor].
  apply (walks_processRoot splitTextToSize (getWidth d) (getHeight d) root
           (initialState d)).
Qed.

(** X7: the engine never edits what is on the surface already: the page size is
    kept, no page is removed, the shapes drawn before stay where they are in
    the drawing order, and the new shapes follow them, each on the page that
    was current when the engine started or on a later one, in page order. *)
Theorem surface_only_extended (d : jsPDF) (html : jsstring) :
  let d' := renderToPdf splitTextToSize parseFirstElement d html in
  pageSize d' = pageSize d /\ (numPages d <= numPages d')%nat
  /\ exists new,
       out d' = out d ++ new
       /\ Forall (fun o => (numPages d <= onPage o <= numPages d')%nat) new
       /\ ascending (map onPage new).
Proof. exact (docSteps_extends _ _ (docSteps_renderToPdf d html)). Qed.

(** X8: on a surface whose shapes are on existing pages in page order, they
    still are after the engine has run: a shape is never drawn on a page
    that does not exist, and never on a page before the one of an earlier
    shape. *)
Theorem pages_stay_in_order (d : jsPDF) (html : jsstring) :
  pagesInOrder d ->
  pagesInOrder (renderToPdf splitTextToSize parseFirstElement d html).
Proof.
  apply extends_pagesInOrder, docSteps_extends, docSteps_renderToPdf.
Qed.

End SurfaceFacts.

(** ** The pens of the text runs *)

Lemma tidyDoc_withGs (g : gstate) (d : jsPDF) :
  textColor g = textColor (gs d) -> tidyDoc d -> tidyDoc (withGs g d).
Proof. intros E [A B]. split; cbn; [congruence | exact B]. Qed.

Lemma tidyDoc_addPage (d : jsPDF) : tidyDoc d -> tidyDoc (addPage d).
Proof. intros [A B]. now split. Qed.

Lemma knownPen_draw (p : prim) (d : jsPDF) :
  match p with text _ _ _ => okText (gs d) | _ => True end ->
  Forall knownPen (out d) -> Forall knownPen (out (draw p d)).
Proof.
  intros Hp Hd. cbn. apply Forall_app. split; [exact Hd|].
  constructor; [|constructor]. unfold knownPen. cbn. destruct p; auto.
Qed.

Lemma tidyDoc_draw (p : prim) (d : jsPDF) :
  match p with text _ _ _ => okText (gs d) | _ => True end ->
  tidyDoc d -> tidyDoc (draw p d).
Proof. intros Hp [A B]. split; [exact A | now apply knownPen_draw]. Qed.

Lemma tidyDoc_fold {A} (step : jsPDF -> A -> jsPDF) (l : list A) :
  (forall d a, tidyDoc d -> tidyDoc (step d a)) ->
  forall d, tidyDoc d -> tidyDoc (fold_left step l d).
Proof.
  intros H. induction l as [|a l IH]; intros d Hd; cbn [fold_left]; auto.
Qed.

Lemma tidy_fold {A} (step : state -> A -> state) (l : list A) :
  (forall s a, In a l -> tidy s -> tidy (step s a)) ->
  forall s, tidy s -> tidy (fold_left step l s).
Proof.
  induction l as [|a l IH]; intros H s Hs; cbn [fold_left].
  - exact Hs.
  - apply IH.
    + intros s0 b Hb. apply H. now right.
    + apply H; [now left | exact Hs].
Qed.

Lemma pennedWith_fold {A} (g : gstate) (step : state -> A -> state) (l : list A) :
  (forall s a, pennedWith g s -> pennedWith g (step s a)) ->
  forall s, pennedWith g s -> pennedWith g (fold_left step l s).
Proof.
  intros H. induction l as [|a l IH]; intros s Hs; cbn [fold_left]; auto.
Qed.

Lemma tidy_setY v s : tidy s -> tidy (setY v s).
Proof. exact (fun H => H). Qed.

Lemma tidy_addSpace p s : tidy s -> tidy (addSpace p s).
Proof. exact (fun H => H). Qed.

Lemma tidy_setList d cs s : tidy s -> tidy (setList d cs s).
Proof. exact (fun H => H). Qed.

Lemma tidy_onDoc f s : (forall d, tidyDoc d -> tidyDoc (f d)) -> tidy s -> tidy (onDoc f s).
Proof. intros H. apply H. Qed.

Lemma tidy_checkPageBreak H h s : tidy s -> tidy (checkPageBreak H h s).
Proof.
  unfold checkPageBreak. destruct (Qlt_le_dec _ _); [|exact (fun A => A)].
  apply tidyDoc_addPage.
Qed.

Lemma tidy_setFontSize v s : tidy s -> tidy (onDoc (setFontSize v) s).
Proof. now apply tidyDoc_withGs. Qed.

Lemma tidy_setFont a b s : tidy s -> tidy (onDoc (setFont a b) s).
Proof. now apply tidyDoc_withGs. Qed.

Lemma tidy_setFillColor c s : tidy s -> tidy (onDoc (setFillColor c) s).
Proof. now apply tidyDoc_withGs. Qed.

Lemma tidy_setDrawColor c s : tidy s -> tidy (onDoc (setDrawColor c) s).
Proof. now apply tidyDoc_withGs. Qed.

Lemma tidy_setLineWidth w s : tidy s -> tidy (onDoc (setLineWidth w) s).
Proof. now apply tidyDoc_withGs. Qed.

Lemma tidy_draw p s :
  match p with text _ _ _ => okText (gs (doc s)) | _ => True end ->
  tidy s -> tidy (onDoc (draw p) s).
Proof. apply tidyDoc_draw. Qed.

(** The steps that keep the pens known whatever the state is. *)
Ltac tidy_steps :=
  repeat first
    [ assumption
    | apply tidy_addSpace | apply tidy_setY | apply tidy_setList
    | apply tidy_checkPageBreak
    | apply tidy_setFontSize | apply tidy_setFont | apply tidy_setFillColor
    | apply tidy_setDrawColor | apply tidy_setLineWidth
    | apply tidy_draw; [exact I|] ].

Section PenFacts.

Variable splitTextToSize : string -> string -> Q -> jsstring -> Q -> list jsstring.
Variables pageWidth pageHeight : Q.

Local Abbreviation checkPageBreak := (checkPageBreak pageHeight).
Local Abbreviation renderLine := (renderLine pageHeight).
Local Abbreviation renderText := (renderText splitTextToSize pageWidth pageHeight).
Local Abbreviation heading := (heading splitTextToSize pageWidth pageHeight).
Local Abbreviation paragraph := (paragraph splitTextToSize pageWidth pageHeight).
Local Abbreviation blockquote := (blockquote splitTextToSize pageWidth pageHeight).
Local Abbreviation codeLine := (codeLine pageHeight).
Local Abbreviation pre := (pre pageWidth pageHeight).
Local Abbreviation tableCell := (tableCell splitTextToSize).
Local Abbreviation tableRow := (tableRow splitTextToSize pageWidth pageHeight).
Local Abbreviation table := (table splitTextToSize pageWidth pageHeight).
Local Abbreviation hr := (hr pageWidth pageHeight).
Local Abbreviation listItem := (listItem splitTextToSize pageWidth pageHeight).
Local Abbreviation processNode := (processNode splitTextToSize pageWidth pageHeight).
Local Abbreviation processRoot := (processRoot splitTextToSize pageWidth pageHeight).
Local Abbreviation contentWidth := (contentWidth pageWidth).

Lemma pennedWith_checkPageBreak g h s :
  pennedWith g s -> pennedWith g (checkPageBreak h s).
Proof.
  intros [A B]. split.
  - now rewrite gs_checkPageBreak.
  - now rewrite out_checkPageBreak.
Qed.

Lemma pennedWith_text g t x s :
  okText g -> pennedWith g s -> pennedWith g (onDoc (draw (text t x (y s))) s).
Proof.
  intros Hg [A B]. split; [exact A|].
  apply knownPen_draw; [now rewrite A | exact B].
Qed.

Lemma pennedWith_renderLine g lh x s l :
  okText g -> pennedWith g s -> pennedWith g (renderLine lh x s l).
Proof.
  intros Hg Hs. unfold renderLine.
  apply (pennedWith_text g l x (checkPageBreak lh s) Hg).
  now apply pennedWith_checkPageBreak.
Qed.

Lemma pennedWith_codeLine g lh s l :
  okText g -> pennedWith g s -> pennedWith g (codeLine lh s l).
Proof.
  intros Hg Hs. unfold codeLine.
  apply (pennedWith_text g _ (MARGIN + 10) (checkPageBreak lh s) Hg).
  now apply pennedWith_checkPageBreak.
Qed.

Lemma tidy_renderText t size o s :
  In size [FONT_SIZE.H1; FONT_SIZE.H2; FONT_SIZE.H3; FONT_SIZE.H4; FONT_SIZE.BODY] ->
  color o = (0, 0, 0)%Z \/ (color o = (100, 100, 100)%Z /\ styleOf o = "italic") ->
  tidy s -> tidy (renderText t size o s).
Proof.
  intros Hsize Hcolor [A B]. rewrite renderText_wraps. cbv zeta.
  fold (styleOf o).
  set (s0 := onDoc (setTextColor (color o)) _).
  assert (G : okText (gs (doc s0))).
  { left. subst s0. cbn. auto. }
  assert (P0 : pennedWith (gs (doc s0)) s0) by (split; [reflexivity | exact B]).
  set (s1 := if truthy (prefix o) then _ else s0).
  assert (P1 : pennedWith (gs (doc s0)) s1).
  { subst s1. destruct (truthy (prefix o)); [|exact P0].
    apply (pennedWith_text _ _ _ (checkPageBreak (getLineHeight size) s0) G).
    now apply pennedWith_checkPageBreak. }
  match goal with
  | |- tidy (onDoc _ (fold_left ?step ?lines s1)) =>
      destruct (pennedWith_fold (gs (doc s0)) step lines
                  (fun s l => pennedWith_renderLine _ _ _ s l G) s1 P1) as [_ F]
  end.
  split; [reflexivity | exact F].
Qed.

Lemma tidy_heading parent n before size after s :
  In size [FONT_SIZE.H1; FONT_SIZE.H2; FONT_SIZE.H3; FONT_SIZE.H4; FONT_SIZE.BODY] ->
  tidy s -> tidy (heading parent n before size after s).
Proof.
  intros Hs H. unfold heading. apply tidy_addSpace.
  destruct (truthy _); [|exact H].
  apply tidy_renderText; [exact Hs | now left | exact H].
Qed.

Lemma tidy_paragraph parent n s : tidy s -> tidy (paragraph parent n s).
Proof.
  intros H. unfold paragraph. destruct (truthy _); [|exact H].
  apply tidy_addSpace.
  apply tidy_renderText; [cbn; tauto | now left | exact H].
Qed.

Lemma tidy_blockquote parent n s : tidy s -> tidy (blockquote parent n s).
Proof.
  intros H. unfold blockquote. destruct (truthy _); [|exact H].
  cbv zeta. tidy_steps.
  apply tidy_renderText; [cbn; tauto | right; split; reflexivity | exact H].
Qed.

Lemma tidy_pre n s : tidy s -> tidy (pre n s).
Proof.
  intros [A B]. unfold pre. destruct (truthy _); [|now split].
  cbv zeta. apply tidy_addSpace, tidy_setY.
  match goal with
  | |- tidy (fold_left ?step ?lines ?s0) =>
      assert (G : okText (gs (doc s0)));
      [|destruct (pennedWith_fold (gs (doc s0)) step lines
                    (fun s l => pennedWith_codeLine _ _ s l G) s0) as [E F]]
  end.
  - right. cbn. rewrite gs_checkPageBreak. cbn. auto.
  - split; [reflexivity|].
    cbn [doc onDoc setY out setFontSize setFont withGs].
    apply knownPen_draw; [exact I|].
    cbn [doc onDoc out setFillColor withGs]. rewrite out_checkPageBreak. exact B.
  - split; [|exact F]. rewrite E. cbn. rewrite gs_checkPageBreak. exact A.
Qed.

Lemma tidyDoc_tableCell b cw rh y0 d ic :
  tidyDoc d -> tidyDoc (tableCell b cw rh y0 d ic).
Proof.
  intros [A B]. unfold tableCell. apply tidyDoc_draw.
  - left. cbn. rewrite A. tauto.
  - split; [exact A | exact B].
Qed.

Lemma tidy_tableRow cols cw rh s row : tidy s -> tidy (tableRow cols cw rh s row).
Proof.
  intros H. unfold tableRow. cbv zeta. apply tidy_setY.
  apply tidy_onDoc.
  { apply tidyDoc_fold. intros d i Hd. now apply tidyDoc_draw. }
  tidy_steps.
  apply tidy_onDoc.
  { apply tidyDoc_fold. intros d ic Hd. now apply tidyDoc_tableCell. }
  destruct (querySelector (hasTag "th") row); tidy_steps.
Qed.

Lemma tidy_table n s : tidy s -> tidy (table n s).
Proof.
  intros H. unfold table. cbv zeta.
  destruct (querySelectorAll (hasTag "tr") n) as [|row0 rows]; [exact H|].
  apply tidy_addSpace. apply tidy_fold; [|exact H].
  intros s0 r _. apply tidy_tableRow.
Qed.

Lemma tidy_hr s : tidy s -> tidy (hr s).
Proof. intros H. unfold hr. cbv zeta. tidy_steps. Qed.

Lemma tidy_exitList s : tidy s -> tidy (exitList s).
Proof.
  intros H. unfold exitList.
  match goal with |- context [if ?b then _ else _] => destruct b end; exact H.
Qed.

Lemma tidy_listItem parent n s : tidy s -> tidy (listItem parent n s).
Proof.
  intros H. unfold listItem.
  match goal with |- context [if ?b then _ else _] => destruct b end; [|exact H].
  apply tidy_renderText; [cbn; tauto | now left | exact H].
Qed.

Lemma tidy_processNode parent n : forall s, tidy s -> tidy (processNode parent n s).
Proof.
  revert parent.
  induction n as [d|tag attrs cs IH|d] using node_ind; intros parent s Hs;
    try exact Hs.
  step_processNode. rewrite Forall_forall in IH.
  destruct (classify tag).
  - apply tidy_heading; [cbn; tauto | exact Hs].
  - apply tidy_heading; [cbn; tauto | exact Hs].
  - apply tidy_heading; [cbn; tauto | exact Hs].
  - apply tidy_heading; [cbn; tauto | exact Hs].
  - now apply tidy_paragraph.
  - apply tidy_exitList. apply tidy_fold; [|exact Hs].
    intros s0 c Hc. now apply IH.
  - apply tidy_fold; [|now apply tidy_listItem].
    intros s0 c Hc G. destruct c as [t|ctag cattrs ccs|t]; auto.
    destruct (isListTag ctag); auto.
  - now apply tidy_blockquote.
  - now apply tidy_pre.
  - now apply tidy_table.
  - now apply tidy_hr.
  - apply tidy_fold; [|exact Hs]. intros s0 c Hc. now apply IH.
Qed.

Lemma tidy_processRoot root s : tidy s -> tidy (processRoot root s).
Proof.
  intros Hs. destruct root as [t|tag attrs cs|t]; try exact Hs.
  step_processRoot. apply tidy_fold; [|exact Hs].
  intros. now apply tidy_processNode.
Qed.

End PenFacts.


(** ** The lines of a text *)

Lemma textRuns_draw (p : prim) (d : jsPDF) :
  textRuns (draw p d)
  = textRuns d ++ match p with text t _ _ => [t] | _ => [] end.
Proof.
  unfold textRuns. cbn [out draw]. rewrite flat_map_app. cbn [flat_map shape].
  now rewrite app_nil_r.
Qed.

Section TextFacts.

Variable splitTextToSize : string -> string -> Q -> jsstring -> Q -> list jsstring.
Variables pageWidth pageHeight : Q.

Local Abbreviation checkPageBreak := (checkPageBreak pageHeight).
Local Abbreviation renderLine := (renderLine pageHeight).
Local Abbreviation renderText := (renderText splitTextToSize pageWidth pageHeight).
Local Abbreviation contentWidth := (contentWidth pageWidth).

Lemma textRuns_checkPageBreak h s :
  textRuns (doc (checkPageBreak h s)) = textRuns (doc s).
Proof. unfold textRuns. now rewrite out_checkPageBreak. Qed.

Lemma textRuns_renderLines lh x : forall lines s,
  textRuns (doc (fold_left (renderLine lh x) lines s)) = textRuns (doc s) ++ lines.
Proof.
  induction lines as [|l lines IH]; intros s; cbn [fold_left].
  - now rewrite app_nil_r.
  - rewrite IH. unfold renderLine. cbn [doc onDoc setY].
    rewrite textRuns_draw, textRuns_checkPageBreak.
    now rewrite <- app_assoc.
Qed.

(** X10: every line the text is wrapped into is drawn, once and in order, after
    the prefix if there is one, and nothing else is: a page break between
    two lines loses none. *)
Theorem wrapped_lines_all_drawn (t : jsstring) (size : Q) (o : textOptions)
  (s : state) :
  textRuns (doc (renderText t size o s))
  = textRuns (doc s)
    ++ (if truthy (prefix o) then [prefix o] else [])
    ++ splitTextToSize "helvetica" (styleOf o) size t
         (contentWidth - indent o - (if truthy (prefix o) then 15 else 0)).
Proof.
  rewrite renderText_wraps. cbv zeta. fold (styleOf o).
  change (textRuns (doc (onDoc ?f ?x))) with (textRuns (doc x)).
  rewrite textRuns_renderLines.
  destruct (truthy (prefix o)); [|reflexivity].
  cbn [doc onDoc]. rewrite textRuns_draw, textRuns_checkPageBreak.
  now rewrite <- app_assoc.
Qed.

Lemma checkPageBreak_room h s :
  h <= pageHeight - MARGIN * 2 -> y (checkPageBreak h s) + h <= pageHeight - MARGIN.
Proof.
  intros H. unfold checkPageBreak.
  destruct (Qlt_le_dec _ _) as [L|L]; cbn [y setY onDoc]; lra.
Qed.

Lemma checkPageBreak_stays h s :
  y s + h <= pageHeight - MARGIN -> checkPageBreak h s = s.
Proof.
  intros H. unfold checkPageBreak.
  destruct (Qlt_le_dec _ _) as [L|L]; [exfalso; lra | reflexivity].
Qed.

(** X11: on a page with room for a line of the text, the prefix of a list item
    and the first line of the item's text are drawn on the same page, on
    the same baseline and with the same pen, the line fifteen points to the
    right of the prefix: the page-break check made before the first line
    finds the room the check made before the prefix has left. *)
Theorem prefix_on_the_line_of_the_text (t : jsstring) (size : Q)
  (o : textOptions) (s : state) (l : jsstring) (rest : list jsstring) :
  getLineHeight size <= pageHeight - MARGIN * 2 ->
  prefix o <> [] ->
  splitTextToSize "helvetica" (styleOf o) size t (contentWidth - indent o - 15)
  = l :: rest ->
  exists page pen baseline more,
    out (doc (renderText t size o s))
    = out (doc s)
      ++ mkDrawn page pen (text (prefix o) (MARGIN + indent o) baseline)
      :: mkDrawn page pen (text l (MARGIN + indent o + 15) baseline)
      :: more.
Proof.
  intros Hroom Hp Hl. apply truthy_true in Hp.
  rewrite renderText_wraps. cbv zeta. fold (styleOf o). rewrite Hp, Hl.
  cbn [fold_left].
  set (s0 := onDoc (setTextColor (color o)) _).
  set (c := checkPageBreak (getLineHeight size) s0).
  set (s1 := onDoc (draw _) c).
  assert (E1 : checkPageBreak (getLineHeight size) s1 = s1).
  { apply checkPageBreak_stays. subst s1. cbn [y onDoc].
    subst c. now apply checkPageBreak_room. }
  unfold renderLine at 2. rewrite E1.
  match goal with
  | |- context [fold_left ?step rest ?s2] =>
      destruct (frame_fold step rest
                  (fun s l => frame_renderLine pageHeight _ _ s l) s2)
        as (_ & _ & _ & more & E)
  end.
  exists (numPages (doc c)), (gs (doc c)), (y c), more.
  cbn [doc onDoc setTextColor withGs out]. rewrite E.
  subst s1. cbn [doc onDoc setY draw out numPages gs y].
  subst c. rewrite out_checkPageBreak. subst s0.
  cbn [doc onDoc setTextColor setFont setFontSize withGs out].
  rewrite <- !app_assoc. reflexivity.
Qed.

End TextFacts.

(** ** Blocks without text *)

(** Without inline code and without comments the two readings of the text
    of a node agree. *)
Lemma extractText_plain (n : node) :
  commentFree n = true -> codeFree n = true ->
  forall parent depth, extractText parent depth n = textContent n.
Proof.
  induction n as [d|tag attrs cs IH|d] using node_ind;
    intros Hc Hk parent depth; [| |discriminate Hc].
  - cbn [extractText]. now destruct (50 <? depth)%nat.
  - cbn [extractText]. destruct (50 <? depth)%nat; [reflexivity|].
    cbn [commentFree codeFree] in Hc, Hk.
    apply andb_true_iff in Hk. destruct Hk as [Ht Hk].
    apply negb_true_iff in Ht. rewrite Ht. cbn [andb textContent descendantText].
    rewrite forallb_forall in Hc, Hk. rewrite Forall_forall in IH.
    f_equal. apply map_ext_Forall, Forall_forall. intros c Hin.
    rewrite (IH c Hin (Hc c Hin) (Hk c Hin)).
    now apply textContent_commentFree, Hc.
Qed.

Lemma blank_trim (kind : tagKind) (n : node) (parent : option string) :
  blank kind n = true ->
  trim (textContent n) = []
  /\ (kind <> KPre -> trim (extractText parent 0 n) = []).
Proof.
  unfold blank. intros H. apply andb_true_iff in H. destruct H as [Hw H].
  split; [now apply trim_nil|]. intros Hk.
  assert (C : codeFree n && commentFree n = true) by (destruct kind; congruence).
  apply andb_true_iff in C. destruct C as [C1 C2].
  rewrite (extractText_plain n C2 C1 parent 0%nat). now apply trim_nil.
Qed.

Section BlankBlocks.

Variable splitTextToSize : string -> string -> Q -> jsstring -> Q -> list jsstring.
Variables pageWidth pageHeight : Q.

Local Abbreviation heading := (heading splitTextToSize pageWidth pageHeight).
Local Abbreviation paragraph := (paragraph splitTextToSize pageWidth pageHeight).
Local Abbreviation blockquote := (blockquote splitTextToSize pageWidth pageHeight).
Local Abbreviation pre := (pre pageWidth pageHeight).
Local Abbreviation processNode := (processNode splitTextToSize pageWidth pageHeight).

(** X12: a block whose text is white space only draws nothing.  A paragraph, a
    block quote and a code block are skipped altogether, their spacing
    included; a heading still moves the cursor by the space before and
    after it.  For a code block the text is its [textContent], so a fenced
    block with nothing but white space in its [code] element is skipped. *)
Theorem blank_blocks_draw_nothing (parent : option string) (tag : string)
  (attrs : list (string * jsstring)) (cs : list node) (s : state) :
  blank (classify tag) (ElementNode tag attrs cs) = true ->
  match classify tag with
  | KP | KBlockquote | KPre => processNode parent (ElementNode tag attrs cs) s = s
  | KH1 => processNode parent (ElementNode tag attrs cs) s = setY (y s + 20 + 10) s
  | KH2 => processNode parent (ElementNode tag attrs cs) s = setY (y s + 16 + 8) s
  | KH3 => processNode parent (ElementNode tag attrs cs) s = setY (y s + 12 + 6) s
  | KH4 => processNode parent (ElementNode tag attrs cs) s = setY (y s + 10 + 4) s
  | _ => True
  end.
Proof.
  intros H. destruct (blank_trim _ _ parent H) as [T E].
  step_processNode.
  destruct (classify tag); try exact I;
    unfold heading, paragraph, blockquote, pre;
    rewrite ?T, ?E by discriminate; reflexivity.
Qed.

End BlankBlocks.

(** ** Exporter: what is saved, and what happens on a failure *)

Section ExporterTrace.

Variable splitTextToSize : string -> string -> Q -> jsstring -> Q -> list jsstring.
Variable parseFirstElement : jsstring -> option node.
Variable exn : Type.
Variables remarkProcess sanitize : jsstring -> exn + jsstring.
Variable nowISO : jsstring.

Local Abbreviation downloadMarkdownAsPdf :=
  (downloadMarkdownAsPdf splitTextToSize parseFirstElement remarkProcess
                         sanitize nowISO).

Ltac run_exporter :=
  unfold downloadMarkdownAsPdf, markdownToHtml;
  destruct (negb (truthy (trim _))) eqn:Eblank;
  [|destruct (remarkProcess _) as [e1|html] eqn:Eremark;
    [|destruct (sanitize html) as [e2|clean] eqn:Esanitize]];
  cbn [fst snd app].

(** X13: a file is saved exactly when the exporter returns normally. *)
Theorem saved_exactly_on_success (markdown filenamePrefix : jsstring) :
  (exists d filename,
      In (Save exn d filename) (fst (downloadMarkdownAsPdf markdown filenamePrefix)))
  <-> snd (downloadMarkdownAsPdf markdown filenamePrefix) = inr tt.
Proof.
  run_exporter; split; try discriminate;
    try (intros (d & f & H); cbn [In app fst snd] in H; intuition discriminate).
  intros _. eexists _, _. cbn [In app]. do 10 right. left. reflexivity.
Qed.

(** X14: whatever is saved is the layout, on a fresh letter page, of what the
    sanitizer returned for the HTML that remark returned for the normalized
    markdown; the file is named by the prefix, a dash, the first ten
    characters of the ISO date and [.pdf]. *)
Theorem saved_document_is_sanitized (markdown filenamePrefix : jsstring)
  (d : jsPDF) (filename : jsstring) :
  In (Save exn d filename) (fst (downloadMarkdownAsPdf markdown filenamePrefix)) ->
  exists html clean,
    remarkProcess (convertLatexToUnicode markdown) = inr html
    /\ sanitize html = inr clean
    /\ d = renderToPdf splitTextToSize parseFirstElement newLetterDoc clean
    /\ filename = filenamePrefix ++ js "-" ++ firstn 10 nowISO ++ js ".pdf".
Proof.
  run_exporter; intros H; cbn [In app fst snd] in H; try (intuition discriminate).
  exists html, clean. split; [reflexivity|]. split; [exact Esanitize|].
  repeat (destruct H as [H|H]; try discriminate H; try contradiction).
  injection H as <- <-. split; reflexivity.
Qed.

(** X15: what a collaborator throws is logged once, as the last thing the
    exporter does, and thrown on unchanged: nothing is rendered and nothing
    is saved, and the error is the one remark or the sanitizer raised. *)
Theorem failure_logged_and_rethrown (markdown filenamePrefix : jsstring) (e : exn) :
  snd (downloadMarkdownAsPdf markdown filenamePrefix) = inl (Thrown e) ->
  let trace := fst (downloadMarkdownAsPdf markdown filenamePrefix) in
  (exists before, trace = before ++ [ConsoleError e]
                  /\ forall e', ~ In (ConsoleError e') before)
  /\ (forall clean, ~ In (CallRenderToPdf exn clean) trace)
  /\ (forall d filename, ~ In (Save exn d filename) trace)
  /\ (remarkProcess (convertLatexToUnicode markdown) = inl e
      \/ exists html,
           remarkProcess (convertLatexToUnicode markdown) = inr html
           /\ sanitize html = inl e).
Proof.
  run_exporter; intros H; try discriminate H; injection H as <-.
  - split; [|split; [|split]].
    + eexists [_; _; _]. split; [reflexivity|]. intros e' H.
      cbn [In app fst snd] in H. intuition discriminate.
    + intros c H. cbn [In app fst snd] in H. intuition discriminate.
    + intros d f H. cbn [In app fst snd] in H. intuition discriminate.
    + now left.
  - split; [|split; [|split]].
    + eexists [_; _; _; _; _]. split; [reflexivity|]. intros e' H.
      cbn [In app fst snd] in H. intuition discriminate.
    + intros c H. cbn [In app fst snd] in H. intuition discriminate.
    + intros d f H. cbn [In app fst snd] in H. intuition discriminate.
    + right. exists html. now split.
Qed.

(** X16: the exporter and the engine together: whatever is saved is a letter
    document with at least one page, whose shapes are on existing pages in
    page order, whose text runs are in the known pens, and whose text
    runs, table rectangles, column strokes and horizontal rules lie between
    the top and the bottom margin. *)
Theorem saved_document_is_well_formed (markdown filenamePrefix : jsstring)
  (d : jsPDF) (filename : jsstring) :
  In (Save exn d filename) (fst (downloadMarkdownAsPdf markdown filenamePrefix)) ->
  pageSize d = (612, 792)%Q
  /\ pagesInOrder d
  /\ Forall knownPen (out d)
  /\ Forall (placed 792) (out d).
Proof.
  run_exporter; intros H; cbn [In app fst snd] in H; try (intuition discriminate).
  repeat (destruct H as [H|H]; try discriminate H; try contradiction).
  injection H as <- _.
  pose proof (docSteps_extends _ _
                (docSteps_renderToPdf splitTextToSize parseFirstElement
                   newLetterDoc clean)) as X.
  split; [exact (proj1 X)|]. split.
  - apply (extends_pagesInOrder _ _ X).
    split; [apply le_n | split; [constructor | exact I]].
  - unfold renderToPdf, layout.
    destruct (parseFirstElement _) as [root|]; [|split; constructor].
    split.
    + apply (tidy_processRoot splitTextToSize 612 792 root (initialState newLetterDoc)).
      split; [reflexivity | constructor].
    + apply (good_processRoot splitTextToSize 612 792
               ltac:(unfold getLineHeight, FONT_SIZE.H1, MARGIN; lra)
               root (initialState newLetterDoc)).
      split; [apply Qle_refl | constructor].
Qed.

End ExporterTrace.

(** ** The download handler of the main page *)

Section HandlerFacts.

Variable splitTextToSize : string -> string -> Q -> jsstring -> Q -> list jsstring.
Variable parseFirstElement : jsstring -> option node.
Variable exn : Type.
Variables remarkProcess sanitize : jsstring -> exn + jsstring.
Variable nowISO : jsstring.

Local Abbreviation handleDownloadPDF :=
  (MainPage.handleDownloadPDF splitTextToSize parseFirstElement remarkProcess
                              sanitize nowISO).

Ltac run_handler :=
  unfold MainPage.handleDownloadPDF, downloadMarkdownAsPdf, markdownToHtml;
  destruct (negb (truthy (trim _))) eqn:Eblank;
  [|destruct (remarkProcess _) as [e1|html] eqn:Eremark;
    [|destruct (sanitize html) as [e2|clean] eqn:Esanitize]];
  cbn [fst snd app MainPage.error MainPage.isGeneratingPdf MainPage.setError
       MainPage.setIsGeneratingPdf].

(** X17: whatever happens, the handler leaves the busy flag off; the message of
    an earlier failure never survives a run, the outcome not depending on
    the state the handler is started in; and no message is shown exactly
    when a file has been saved. *)
Theorem handler_reports_the_outcome (editorMarkdown : jsstring)
  (u : MainPage.uiState) :
  MainPage.isGeneratingPdf (snd (handleDownloadPDF editorMarkdown u)) = false
  /\ (forall u', handleDownloadPDF editorMarkdown u' = handleDownloadPDF editorMarkdown u)
  /\ (MainPage.error (snd (handleDownloadPDF editorMarkdown u)) = None
      <-> exists d filename,
            In (Save exn d filename) (fst (handleDownloadPDF editorMarkdown u))).
Proof.
  split; [|split].
  - run_handler; reflexivity.
  - intros u'. run_handler; reflexivity.
  - run_handler; split; try discriminate;
      try (intros (d & f & H); cbn [In app] in H; intuition discriminate).
    intros _. eexists _, _. cbn [In app]. do 10 right. left. reflexivity.
Qed.

(** X18: with nothing but white space in the editor the handler shows the
    message of [EmptyMarkdownError], and logs no error. *)
Theorem handler_on_empty_notes (editorMarkdown : jsstring) (u : MainPage.uiState) :
  forallb isWhiteSpace editorMarkdown = true ->
  handleDownloadPDF editorMarkdown u
  = ([ConsoleLog exn "[PDF] Starting PDF generation..."],
     MainPage.mkUi (Some defaultMessage) false).
Proof.
  intros H. apply trim_nil in H.
  unfold MainPage.handleDownloadPDF, downloadMarkdownAsPdf. rewrite H. reflexivity.
Qed.

(** X19: when remark or the sanitizer throws, the handler shows its own message,
    not the error's, and the error has been logged twice: by the exporter
    before it throws it on, and by the handler. *)
Theorem handler_on_failure (editorMarkdown : jsstring) (u : MainPage.uiState)
  (e : exn) :
  snd (downloadMarkdownAsPdf splitTextToSize parseFirstElement remarkProcess
                             sanitize nowISO editorMarkdown (js "vibescribe-notes"))
  = inl (Thrown e) ->
  MainPage.error (snd (handleDownloadPDF editorMarkdown u))
  = Some MainPage.genericMessage
  /\ exists before,
       fst (handleDownloadPDF editorMarkdown u)
       = before ++ [ConsoleError e; ConsoleError e]
       /\ forall e', ~ In (ConsoleError e') before.
Proof.
  run_handler; intros H; try discriminate H; injection H as <-.
  - split; [reflexivity|]. eexists [_; _; _]. split; [reflexivity|].
    intros e' H. cbn [In] in H. intuition discriminate.
  - split; [reflexivity|]. eexists [_; _; _; _; _]. split; [reflexivity|].
    intros e' H. cbn [In] in H. intuition discriminate.
Qed.

End HandlerFacts.

(** ** LaTeX normalizer: texts with several spans, spans without macros *)

(** X20: spans are converted from left to right, each on its own, and the text
    between them is kept as it is. *)
Theorem spans_converted_left_to_right (segments : list (jsstring * jsstring))
  (tail : jsstring) :
  Forall (fun seg => ~ In dollar (fst seg) /\ ~ In dollar (snd seg) /\ snd seg <> [])
         segments ->
  convertLatexToUnicode (withSpans inDollars segments tail)
  = withSpans convertSpan segments (convertLatexToUnicode tail).
Proof.
  unfold withSpans. induction 1 as [|[before latex] segments (A & B & C) _ IH];
    cbn [map List.concat fst snd app]; [reflexivity|].
  unfold inDollars in *. cbn [fst snd] in *.
  rewrite <- !app_assoc. cbn [app]. rewrite <- !app_assoc. cbn [app].
  rewrite convertLatexToUnicode_span by assumption.
  now rewrite IH.
Qed.

Lemma trimStart_idem (s : jsstring) : trimStart (trimStart s) = trimStart s.
Proof.
  destruct (trimStart_head s) as [E | (c & r & E & Hc)]; rewrite E.
  - reflexivity.
  - cbn [trimStart]. now rewrite Hc.
Qed.

Lemma trimStart_app_last (l : jsstring) (c : jschar) :
  isWhiteSpace c = false -> exists u, trimStart (l ++ [c]) = u ++ [c].
Proof.
  intros Hc. induction l as [|a l IH]; cbn [app trimStart].
  - rewrite Hc. now exists [].
  - destruct (isWhiteSpace a); [exact IH | now exists (a :: l)].
Qed.

Lemma trim_idem (s : jsstring) : trim (trim s) = trim s.
Proof.
  assert (T : trim s = trimEnd (trimStart s)) by reflexivity. rewrite T.
  destruct (trimStart_head s) as [E | (c & r & E & Hc)]; rewrite E.
  - reflexivity.
  - assert (X : exists u, trimEnd (c :: r) = c :: u).
    { unfold trimEnd. cbn [rev].
      destruct (trimStart_app_last (rev r) c Hc) as (u & U). rewrite U.
      rewrite rev_app_distr. now exists (rev u). }
    destruct X as (u & X). unfold trim. rewrite X at 1.
    cbn [trimStart]. rewrite Hc, <- X.
    unfold trimEnd. now rewrite rev_involutive, trimStart_idem.
Qed.

Lemma replaceLiteral_absent (p : jschar) (pat rep s : jsstring) :
  ~ In p s -> replaceLiteral (p :: pat) rep 0 s = s.
Proof.
  induction s as [|c r IH]; intros H; cbn [replaceLiteral startsWith].
  - reflexivity.
  - destruct (N.eqb_spec p c) as [->|_].
    + exfalso. apply H. now left.
    + cbn [andb]. f_equal. apply IH. intros Hin. apply H. now right.
Qed.

Lemma substituteEntries_absent (table : list (string * string)) (s : jsstring) :
  forallb (fun entry => startsWith [backslash] (js (fst entry))) table = true ->
  ~ In backslash s -> substituteEntries table s = s.
Proof.
  unfold substituteEntries. intros T H.
  induction table as [|entry table IH]; cbn [fold_left]; [reflexivity|].
  cbn [forallb] in T. apply andb_true_iff in T. destruct T as [T0 T].
  unfold replaceAll.
  destruct (js (fst entry)) as [|p pat]; [discriminate T0|].
  cbn [startsWith] in T0. rewrite andb_true_r in T0.
  apply N.eqb_eq in T0. subst p.
  rewrite replaceLiteral_absent by exact H. now apply IH.
Qed.

Lemma stripMacros_absent (s : jsstring) :
  ~ In backslash s -> stripMacros false s = s.
Proof.
  induction s as [|c r IH]; intros H; cbn [stripMacros andb]; [reflexivity|].
  destruct (N.eqb_spec c backslash) as [->|_].
  - exfalso. apply H. now left.
  - cbn [andb]. f_equal. apply IH. intros Hin. apply H. now right.
Qed.

Lemma stripBraces_absent (s : jsstring) :
  existsb isBrace s = false -> stripBraces s = s.
Proof.
  unfold stripBraces. induction s as [|c r IH]; cbn [existsb filter]; [reflexivity|].
  intros H. apply orb_false_iff in H. destruct H as [Hc Hr].
  unfold isBrace in Hc. rewrite Hc. cbn [negb]. f_equal. now apply IH.
Qed.

Lemma existsb_trim (p : jschar -> bool) (s : jsstring) :
  existsb p s = false -> existsb p (trim s) = false.
Proof.
  intros H. destruct (existsb p (trim s)) eqn:E; [|reflexivity].
  apply existsb_exists in E. destruct E as (c & Hin & Hp).
  rewrite <- H. symmetry. apply existsb_exists. exists c.
  split; [now apply trim_incl | exact Hp].
Qed.

(** X21: a span with no backslash and no brace in it, such as [$x + y$], loses
    its dollars and the white space at its ends, and nothing else. *)
Theorem plain_span_only_unwrapped (before latex rest : jsstring) :
  ~ In dollar before -> ~ In dollar latex ->
  ~ In backslash latex -> existsb isBrace latex = false ->
  trim latex <> [] ->
  convertLatexToUnicode (before ++ dollar :: latex ++ dollar :: rest)
  = before ++ trim latex ++ convertLatexToUnicode rest.
Proof.
  intros Hb Hd Hs Hbr Ht.
  rewrite convertLatexToUnicode_span; [|assumption..|].
  - do 2 f_equal. unfold convertSpan, strippedSpan.
    change (substituteTable (trim latex))
      with (substituteEntries LATEX_TO_UNICODE (trim latex)).
    assert (Hs' : ~ In backslash (trim latex))
      by (intros Hin; apply Hs; now apply trim_incl).
    rewrite substituteEntries_absent; [|vm_compute; reflexivity | exact Hs'].
    rewrite stripMacros_absent by exact Hs'.
    rewrite stripBraces_absent by now apply existsb_trim.
    rewrite trim_idem. destruct (trim latex); [congruence | reflexivity].
  - intros ->. now apply Ht.
Qed.

(** ** Tables: the strokes between the columns *)









Section TableStrokes.

Variable splitTextToSize : string -> string -> Q -> jsstring -> Q -> list jsstring.
Variables pageWidth pageHeight : Q.

Local Abbreviation checkPageBreak := (checkPageBreak pageHeight).
Local Abbreviation tableCell := (tableCell splitTextToSize).
Local Abbreviation tableRow := (tableRow splitTextToSize pageWidth pageHeight).
Local Abbreviation table := (table splitTextToSize pageWidth pageHeight).
Local Abbreviation contentWidth := (contentWidth pageWidth).





End TableStrokes.

(** ** The lines of a text, down the pages *)

Section LinesStacked.

Variable splitTextToSize : string -> string -> Q -> jsstring -> Q -> list jsstring.
Variables pageWidth pageHeight : Q.

Local Abbreviation checkPageBreak := (checkPageBreak pageHeight).
Local Abbreviation renderLine := (renderLine pageHeight).
Local Abbreviation renderText := (renderText splitTextToSize pageWidth pageHeight).
Local Abbreviation contentWidth := (contentWidth pageWidth).

Lemma renderLines_stacked (lh x : Q) : forall lines s prev t0 x0 y0,
  shape prev = text t0 x0 y0 -> y s = y0 + lh -> numPages (doc s) = onPage prev ->
  exists new,
    out (doc (fold_left (renderLine lh x) lines s)) = out (doc s) ++ new
    /\ Forall2 (fun o l => exists baseline, shape o = text l x baseline) new lines
    /\ adjacent (follows pageHeight lh) (prev :: new).
Proof.
  induction lines as [|l lines IH]; intros s prev t0 x0 y0 Hp Hy Hn;
    cbn [fold_left].
  - exists []. split; [now rewrite app_nil_r|]. split; constructor.
  - set (c := checkPageBreak lh s).
    set (o := mkDrawn (numPages (doc c)) (gs (doc c)) (text l x (y c))).
    destruct (IH (renderLine lh x s l) o l x (y c) eq_refl eq_refl eq_refl)
      as (new & E & F & G).
    exists (o :: new). split; [|split].
    + rewrite E. unfold renderLine. cbn [out doc setY onDoc draw].
      fold c. subst c. rewrite out_checkPageBreak, <- app_assoc. reflexivity.
    + constructor; [now exists (y c) | exact F].
    + split; [|exact G].
      exists t0, x0, y0, l, x, (y c). split; [exact Hp|]. split; [reflexivity|].
      subst o c. unfold checkPageBreak. cbn [onPage].
      destruct (Qlt_le_dec _ _) as [L|L]; cbn [y doc setY onDoc addPage numPages].
      * right. rewrite Hy in L. now rewrite Hn.
      * left. rewrite Hy in L |- *. now rewrite Hn.
Qed.

(** X23: the lines of a text are stacked down the pages: each line is drawn one
    line height below the one before it when it fits above the bottom
    margin there, and at the top margin of the next page when it does not;
    no line is drawn over another, and no page is skipped. *)
Theorem lines_stacked_down_the_pages (t : jsstring) (size : Q) (o : textOptions)
  (s : state) :
  let textIndent := if truthy (prefix o) then 15 else 0 in
  exists pfx new,
    out (doc (renderText t size o s)) = out (doc s) ++ pfx ++ new
    /\ (List.length pfx <= 1)%nat
    /\ Forall2 (fun d l => exists baseline,
                    shape d = text l (MARGIN + indent o + textIndent) baseline)
               new
               (splitTextToSize "helvetica" (styleOf o) size t
                                (contentWidth - indent o - textIndent))
    /\ adjacent (follows pageHeight (getLineHeight size)) new.
Proof.
  cbv zeta. rewrite renderText_wraps. cbv zeta. fold (styleOf o).
  set (s0 := onDoc (setTextColor (color o)) _).
  set (s1 := if truthy (prefix o) then _ else s0).
  assert (P : exists pfx, out (doc s1) = out (doc s) ++ pfx
                          /\ (List.length pfx <= 1)%nat).
  { subst s1. destruct (truthy (prefix o)).
    - eexists [_]. cbn [out doc onDoc draw]. rewrite out_checkPageBreak.
      split; [reflexivity | cbn; lia].
    - exists []. split; [now rewrite app_nil_r | cbn; lia]. }
  destruct P as (pfx & P & Plen). exists pfx.
  cbn [out doc onDoc setTextColor withGs].
  destruct (splitTextToSize _ _ _ _ _) as [|l rest].
  - exists []. cbn [fold_left]. rewrite P, app_nil_r. split; [reflexivity|].
    split; [exact Plen|]. split; constructor.
  - cbn [fold_left].
    set (c := checkPageBreak (getLineHeight size) s1).
    destruct (renderLines_stacked (getLineHeight size)
                (MARGIN + indent o + (if truthy (prefix o) then 15 else 0)) rest
                (renderLine (getLineHeight size)
                   (MARGIN + indent o + (if truthy (prefix o) then 15 else 0)) s1 l)
                (mkDrawn (numPages (doc c)) (gs (doc c))
                         (text l (MARGIN + indent o
                                  + (if truthy (prefix o) then 15 else 0)) (y c)))
                l _ (y c) eq_refl eq_refl eq_refl) as (new & E & F & G).
    exists (mkDrawn (numPages (doc c)) (gs (doc c))
                    (text l (MARGIN + indent o
                             + (if truthy (prefix o) then 15 else 0)) (y c)) :: new).
    split; [|split; [exact Plen|split; [|exact G]]].
    + rewrite E. unfold renderLine. cbn [out doc setY onDoc draw]. fold c.
      subst c. rewrite out_checkPageBreak, P, <- !app_assoc. reflexivity.
    + constructor; [now exists (y c) | exact F].
Qed.

End LinesStacked.

(** ** List items: what is inside an item *)

Section ItemFacts.

Variable splitTextToSize : string -> string -> Q -> jsstring -> Q -> list jsstring.
Variables pageWidth pageHeight : Q.

Local Abbreviation listItem := (listItem splitTextToSize pageWidth pageHeight).
Local Abbreviation processNode := (processNode splitTextToSize pageWidth pageHeight).
Local Abbreviation contentWidth := (contentWidth pageWidth).

(** X24: of the children of a list item only the nested lists are walked.  An
    item without a nested list draws its prefix and the wrapped lines of its
    text and nothing else: a paragraph, a code block, a block quote or a
    table inside the item is not laid out as a block, its text is part of
    the item's line. *)
Theorem blocks_inside_an_item_are_flattened (parent : option string)
  (attrs : list (string * jsstring)) (cs : list node) (s : state) :
  Forall (fun c => isListNode c = false) cs ->
  trim (directText (ElementNode "li" attrs cs)) <> [] ->
  exists pfx new,
    out (doc (processNode parent (ElementNode "li" attrs cs) s))
    = out (doc s) ++ pfx :: new
    /\ (exists baseline,
           shape pfx
           = text (itemPrefix parent (ElementNode "li" attrs cs)
                              (topCounter (incrementTop (listCounters s))))
                  (MARGIN + inject_Z (listDepth s - 1) * 20) baseline)
    /\ Forall2 (fun d l => exists baseline,
                    shape d
                    = text l (MARGIN + inject_Z (listDepth s - 1) * 20 + 15) baseline)
               new
               (splitTextToSize "helvetica" "normal" FONT_SIZE.BODY
                                (trim (directText (ElementNode "li" attrs cs)))
                                (contentWidth - inject_Z (listDepth s - 1) * 20 - 15)).
Proof.
  intros Hcs Ht. step_processNode.
  assert (K : classify "li" = KLi) by reflexivity. rewrite K. cbv iota.
  rewrite fold_left_id.
  - exact (listItem_out splitTextToSize pageWidth pageHeight parent
             (ElementNode "li" attrs cs) s Ht).
  - intros x c Hc. rewrite Forall_forall in Hcs. specialize (Hcs c Hc).
    destruct c as [t|ctag cattrs ccs|t]; try reflexivity.
    cbn [isListNode] in Hcs. now rewrite Hcs.
Qed.

End ItemFacts.

(** ** The pen of the text of a block *)

Lemma adds_impl (P P' : drawn -> Prop) (d d' : jsPDF) :
  (forall o, P o -> P' o) -> adds P d d' -> adds P' d d'.
Proof.
  intros H (new & E & F). exists new. split; [exact E|].
  eapply Forall_impl; [|exact F]. exact H.
Qed.



Section BlockPens.

Variable splitTextToSize : string -> string -> Q -> jsstring -> Q -> list jsstring.
Variables pageWidth pageHeight : Q.

Local Abbreviation checkPageBreak := (checkPageBreak pageHeight).
Local Abbreviation renderLine := (renderLine pageHeight).
Local Abbreviation renderText := (renderText splitTextToSize pageWidth pageHeight).
Local Abbreviation heading := (heading splitTextToSize pageWidth pageHeight).
Local Abbreviation paragraph := (paragraph splitTextToSize pageWidth pageHeight).
Local Abbreviation blockquote := (blockquote splitTextToSize pageWidth pageHeight).
Local Abbreviation codeLine := (codeLine pageHeight).
Local Abbreviation pre := (pre pageWidth pageHeight).
Local Abbreviation tableCell := (tableCell splitTextToSize).
Local Abbreviation tableRow := (tableRow splitTextToSize pageWidth pageHeight).
Local Abbreviation table := (table splitTextToSize pageWidth pageHeight).
Local Abbreviation hr := (hr pageWidth pageHeight).
Local Abbreviation listItem := (listItem splitTextToSize pageWidth pageHeight).
Local Abbreviation processNode := (processNode splitTextToSize pageWidth pageHeight).














End BlockPens.

Section PenOfDocument.

Variable splitTextToSize : string -> string -> Q -> jsstring -> Q -> list jsstring.
Variable parseFirstElement : jsstring -> option node.


End PenOfDocument.

(* ================================================================== *)
(** * Instances of the further properties *)

Lemma unknown_tags_draw_nothing_witness :
  processNode wrapNone 612 792 None
              (el "div" [TextNode (js "lost"); el "span" [TextNode (js "too")]])
              (initialState newLetterDoc)
  = initialState newLetterDoc.
Proof.
  exact (unknown_tags_draw_nothing wrapNone 612 792
           (el "div" [TextNode (js "lost"); el "span" [TextNode (js "too")]])
           eq_refl None (initialState newLetterDoc)).
Defined.

Lemma pages_stay_in_order_witness :
  pagesInOrder (renderToPdf wrapNone (fun _ => Some bulletDoc) newLetterDoc []).
Proof.
  exact (pages_stay_in_order wrapNone (fun _ => Some bulletDoc) newLetterDoc []
           ltac:(split; [apply le_n | split; [constructor | exact I]])).
Defined.


Lemma prefix_on_the_line_of_the_text_witness :
  exists page pen baseline more,
    out (doc (renderText wrapNone 612 792 (js "x") FONT_SIZE.BODY
                         (mkOptions false false 0 (js "•") (0, 0, 0)%Z)
                         (initialState newLetterDoc)))
    = out (doc (initialState newLetterDoc))
      ++ mkDrawn page pen (text (js "•") (MARGIN + 0) baseline)
      :: mkDrawn page pen (text (js "x") (MARGIN + 0 + 15) baseline)
      :: more.
Proof.
  exact (prefix_on_the_line_of_the_text wrapNone 612 792 (js "x") FONT_SIZE.BODY
           (mkOptions false false 0 (js "•") (0, 0, 0)%Z)
           (initialState newLetterDoc) (js "x") []
           ltac:(unfold getLineHeight, FONT_SIZE.BODY, MARGIN; lra)
           ltac:(vm_compute; discriminate)
           eq_refl).
Defined.

Lemma blank_blocks_draw_nothing_witness :
  processNode wrapNone 612 792 None (el "p" [TextNode (js "  ")])
              (initialState newLetterDoc)
  = initialState newLetterDoc
  /\ processNode wrapNone 612 792 None
                 (el "pre" [el "code" [TextNode (js " " ++ [newline])]])
                 (initialState newLetterDoc)
     = initialState newLetterDoc.
Proof.
  split.
  - exact (blank_blocks_draw_nothing wrapNone 612 792 None "p" []
             [TextNode (js "  ")] (initialState newLetterDoc) eq_refl).
  - exact (blank_blocks_draw_nothing wrapNone 612 792 None "pre" []
             [el "code" [TextNode (js " " ++ [newline])]]
             (initialState newLetterDoc) eq_refl).
Defined.

Lemma saved_document_is_sanitized_witness :
  exists html clean,
    remarkIdentity (convertLatexToUnicode (js "# a")) = inr html
    /\ sanitizeIdentity html = inr clean
    /\ renderToPdf wrapNone parseNothing newLetterDoc (js "# a")
       = renderToPdf wrapNone parseNothing newLetterDoc clean
    /\ js "vibescribe-notes-2026-01-01.pdf"
       = defaultFilenamePrefix ++ js "-" ++ firstn 10 sampleDate ++ js ".pdf".
Proof.
  exact (saved_document_is_sanitized wrapNone parseNothing unit remarkIdentity
           sanitizeIdentity sampleDate (js "# a") defaultFilenamePrefix
           (renderToPdf wrapNone parseNothing newLetterDoc (js "# a"))
           (js "vibescribe-notes-2026-01-01.pdf")
           ltac:(vm_compute; do 10 right; left; reflexivity)).
Defined.

Lemma failure_logged_and_rethrown_witness :
  exists before,
    fst (downloadMarkdownAsPdf wrapNone parseNothing remarkFails sanitizeIdentity
                               sampleDate (js "# a") defaultFilenamePrefix)
    = before ++ [ConsoleError tt]
    /\ forall e', ~ In (ConsoleError e') before.
Proof.
  exact (proj1 (failure_logged_and_rethrown wrapNone parseNothing unit remarkFails
                  sanitizeIdentity sampleDate (js "# a") defaultFilenamePrefix tt
                  eq_refl)).
Defined.

Lemma handler_on_empty_notes_witness :
  MainPage.handleDownloadPDF wrapNone parseNothing remarkIdentity sanitizeIdentity
                             sampleDate (js "  ")
                             (MainPage.mkUi (Some MainPage.genericMessage) false)
  = ([ConsoleLog unit "[PDF] Starting PDF generation..."],
     MainPage.mkUi (Some defaultMessage) false).
Proof.
  exact (handler_on_empty_notes wrapNone parseNothing unit remarkIdentity
           sanitizeIdentity sampleDate (js "  ")
           (MainPage.mkUi (Some MainPage.genericMessage) false) eq_refl).
Defined.

Lemma handler_on_failure_witness :
  MainPage.error
    (snd (MainPage.handleDownloadPDF wrapNone parseNothing remarkIdentity
                                     sanitizeFails sampleDate (js "# a")
                                     (MainPage.mkUi None false)))
  = Some MainPage.genericMessage.
Proof.
  exact (proj1 (handler_on_failure wrapNone parseNothing unit remarkIdentity
                  sanitizeFails sampleDate (js "# a") (MainPage.mkUi None false) tt
                  eq_refl)).
Defined.

Lemma spans_converted_left_to_right_witness :
  convertLatexToUnicode (js "a $\alpha$ b $\beta$ c") = js "a α b β c".
Proof.
  exact (spans_converted_left_to_right
           [(js "a ", js "\alpha"); (js " b ", js "\beta")] (js " c")
           ltac:(repeat (constructor;
                         [cbn [fst snd]; repeat split; vm_compute;
                          intuition discriminate|]);
                 constructor)).
Defined.

Lemma plain_span_only_unwrapped_witness :
  convertLatexToUnicode (js "sum: $ x + y $") = js "sum: x + y".
Proof.
  exact (plain_span_only_unwrapped (js "sum: ") (js " x + y ") []
           ltac:(vm_compute; intuition discriminate)
           ltac:(vm_compute; intuition discriminate)
           ltac:(vm_compute; intuition discriminate)
           eq_refl
           ltac:(vm_compute; discriminate)).
Defined.


Lemma blocks_inside_an_item_are_flattened_witness :
  exists pfx new,
    out (doc (processNode wrapNone 612 792 (Some "ul")
                (ElementNode "li" [] [el "p" [TextNode (js "x")]])
                (enterList (initialState newLetterDoc))))
    = out (doc (enterList (initialState newLetterDoc))) ++ pfx :: new
    /\ (exists baseline,
           shape pfx
           = text (itemPrefix (Some "ul")
                              (ElementNode "li" [] [el "p" [TextNode (js "x")]])
                              (topCounter (incrementTop [O])))
                  (MARGIN + inject_Z (1 - 1) * 20) baseline)
    /\ Forall2 (fun d l => exists baseline,
                    shape d = text l (MARGIN + inject_Z (1 - 1) * 20 + 15) baseline)
               new
               (wrapNone "helvetica" "normal" FONT_SIZE.BODY
                         (trim (directText
                                  (ElementNode "li" [] [el "p" [TextNode (js "x")]])))
                         (contentWidth 612 - inject_Z (1 - 1) * 20 - 15)).
Proof.
  exact (blocks_inside_an_item_are_flattened wrapNone 612 792 (Some "ul") []
           [el "p" [TextNode (js "x")]] (enterList (initialState newLetterDoc))
           ltac:(repeat constructor)
           ltac:(vm_compute; discriminate)).
Defined.

Lemma saved_document_is_well_formed_witness :
  pageSize (renderToPdf wrapNone (fun _ => Some bulletDoc) newLetterDoc (js "# a"))
  = (612, 792)%Q
  /\ pagesInOrder
       (renderToPdf wrapNone (fun _ => Some bulletDoc) newLetterDoc (js "# a"))
  /\ Forall knownPen
       (out (renderToPdf wrapNone (fun _ => Some bulletDoc) newLetterDoc (js "# a")))
  /\ Forall (placed 792)
       (out (renderToPdf wrapNone (fun _ => Some bulletDoc) newLetterDoc (js "# a"))).
Proof.
  exact (saved_document_is_well_formed wrapNone (fun _ => Some bulletDoc) unit
           remarkIdentity sanitizeIdentity sampleDate (js "# a")
           defaultFilenamePrefix
           (renderToPdf wrapNone (fun _ => Some bulletDoc) newLetterDoc (js "# a"))
           (js "vibescribe-notes-2026-01-01.pdf")
           ltac:(vm_compute; do 10 right; left; reflexivity)).
Defined.
